(** * minipy3: the minimizing printer, block compaction and output selection

    A shallow embedding of [minipy3/__init__.py] and [minipy3/semicolon.py]:
    the [AddSemicolon] and [Minimize] visitors (with the methods they
    inherit from CPython's [ast._Unparser]), [Minimize.post_process] and
    [minimize]; and of the loop [minimizer] of [minipy3/__main__.py] over
    files kept as texts by path.  The properties checked against them
    follow.

    Conventions.
    - A Python [str] is a [string] whose characters are read as code points
      0..255; [len] is [String.length].  Code points above U+00FF are outside
      the model.
    - The interpreter's own pieces (the parser, the compression modules,
      libm's [log10]/[log2]) are section variables; what surrounds them
      (integer to double conversion, [Decimal], [bytes.__repr__],
      [textwrap.dedent]) is written out.
    - A visitor is a function on the printer state; an exception raised
      while printing sets the [raised] flag of the state, which is never
      unset, and the render pass returns [None].  The traversal is not
      unwound: up to the first exception the state is the interpreter's;
      what is written or counted once the flag is set stands for nothing
      the interpreter does. *)

From Stdlib Require Import ZArith String Ascii List Lia DecimalString SpecFloat.
From Stdlib Require Import Strings.Byte Sorting.Sorted DecimalPos.
From stdpp Require Import gmap strings list.
Import ListNotations.

Local Open Scope Z_scope.
#[local] Set Warnings "-register-all".

(** ** Python strings *)

Module Py.

Definition chr (n : nat) : ascii := ascii_of_nat n.
Definition ord (c : ascii) : nat := nat_of_ascii c.

Definition NL : string := String (chr 10) "".

Definition char_in (chars : string) (c : ascii) : bool :=
  existsb (Ascii.eqb c) (list_ascii_of_string chars).

(** [string.whitespace], the six ASCII blanks. *)
Definition whitespace : string :=
  String " " (String (chr 9) (String (chr 10) (String (chr 13)
    (String (chr 11) (String (chr 12) ""))))).

(** [str.isspace] on one code point below 256. *)
Definition isspace (c : ascii) : bool :=
  let n := ord c in
  ((9 <=? n) && (n <=? 13) || (28 <=? n) && (n <=? 32)
   || (n =? 133) || (n =? 160))%nat.

(** The line boundaries [str.splitlines] knows below 256. *)
Definition is_linebreak (c : ascii) : bool :=
  let n := ord c in
  ((10 <=? n) && (n <=? 13) || (28 <=? n) && (n <=? 30) || (n =? 133))%nat.

Fixpoint lstrip_by (p : ascii -> bool) (s : string) : string :=
  match s with
  | String c r => if p c then lstrip_by p r else s
  | EmptyString => EmptyString
  end.

Fixpoint rstrip_by (p : ascii -> bool) (s : string) : string :=
  match s with
  | String c r =>
      match rstrip_by p r with
      | EmptyString => if p c then EmptyString else String c EmptyString
      | r' => String c r'
      end
  | EmptyString => EmptyString
  end.

Definition strip_by (p : ascii -> bool) (s : string) : string :=
  rstrip_by p (lstrip_by p s).

(** [s.lstrip(chars)], [s.rstrip(chars)], [s.strip(chars)] and
    [s.strip()]. *)
Definition lstrip (chars s : string) : string := lstrip_by (char_in chars) s.
Definition rstrip (chars s : string) : string := rstrip_by (char_in chars) s.
Definition strip (chars s : string) : string := strip_by (char_in chars) s.
Definition strip_ws (s : string) : string := strip_by isspace s.

(** [s.endswith(c)] for a one-character suffix. *)
Fixpoint endswith_char (c : ascii) (s : string) : bool :=
  match s with
  | EmptyString => false
  | String d EmptyString => Ascii.eqb d c
  | String _ r => endswith_char c r
  end.

(** [s.split()[0]]: the first blank-delimited word; [None] is the
    [IndexError] of indexing an empty list. *)
Fixpoint take_word (s : string) : string :=
  match s with
  | String c r => if isspace c then EmptyString else String c (take_word r)
  | EmptyString => EmptyString
  end.

Definition first_word (s : string) : option string :=
  match take_word (lstrip_by isspace s) with
  | EmptyString => None
  | w => Some w
  end.

(** [sep.join(parts)]. *)
Fixpoint join (sep : string) (parts : list string) : string :=
  match parts with
  | [] => ""
  | [p] => p
  | p :: rest => p +:+ sep +:+ join sep rest
  end.

Definition concat (parts : list string) : string :=
  fold_right String.append "" parts.

(** [s.splitlines()]: [cur] is the line being read, reversed. *)
Fixpoint splitlines_go (cur : list ascii) (s : string) : list string :=
  match s with
  | EmptyString =>
      match cur with
      | [] => []
      | _ => [string_of_list_ascii (rev cur)]
      end
  | String c r =>
      if is_linebreak c then
        let r' := match r with
                  | String d r2 =>
                      if ((ord c =? 13) && (ord d =? 10))%nat then r2 else r
                  | EmptyString => r
                  end in
        string_of_list_ascii (rev cur) :: splitlines_go [] r'
      else splitlines_go (c :: cur) r
  end.

Definition splitlines (s : string) : list string := splitlines_go [] s.

(** [c * n] for a one-character string. *)
Fixpoint repeat_char (c : ascii) (n : nat) : string :=
  match n with
  | O => ""
  | S k => String c (repeat_char c k)
  end.

(** [repr(n)] and [str(n)] of an [int]. *)
Definition int_repr (n : Z) : string := NilEmpty.string_of_int (Z.to_int n).

Definition bool_repr (b : bool) : string := if b then "True" else "False".

(** [s.replace(old, new)] for a non-empty [old]: [fuel] bounds the
    scan by the length of [s]. *)
Fixpoint replace_go (fuel : nat) (old new s : string) : string :=
  match fuel with
  | O => s
  | S k =>
      if String.prefix old s then
        new +:+ replace_go k old new
                  (String.substring (String.length old)
                     (String.length s - String.length old) s)
      else
        match s with
        | String c r => String c (replace_go k old new r)
        | EmptyString => EmptyString
        end
  end.

Definition replace (old new s : string) : string :=
  match old with
  | EmptyString => s
  | _ => replace_go (S (String.length s)) old new s
  end.

End Py.

(** ** [textwrap.dedent] and [_get_indent] *)

Module textwrap.

Definition is_blank (c : ascii) : bool :=
  ((Py.ord c =? 32) || (Py.ord c =? 9))%nat.

(** The lines the anchors of a [re.MULTILINE] pattern delimit: the text
    cut at every newline character, as [text.split] cuts it. *)
Fixpoint lines (text : string) : list string :=
  match text with
  | EmptyString => [""]
  | String c r =>
      if Ascii.eqb c (Py.chr 10) then "" :: lines r
      else match lines r with
           | l :: ls => String c l :: ls
           | [] => [String c ""]
           end
  end.

(** A line [_whitespace_only_re] matches: one or more spaces and tabs
    from its start to its end. *)
Definition whitespace_only (line : string) : bool :=
  match line with
  | EmptyString => false
  | _ => forallb is_blank (list_ascii_of_string line)
  end.

(** The group of [_leading_whitespace_re] on a line: the spaces and
    tabs it begins with, when another character follows them on the
    line. *)
Fixpoint leading (line : string) : string :=
  match line with
  | String c r => if is_blank c then String c (leading r) else ""
  | EmptyString => ""
  end.

Definition indent_of (line : string) : option string :=
  match Py.lstrip_by is_blank line with
  | EmptyString => None
  | _ => Some (leading line)
  end.

(** [margin[:i]] at the first [i] where [margin] and [indent] differ;
    [margin] itself when the loop over [zip(margin, indent)] ends
    without a [break]. *)
Fixpoint first_difference (margin indent : string) : string :=
  match margin, indent with
  | String x m, String y i =>
      if Ascii.eqb x y then String x (first_difference m i) else ""
  | _, _ => margin
  end.

(** One turn of [for indent in indents]; [None] is the initial
    [margin = None]. *)
Definition narrow (margin : option string) (indent : string)
  : option string :=
  match margin with
  | None => Some indent
  | Some m =>
      if String.prefix m indent then Some m
      else if String.prefix indent m then Some indent
      else Some (first_difference m indent)
  end.

Fixpoint drop_chars (n : nat) (s : string) : string :=
  match n, s with
  | S n', String _ r => drop_chars n' r
  | _, _ => s
  end.

(** [dedent(text)]: lines of spaces and tabs only are emptied, the
    margin is narrowed by the indent of every line that has one, and a
    margin that is not empty is removed from the start of every line
    that begins with it. *)
Definition dedent (text : string) : string :=
  let ls := map (fun l => if whitespace_only l then "" else l) (lines text) in
  match fold_left narrow (omap indent_of ls) None with
  | Some (String _ _ as margin) =>
      Py.join Py.NL
        (map (fun l => if String.prefix margin l
                       then drop_chars (String.length margin) l else l) ls)
  | _ => Py.join Py.NL ls
  end.

(** No newline character in [text]: the text is one line for
    [dedent]. *)
Definition no_newline (text : string) : bool :=
  forallb (fun c => negb (Ascii.eqb c (Py.chr 10)))
    (list_ascii_of_string text).

End textwrap.

Definition _get_indent (line : string) : nat :=
  (String.length line - String.length (textwrap.dedent line))%nat.

(** ** [Minimize.post_process] *)

Module PostProcess.

(** The state of the compaction loop: the line buffer, updated in
    place, and the indices marked for deletion. *)
Definition loop_state : Type := list string * list nat.

(** [lines[i]] for [i >= 0]; [None] is [IndexError]. *)
Definition getitem (lines : list string) (i : nat) : option string :=
  lines !! i.

(** One iteration of [for i in [...]] with [ls2 = len(lines) - 2]. *)
Definition step (ls2 : Z) (i : nat) (s : loop_state) : option loop_state :=
  let '(lines, to_del) := s in
  match getitem lines i, getitem lines (i + 1) with
  | Some line, Some back_line =>
      let next_line := default "" (getitem lines (i + 2)) in
      let it_line_tabs := _get_indent line in
      if negb (Z.of_nat i =? ls2)
         && ((_get_indent back_line <=? it_line_tabs)%nat
             || (it_line_tabs <? _get_indent next_line)%nat)
      then Some s
      else Some (<[i := line +:+ Py.strip_ws back_line]> lines,
                 to_del ++ [(i + 1)%nat])
  | _, _ => None
  end.

Fixpoint loop (ls2 : Z) (headers : list nat) (s : loop_state)
  : option loop_state :=
  match headers with
  | [] => Some s
  | i :: rest =>
      match step ls2 i s with
      | Some s' => loop ls2 rest s'
      | None => None
      end
  end.

(** [[i for i, l in enumerate(lines) if l.endswith(':')]], counting
    from [start]. *)
Fixpoint headers_from (start : nat) (lines : list string) : list nat :=
  match lines with
  | [] => []
  | l :: rest =>
      if Py.endswith_char ":" l then start :: headers_from (S start) rest
      else headers_from (S start) rest
  end.

(** [del lines[i]]; [None] is [IndexError].  The deletion pass never
    reaches a negative index: the marked indices increase from 1 on. *)
Definition del (lines : list string) (i : Z) : option (list string) :=
  if (0 <=? i) && (i <? Z.of_nat (length lines))
  then Some (delete (Z.to_nat i) lines)
  else None.

(** The deletion pass, with its running [offset]. *)
Fixpoint delete_marked (to_del : list nat) (offset : Z) (lines : list string)
  : option (list string) :=
  match to_del with
  | [] => Some lines
  | i :: rest =>
      match del lines (Z.of_nat i - offset) with
      | Some lines' => delete_marked rest (offset + 1) lines'
      | None => None
      end
  end.

Definition rstrip_lines (source : string) : list string :=
  map (Py.rstrip (Py.whitespace +:+ ";")) (Py.splitlines source).

Definition compact (lines : list string) : option loop_state :=
  loop (Z.of_nat (length lines) - 2) (headers_from 0 lines) (lines, []).

Definition post_process (source : string) : option string :=
  match compact (rstrip_lines source) with
  | Some (lines, to_del) =>
      match delete_marked to_del 0 lines with
      | Some lines' => Some (Py.join Py.NL lines')
      | None => None
      end
  | None => None
  end.

End PostProcess.

(** ** [ast._Precedence] *)

Inductive _Precedence : Set :=
  | NAMED_EXPR | TUPLE | YIELD | TEST | OR | AND | NOT | CMP | EXPR
  | BXOR | BAND | SHIFT | ARITH | TERM | FACTOR | POWER | AWAIT | ATOM.

Module Precedence.

(** [BOR = EXPR] is an alias of the enumeration. *)
Definition BOR : _Precedence := EXPR.

(** The [IntEnum] value given by [auto()]. *)
Definition value (p : _Precedence) : Z :=
  match p with
  | NAMED_EXPR => 1 | TUPLE => 2 | YIELD => 3 | TEST => 4 | OR => 5
  | AND => 6 | NOT => 7 | CMP => 8 | EXPR => 9 | BXOR => 10 | BAND => 11
  | SHIFT => 12 | ARITH => 13 | TERM => 14 | FACTOR => 15 | POWER => 16
  | AWAIT => 17 | ATOM => 18
  end.

Definition members : list _Precedence :=
  [NAMED_EXPR; TUPLE; YIELD; TEST; OR; AND; NOT; CMP; EXPR; BXOR; BAND;
   SHIFT; ARITH; TERM; FACTOR; POWER; AWAIT; ATOM].

(** [_Precedence(v)]; [None] is [ValueError]. *)
Definition of_value (v : Z) : option _Precedence :=
  find (fun p => value p =? v) members.

(** [next]: the next level, or the level itself at the top. *)
Definition next (p : _Precedence) : _Precedence :=
  match of_value (value p + 1) with
  | Some q => q
  | None => p
  end.

(** [a > b] on the [IntEnum]. *)
Definition gt (a b : _Precedence) : bool := value b <? value a.

End Precedence.

(** ** The syntax tree

    The statement and expression kinds the development covers, with the
    field names of the [ast] module.  A [float] constant is carried as the
    text [str(value)] returns for it (its shortest round-trip [repr]). *)

Module ast.

Inductive operator : Set :=
  | Add | Sub | Mult | MatMult | Div | Mod | LShift | RShift
  | BitOr | BitXor | BitAnd | FloorDiv | Pow.

Inductive unaryop : Set := Invert | Not | UAdd | USub.

Inductive cmpop : Set :=
  | Eq | NotEq | Lt | LtE | Gt | GtE | Is | IsNot | In | NotIn.

Inductive constant : Set :=
  | Int (n : Z)
  | Bool (b : bool)
  | NoneValue
  | Ellipsis
  | Float (repr : string).

Inductive expr : Set :=
  | Name (id : string)
  | Constant (value : constant)
  | BinOp (left : expr) (op : operator) (right : expr)
  | UnaryOp (op : unaryop) (operand : expr)
  | Compare (left : expr) (ops : list cmpop) (comparators : list expr).

Record alias : Set := mk_alias { name : string; asname : option string }.

Inductive stmt : Set :=
  | Import (names : list alias)
  | Assign (targets : list expr) (value : expr)
  | Expr (value : expr)
  | Return (value : option expr)
  | Pass
  | If (test : expr) (body orelse : list stmt)
  | While (test : expr) (body orelse : list stmt).

(** [Module(body, type_ignores)]; [ast.parse] is called without type
    comments, so [type_ignores] is empty and every [type_comment] is
    [None]. *)
Inductive module : Set := Module_ (body : list stmt).

(** [node.__class__.__name__] of a statement. *)
Definition class_name (s : stmt) : string :=
  match s with
  | Import _ => "Import" | Assign _ _ => "Assign" | Expr _ => "Expr"
  | Return _ => "Return" | Pass => "Pass" | If _ _ _ => "If"
  | While _ _ _ => "While"
  end.

End ast.

(** ** [decimal.Decimal]: construction from a string, and [str] *)

Module decimal.

Inductive Decimal : Set :=
  | Finite (_sign : bool) (_int : string) (_exp : Z)
  | Infinity (_sign : bool)
  | NaN (_sign : bool) (signal : bool) (diag : string).

Definition is_digit (c : ascii) : bool :=
  ((48 <=? Py.ord c) && (Py.ord c <=? 57))%nat.

Definition lower (c : ascii) : ascii :=
  if ((65 <=? Py.ord c) && (Py.ord c <=? 90))%nat
  then Py.chr (Py.ord c + 32) else c.

Fixpoint lower_str (s : string) : string :=
  match s with
  | String c r => String (lower c) (lower_str r)
  | EmptyString => EmptyString
  end.

Definition all_digits (s : string) : bool :=
  forallb is_digit (list_ascii_of_string s).

(** The longest prefix of digits, and what follows it. *)
Fixpoint span_digits (s : string) : string * string :=
  match s with
  | String c r =>
      if is_digit c
      then let '(d, rest) := span_digits r in (String c d, rest)
      else (EmptyString, s)
  | EmptyString => (EmptyString, EmptyString)
  end.

(** [int(ds)] for a string of digits. *)
Definition int_of_digits (ds : string) : Z :=
  fold_left (fun acc c => 10 * acc + Z.of_nat (Py.ord c - 48))
    (list_ascii_of_string ds) 0.

Definition take_sign (s : string) : bool * string :=
  match s with
  | String "-" r => (true, r)
  | String "+" r => (false, r)
  | _ => (false, s)
  end.

(** The exponent part [(E[-+]?\d+)?], which must end the string. *)
Definition parse_exp (s : string) : option Z :=
  match s with
  | EmptyString => Some 0
  | String "e" r =>
      let '(neg, r1) := take_sign r in
      match span_digits r1 with
      | (String c d, EmptyString) =>
          let n := int_of_digits (String c d) in
          Some (if neg then - n else n)
      | _ => None
      end
  | _ => None
  end.

(** [Decimal(value)] for a [str]; [None] is [InvalidOperation]. *)
Definition of_str (value : string) : option Decimal :=
  let s := lower_str (Py.replace "_" "" (Py.strip_ws value)) in
  let '(sign, s1) := take_sign s in
  if String.eqb s1 "inf" || String.eqb s1 "infinity" then Some (Infinity sign)
  else
    let '(signal, s2) := match s1 with
                         | String "s" r => (true, r)
                         | _ => (false, s1)
                         end in
    if String.prefix "nan" s2 then
      match span_digits (String.substring 3 (String.length s2 - 3) s2) with
      | (diag, EmptyString) =>
          Some (NaN sign signal
                  (Py.lstrip_by (Ascii.eqb "0")
                     (Py.int_repr (int_of_digits diag))))
      | _ => None
      end
    else if signal then None
    else
      let '(intpart, r1) := span_digits s1 in
      let '(fracpart, r2) :=
        match r1 with
        | String "." r => span_digits r
        | _ => (EmptyString, r1)
        end in
      match intpart +:+ fracpart with
      | EmptyString => None
      | digits =>
          match parse_exp r2 with
          | Some exp =>
              Some (Finite sign (Py.int_repr (int_of_digits digits))
                      (exp - Z.of_nat (String.length fracpart)))
          | None => None
          end
      end.

(** ["%+d" % n]. *)
Definition signed_repr (n : Z) : string :=
  if n <? 0 then Py.int_repr n else "+" +:+ Py.int_repr n.

(** [Decimal.__str__], scientific notation with a capital [E]. *)
Definition to_str (d : Decimal) : string :=
  match d with
  | Infinity sign => (if sign then "-" else "") +:+ "Infinity"
  | NaN sign signal diag =>
      (if sign then "-" else "") +:+ (if signal then "sNaN" else "NaN")
      +:+ diag
  | Finite sign _int _exp =>
      let len_int := Z.of_nat (String.length _int) in
      let leftdigits := _exp + len_int in
      let dotplace :=
        if (_exp <=? 0) && (-6 <? leftdigits) then leftdigits else 1 in
      let '(intpart, fracpart) :=
        if dotplace <=? 0 then
          ("0", "." +:+ Py.repeat_char "0" (Z.to_nat (- dotplace)) +:+ _int)
        else if len_int <=? dotplace then
          (_int +:+ Py.repeat_char "0" (Z.to_nat (dotplace - len_int)), "")
        else
          (String.substring 0 (Z.to_nat dotplace) _int,
           "." +:+ String.substring (Z.to_nat dotplace)
                     (String.length _int - Z.to_nat dotplace) _int) in
      let exp :=
        if leftdigits =? dotplace then ""
        else "E" +:+ signed_repr (leftdigits - dotplace) in
      (if sign then "-" else "") +:+ intpart +:+ fracpart +:+ exp
  end.

End decimal.

(** ** [math.log10] and [math.log2] on an [int]

    CPython's [loghelper]: the integer is converted to a double (round to
    nearest, ties to even) and handed to libm; when the conversion
    overflows, the logarithm is assembled from [_PyLong_Frexp].  Doubles are
    [spec_float] values of precision 53; libm's function is a parameter. *)

Module math.

Definition prec : Z := 53.
Definition emax : Z := 1024.

Definition float_of_Z (n : Z) : spec_float :=
  binary_normalize prec emax n 0 false.

(** [PyLong_AsDouble]; [None] is [OverflowError]. *)
Definition PyLong_AsDouble (n : Z) : option spec_float :=
  match float_of_Z n with
  | S754_infinity _ => None
  | x => Some x
  end.

(** [_PyLong_Frexp] of a positive [n]: [(x, e)] with [0.5 <= x < 1] and
    [n ~= x * 2**e]. *)
Definition _PyLong_Frexp (n : Z) : spec_float * Z :=
  let e := Z.log2 n + 1 in
  let x := binary_normalize prec emax n (- e) false in
  if SFeqb x (float_of_Z 1)
  then (binary_normalize prec emax 1 (-1) false, e + 1)
  else (x, e).

(** [loghelper(arg, func)]; [None] is the [ValueError] of a
    non-positive argument. *)
Definition loghelper (func : spec_float -> spec_float) (arg : Z)
  : option spec_float :=
  if arg <=? 0 then None
  else
    match PyLong_AsDouble arg with
    | Some x => Some (func x)
    | None =>
        let '(x, e) := _PyLong_Frexp arg in
        Some (SFadd prec emax (func x)
                (SFmul prec emax (func (float_of_Z 2)) (float_of_Z e)))
    end.

(** [not (r % 1)]: the remainder is zero exactly for a finite whole
    [r]; for an infinity or a NaN it is a NaN, which is true. *)
Definition is_whole (r : spec_float) : bool :=
  match r with
  | S754_zero _ => true
  | S754_finite _ m e =>
      if 0 <=? e then true else Z.pos m mod 2 ^ (- e) =? 0
  | _ => false
  end.

(** [int(r)], truncating; [None] is the error raised for an infinity
    or a NaN. *)
Definition int_of_float (r : spec_float) : option Z :=
  match r with
  | S754_zero _ => Some 0
  | S754_finite s m e =>
      let a := if 0 <=? e then Z.pos m * 2 ^ e else Z.pos m / 2 ^ (- e) in
      Some (if s then - a else a)
  | _ => None
  end.

(** A stand-in for libm's [log10] and [log2], used to run the model at
    concrete integers that convert to a double: exact on a double that
    is a whole power of [b], and half-way between two whole numbers
    everywhere else. *)
Definition whole_value (x : spec_float) : option Z :=
  match x with
  | S754_finite false m e =>
      if 0 <=? e then Some (Z.pos m * 2 ^ e)
      else if Z.pos m mod 2 ^ (- e) =? 0 then Some (Z.pos m / 2 ^ (- e))
      else None
  | _ => None
  end.

(** The largest [k] from [k0] on with [b ^ k <= v]. *)
Fixpoint ilog_from (fuel : nat) (b v k0 : Z) : Z :=
  match fuel with
  | O => k0
  | S f => if b ^ (k0 + 1) <=? v then ilog_from f b v (k0 + 1) else k0
  end.

Definition log_ref (b : Z) (x : spec_float) : spec_float :=
  match whole_value x with
  | Some v =>
      let k := ilog_from (Z.to_nat (Z.log2 v)) b v 0 in
      if v =? b ^ k then float_of_Z k
      else binary_normalize prec emax (2 * k + 1) (-1) false
  | None => binary_normalize prec emax (-1) (-1) false
  end.

End math.

(** ** [semicolon.py]: the class attribute [add_semicolon_after]

    The attribute holds a [set] object.  Classes name it by reference, so
    that an in-place update through one class is seen through every class
    that names the same object. *)

Module semicolon.

Definition set_xor (a b : gset string) : gset string := (a ∖ b) ∪ (b ∖ a).

(** The literal in the body of [class AddSemicolon]. *)
Definition add_semicolon_after_literal : gset string :=
  {[ "Return"; "Delete"; "Assign"; "AugAssign"; "AnnAssign"; "Raise";
     "Assert"; "Import"; "ImportFrom"; "Global"; "Nonlocal"; "Expr";
     "Pass"; "Break"; "Continue" ]}.

(** A class: its base, and the entry of its own namespace for
    [add_semicolon_after], if it has one. *)
Record class_object : Type := mk_class {
  base : option string;
  own_add_semicolon_after : option nat
}.

(** The interpreter state the two modules touch: the classes by name,
    and the set objects by address. *)
Record runtime : Type := mk_runtime {
  classes : gmap string class_object;
  heap : gmap nat (gset string)
}.

Definition empty_runtime : runtime := mk_runtime ∅ ∅.

(** [cls.add_semicolon_after], looked up along the bases; [depth]
    bounds the walk by the number of classes. *)
Fixpoint getattr_ref (depth : nat) (rt : runtime) (cls : string)
  : option nat :=
  match depth with
  | O => None
  | S d =>
      match classes rt !! cls with
      | Some c =>
          match own_add_semicolon_after c with
          | Some r => Some r
          | None =>
              match base c with
              | Some b => getattr_ref d rt b
              | None => None
              end
          end
      | None => None
      end
  end.

Definition getattr (rt : runtime) (cls : string) : option (gset string) :=
  match getattr_ref (S (size (classes rt))) rt cls with
  | Some r => heap rt !! r
  | None => None
  end.

(** [cls.add_semicolon_after ^= ignore]: the set found through [cls] is
    updated in place ([set.__ixor__]) and then bound in the namespace
    of [cls] itself. *)
Definition __init_subclass__ (cls : string) (ignore : gset string)
    (rt : runtime) : option runtime :=
  match getattr_ref (S (size (classes rt))) rt cls with
  | Some r =>
      match heap rt !! r, classes rt !! cls with
      | Some s, Some c =>
          Some (mk_runtime
                  (<[cls := mk_class (base c) (Some r)]> (classes rt))
                  (<[r := set_xor s ignore]> (heap rt)))
      | _, _ => None
      end
  | None => None
  end.

(** [class AddSemicolon(ast._Unparser)]: the body binds a fresh set
    object. *)
Definition define_AddSemicolon (rt : runtime) : runtime :=
  let r := size (heap rt) in
  mk_runtime (<["AddSemicolon" := mk_class None (Some r)]> (classes rt))
             (<[r := add_semicolon_after_literal]> (heap rt)).

(** [class name(base, ignore=...)] with an empty body as far as
    [add_semicolon_after] goes: the class is created, then
    [__init_subclass__] runs on it; without the keyword, [ignore] is the
    empty set. *)
Definition define_subclass (name base_name : string)
    (ignore : option (gset string)) (rt : runtime) : option runtime :=
  __init_subclass__ name (default ∅ ignore)
    (mk_runtime (<[name := mk_class (Some base_name) None]> (classes rt))
                (heap rt)).

(** Importing the package: [semicolon.py] runs, then [__init__.py]
    defines [class Minimize(AddSemicolon, ignore={'Import'})]. *)
Definition import_semicolon : runtime := define_AddSemicolon empty_runtime.

Definition import_minipy3 : option runtime :=
  define_subclass "Minimize" "AddSemicolon" (Some {[ "Import" ]})
    import_semicolon.

End semicolon.

(** ** The visitors: [ast._Unparser], [AddSemicolon] and [Minimize] *)

(** The class of the instance that prints: a method that [Minimize]
    overrides is a [match] on it, a method it inherits is shared. *)
Inductive klass : Set := AddSemicolon | Minimize.

(** The state a visitor works on.  [_source], [_indent] and [_indent_mem]
    belong to the instance.  [import_names] is the list bound in the body
    of [class Minimize]: one object for all instances, threaded from one
    render pass to the next.  [raised] records an exception. *)
Record unparser : Type := mk_unparser {
  _source : list string;
  _indent : nat;
  _indent_mem : nat;
  import_names : list (option ast.alias);
  raised : bool
}.

Definition set_source (f : list string -> list string) (u : unparser) :=
  mk_unparser (f (_source u)) (_indent u) (_indent_mem u) (import_names u)
    (raised u).
Definition set_indent (f : nat -> nat) (u : unparser) :=
  mk_unparser (_source u) (f (_indent u)) (_indent_mem u) (import_names u)
    (raised u).
Definition set_indent_mem (n : nat) (u : unparser) :=
  mk_unparser (_source u) (_indent u) n (import_names u) (raised u).
Definition set_import_names
    (f : list (option ast.alias) -> list (option ast.alias)) (u : unparser) :=
  mk_unparser (_source u) (_indent u) (_indent_mem u) (f (import_names u))
    (raised u).
(** An exception: the flag is set, and no setter unsets it.  A state
    whose flag is unset has come through no exception. *)
Definition raise (u : unparser) :=
  mk_unparser (_source u) (_indent u) (_indent_mem u) (import_names u) true.

(** [Minimize.blocks]. *)
Definition blocks : list string :=
  ["try"; "else"; "finally"; "except"; "except*"; "class"; "def"; "@"; "if";
   "elif"; "while"; "with"; "match"; "for"; "async"].

Definition binop (op : ast.operator) : string :=
  match op with
  | ast.Add => "+" | ast.Sub => "-" | ast.Mult => "*" | ast.MatMult => "@"
  | ast.Div => "/" | ast.Mod => "%" | ast.LShift => "<<" | ast.RShift => ">>"
  | ast.BitOr => "|" | ast.BitXor => "^" | ast.BitAnd => "&"
  | ast.FloorDiv => "//" | ast.Pow => "**"
  end.

(** [binop_precedence[binop[...]]]. *)
Definition binop_precedence (op : ast.operator) : _Precedence :=
  match op with
  | ast.Add | ast.Sub => ARITH
  | ast.Mult | ast.MatMult | ast.Div | ast.Mod | ast.FloorDiv => TERM
  | ast.LShift | ast.RShift => SHIFT
  | ast.BitOr => Precedence.BOR
  | ast.BitXor => BXOR
  | ast.BitAnd => BAND
  | ast.Pow => POWER
  end.

(** [operator in binop_rassoc]. *)
Definition binop_rassoc (operator : string) : bool := String.eqb operator "**".

Definition unop (op : ast.unaryop) : string :=
  match op with
  | ast.Invert => "~" | ast.Not => "not" | ast.UAdd => "+" | ast.USub => "-"
  end.

Definition unop_precedence (op : ast.unaryop) : _Precedence :=
  match op with
  | ast.Not => NOT
  | ast.Invert | ast.UAdd | ast.USub => FACTOR
  end.

(** [_Unparser.cmpops]. *)
Definition cmpops_base (op : ast.cmpop) : string :=
  match op with
  | ast.Eq => "==" | ast.NotEq => "!=" | ast.Lt => "<" | ast.LtE => "<="
  | ast.Gt => ">" | ast.GtE => ">=" | ast.Is => "is" | ast.IsNot => "is not"
  | ast.In => "in" | ast.NotIn => "not in"
  end.

(** [Minimize.cmpops]. *)
Definition cmpops (op : ast.cmpop) : string :=
  match op with
  | ast.Eq => "==" | ast.NotEq => "!=" | ast.Lt => "<" | ast.LtE => "<="
  | ast.Gt => ">" | ast.GtE => ">=" | ast.Is => " is "
  | ast.IsNot => " is not " | ast.In => " in " | ast.NotIn => " not in "
  end.

(** [_INFSTR]. *)
Definition _INFSTR : string := "1e309".

(** The depth to which [visit_Constant] may re-enter itself through the
    power nodes it builds before the interpreter gives up. *)
Definition recursion_depth : nat := 64.

Section Unparser.

Variable cls : klass.
(** The set [self.add_semicolon_after] resolves to when the instance is
    built: the visitors it names are the ones [__init__] wraps. *)
Variable add_semicolon_after : gset string.
(** libm. *)
Variables log10 log2 : spec_float -> spec_float.

Definition write (text : string) (u : unparser) : unparser :=
  set_source (fun src => src ++ [text]) u.

Definition maybe_newline (u : unparser) : unparser :=
  match _source u with
  | [] => u
  | _ => write Py.NL u
  end.

Definition source_ends_with_colon (u : unparser) : bool :=
  match last (_source u) with
  | Some t => String.eqb t ":"
  | None => false
  end.

Definition fill (text : string) (u : unparser) : unparser :=
  match cls with
  | AddSemicolon =>
      write (Py.repeat_char " " (4 * _indent u) +:+ text) (maybe_newline u)
  | Minimize =>
      let opens_block :=
        match text with
        | EmptyString => Some false
        | _ =>
            match Py.first_word (Py.strip_ws text) with
            | Some w => Some (existsb (String.eqb w) blocks)
            | None => None
            end
        end in
      match opens_block with
      | None => raise u
      | Some b =>
          if b || negb (_indent u =? _indent_mem u)%nat
             || source_ends_with_colon u
          then
            let u1 := maybe_newline u in
            let u2 := set_indent_mem (_indent u1) u1 in
            write text (write (Py.repeat_char " " (_indent u2)) u2)
          else write text u
      end
  end.

(** [with self.block(): body], for a body that returns.  [block] has no
    [finally]: a body that raises leaves [_indent] incremented in the
    interpreter, which the count after a set flag does not follow. *)
Definition block (body : unparser -> unparser) (u : unparser) : unparser :=
  set_indent Nat.pred (body (set_indent S (write ":" u))).

(** [self._source[-1] = self._source[-1].rstrip(' ')]. *)
Definition rstrip_last (src : list string) : list string :=
  match last src with
  | Some t => removelast src ++ [Py.rstrip " " t]
  | None => src
  end.

(** [with self.delimit(start, end): body]. *)
Definition delimit (start end_ : string) (body : unparser -> unparser)
    (u : unparser) : unparser :=
  let u1 :=
    match cls with
    | Minimize =>
        match _source u with
        | [] => u
        | _ =>
            if String.eqb (Py.strip_ws start) "("
            then set_source rstrip_last u else u
        end
    | AddSemicolon => u
    end in
  write end_ (body (write start u1)).

Definition delimit_if (start end_ : string) (condition : bool)
    (body : unparser -> unparser) (u : unparser) : unparser :=
  if condition then delimit start end_ body u else body u.

(** [with self.require_parens(precedence, node): body], where
    [node_precedence] is [self.get_precedence(node)].

    [_precedences] is keyed by node object.  Every node of a parsed tree
    is one object at one place, and a visitor sets the entry of a child
    just before traversing it or not at all (the lookup then falls back
    to [TEST]); so the entry is passed along with the child. *)
Definition require_parens (precedence node_precedence : _Precedence)
    (body : unparser -> unparser) (u : unparser) : unparser :=
  delimit_if "(" ")" (Precedence.gt node_precedence precedence) body u.

(** [self.interleave(inter, f, seq)]. *)
Definition interleave {A : Type} (inter : unparser -> unparser)
    (f : A -> unparser -> unparser) (seq : list A) (u : unparser)
    : unparser :=
  match seq with
  | [] => u
  | x :: rest => fold_left (fun u y => f y (inter u)) rest (f x u)
  end.

Definition visit_alias (node : ast.alias) (u : unparser) : unparser :=
  let u1 := write (ast.name node) u in
  match ast.asname node with
  | Some (String c r) => write (" as " +:+ String c r) u1
  | _ => u1
  end.

(** What [traverse] does with a node that is not a list before it
    dispatches: nothing in [_Unparser]; in [Minimize], the pending
    import names are written out when the node is not an [Import].
    The aliases are traversed while [None] ends the list, so the
    nested calls dispatch at once. *)
Definition traverse_enter (is_Import : bool) (u : unparser) : unparser :=
  match cls with
  | AddSemicolon => u
  | Minimize =>
      match last (import_names u) with
      | Some (Some _) =>
          if is_Import then u
          else
            let u1 := set_import_names (fun l => l ++ [None]) u in
            let u2 := fill "import " u1 in
            let pending := omap id (import_names u2) in
            let u3 := interleave (write ",") visit_alias pending u2 in
            let u4 := write ";" u3 in
            set_import_names (fun _ => []) u4
      | _ => u
      end
  end.

(** [traverse(alias)]. *)
Definition traverse_alias (node : ast.alias) (u : unparser) : unparser :=
  visit_alias node (traverse_enter false u).

(** The test [value >= bound and (not log(value) % 1)] of
    [Minimize.visit_Constant], with the exponent [int(log(value))]:
    [Some (Some k)] when it holds, [Some None] when it does not, [None]
    when it raises. *)
Definition whole_log (func : spec_float -> spec_float) (bound value : Z)
  : option (option Z) :=
  if bound <=? value then
    match math.loghelper func value with
    | Some r =>
        if math.is_whole r
        then match math.int_of_float r with
             | Some k => Some (Some k)
             | None => None
             end
        else Some None
    | None => None
    end
  else Some None.

(** The [int] branch of [Minimize.visit_Constant].  The power node
    [BinOp(Num(b), Pow(), Num(k))] it builds has no entry in
    [_precedences], so it is traversed at [TEST]; its operands are the
    constants [b] at [POWER.next()] and [k] at [POWER], each entering
    this branch again. *)
Fixpoint Constant_int (depth : nat) (value : Z) (u : unparser) : unparser :=
  let power_node (b k : Z) (u : unparser) : unparser :=
    match depth with
    | O => raise u
    | S d =>
        require_parens POWER TEST
          (fun u =>
             let u1 := Constant_int d b (traverse_enter false u) in
             let u2 := write (binop ast.Pow) u1 in
             Constant_int d k (traverse_enter false u2))
          (traverse_enter false u)
    end in
  match whole_log log10 (10 ^ 5) value with
  | None => raise u
  | Some (Some power_10) => power_node 10 power_10 u
  | Some None =>
      match whole_log log2 (2 ^ 17) value with
      | None => raise u
      | Some (Some power_2) => power_node 2 power_2 u
      | Some None => write (Py.int_repr value) u
      end
  end.

(** [_Unparser._write_constant]. *)
Definition _write_constant (value : ast.constant) (u : unparser) : unparser :=
  match value with
  | ast.Float r =>
      write (Py.replace "nan" ("(" +:+ _INFSTR +:+ "-" +:+ _INFSTR +:+ ")")
               (Py.replace "inf" _INFSTR r)) u
  | ast.Int n => write (Py.int_repr n) u
  | ast.Bool b => write (Py.bool_repr b) u
  | ast.NoneValue => write "None" u
  | ast.Ellipsis => write "Ellipsis" u
  end.

Definition visit_Constant (value : ast.constant) (u : unparser) : unparser :=
  match cls with
  | AddSemicolon =>
      match value with
      | ast.Ellipsis => write "..." u
      | _ => _write_constant value u
      end
  | Minimize =>
      match value with
      | ast.Float r =>
          match decimal.of_str r with
          | Some d =>
              let short := Py.strip "0" (decimal.to_str d) in
              write (if String.eqb short "." then "0." else short) u
          | None => raise u
          end
      | ast.Int n => Constant_int recursion_depth n u
      | ast.Bool b =>
          (* a [bool] is an [int] below both bounds: [repr(value)] *)
          write (Py.bool_repr b) u
      | ast.Ellipsis => write "..." u
      | ast.NoneValue => _write_constant value u
      end
  end.

(** [traverse(node)] for an expression [node] whose entry in
    [_precedences] is [node_precedence]. *)
Fixpoint traverse_expr (node_precedence : _Precedence) (node : ast.expr)
    (u : unparser) {struct node} : unparser :=
  let u := traverse_enter false u in
  match node with
  | ast.Name id => (* visit_Name *) write id u
  | ast.Constant value => visit_Constant value u
  | ast.BinOp left_ op right_ =>
      (* visit_BinOp *)
      let operator := binop op in
      let operator_precedence := binop_precedence op in
      require_parens operator_precedence node_precedence
        (fun u =>
           let '(left_precedence, right_precedence) :=
             if binop_rassoc operator
             then (Precedence.next operator_precedence, operator_precedence)
             else (operator_precedence, Precedence.next operator_precedence)
           in
           let u1 := traverse_expr left_precedence left_ u in
           let u2 := write (match cls with
                            | Minimize => operator
                            | AddSemicolon => " " +:+ operator +:+ " "
                            end) u1 in
           traverse_expr right_precedence right_ u2) u
  | ast.UnaryOp op operand =>
      (* _Unparser.visit_UnaryOp, which Minimize inherits *)
      let operator := unop op in
      let operator_precedence := unop_precedence op in
      require_parens operator_precedence node_precedence
        (fun u =>
           let u1 := write operator u in
           let u2 := match operator_precedence with
                     | FACTOR => u1
                     | _ => write " " u1
                     end in
           traverse_expr operator_precedence operand u2) u
  | ast.Compare left_ ops comparators =>
      (* visit_Compare *)
      require_parens CMP node_precedence
        (fun u =>
           let u1 := traverse_expr (Precedence.next CMP) left_ u in
           (fix zip_loop (ops : list ast.cmpop) (es : list ast.expr)
                (u : unparser) {struct es} : unparser :=
              match ops, es with
              | o :: ops', e :: es' =>
                  let u1 := write (match cls with
                                   | Minimize => cmpops o
                                   | AddSemicolon =>
                                       " " +:+ cmpops_base o +:+ " "
                                   end) u in
                  zip_loop ops' es' (traverse_expr (Precedence.next CMP) e u1)
              | _, _ => u
              end) ops comparators u1) u
  end.

End Unparser.

Section Statements.

Variable cls : klass.
Variable add_semicolon_after : gset string.
Variables log10 log2 : spec_float -> spec_float.

Let write := write.
Let fill := fill cls.
Let traverse := traverse_expr cls log10 log2.

(** The wrapper [and_add] puts around a visitor: [__init__] installs it
    on [visit_<name>] for every name in [add_semicolon_after], and
    [NodeVisitor.visit] finds it on the instance. *)
Definition and_add (name : string) (func : unparser -> unparser)
    (u : unparser) : unparser :=
  if bool_decide (name ∈ add_semicolon_after)
  then write ";" (func u) else func u.

Definition visit_Import (names : list ast.alias) (u : unparser) : unparser :=
  match cls with
  | Minimize => set_import_names (fun l => l ++ map Some names) u
  | AddSemicolon =>
      interleave (write ", ") (traverse_alias cls) names (fill "import " u)
  end.

Definition visit_Assign (targets : list ast.expr) (value : ast.expr)
    (u : unparser) : unparser :=
  let eq := match cls with Minimize => "=" | AddSemicolon => " = " end in
  let u1 := fold_left (fun u target => write eq (traverse TUPLE target u))
              targets (fill "" u) in
  traverse TEST value u1.

Definition visit_Expr (value : ast.expr) (u : unparser) : unparser :=
  traverse YIELD value (fill "" u).

(** The test of [Minimize.visit_Return] for writing a space. *)
Definition return_space (value : ast.expr) : bool :=
  (match value with
   | ast.Constant ast.Ellipsis => false
   | _ => true
   end)
  && (match value with
      | ast.UnaryOp ast.Not _ => true
      | ast.UnaryOp _ _ => false
      | _ => true
      end).

Definition visit_Return (value : option ast.expr) (u : unparser) : unparser :=
  let u1 := fill "return" u in
  match value with
  | Some v =>
      let u2 := match cls with
                | Minimize => if return_space v then write " " u1 else u1
                | AddSemicolon => write " " u1
                end in
      traverse TEST v u2
  | None => u1
  end.

(** [traverse(node)] for a statement, and the [elif]/[else] tail of
    [visit_If], which walks down [orelse] without traversing the nested
    [If] nodes themselves. *)
Fixpoint traverse_stmt (node : ast.stmt) (u : unparser) {struct node}
  : unparser :=
  let traverse_list :=
    fix traverse_list (l : list ast.stmt) (u : unparser) : unparser :=
      match l with
      | [] => u
      | item :: rest => traverse_list rest (traverse_stmt item u)
      end in
  let u := traverse_enter cls
             (match node with ast.Import _ => true | _ => false end) u in
  and_add (ast.class_name node)
    (fun u =>
       match node with
       | ast.Import names => visit_Import names u
       | ast.Assign targets value => visit_Assign targets value u
       | ast.Expr value => visit_Expr value u
       | ast.Return value => visit_Return value u
       | ast.Pass => (* visit_Pass *) fill "pass" u
       | ast.If test body orelse =>
           (* _Unparser.visit_If, inherited by both classes *)
           let u1 := traverse TEST test (fill "if " u) in
           let u2 := block (traverse_list body) u1 in
           match orelse with
           | [] => u2
           | [ast.If _ _ _ as nested] => visit_If_tail nested u2
           | _ => block (traverse_list orelse) (fill "else" u2)
           end
       | ast.While test body orelse =>
           (* _Unparser.visit_While, inherited by both classes *)
           let u1 := traverse TEST test (fill "while " u) in
           let u2 := block (traverse_list body) u1 in
           match orelse with
           | [] => u2
           | _ => block (traverse_list orelse) (fill "else" u2)
           end
       end) u
with visit_If_tail (node : ast.stmt) (u : unparser) {struct node}
  : unparser :=
  let traverse_list :=
    fix traverse_list (l : list ast.stmt) (u : unparser) : unparser :=
      match l with
      | [] => u
      | item :: rest => traverse_list rest (traverse_stmt item u)
      end in
  match node with
  | ast.If test body orelse =>
      let u1 := traverse TEST test (fill "elif " u) in
      let u2 := block (traverse_list body) u1 in
      match orelse with
      | [] => u2
      | [ast.If _ _ _ as nested] => visit_If_tail nested u2
      | _ => block (traverse_list orelse) (fill "else" u2)
      end
  | _ => u
  end.

(** [traverse(node)] for a list of statements. *)
Definition traverse_body (l : list ast.stmt) (u : unparser) : unparser :=
  fold_left (fun u item => traverse_stmt item u) l u.

(** [traverse(Module)]: no statement kind of the tree is a string
    constant, so [get_raw_docstring] finds nothing and the body is
    traversed as it is. *)
Definition traverse_Module (node : ast.module) (u : unparser) : unparser :=
  let u := traverse_enter cls false u in
  match node with
  | ast.Module_ body => traverse_body body u
  end.

(** [cls().visit(node)], started with the class-level list
    [class_import_names]: the text returned ([None] when an exception
    escapes) and the class-level list left behind. *)
Definition visit (node : ast.module)
    (class_import_names : list (option ast.alias))
  : option string * list (option ast.alias) :=
  let u := traverse_Module node (mk_unparser [] 0 0 class_import_names false) in
  let text :=
    if raised u then None
    else
      match cls with
      | AddSemicolon => Some (Py.concat (_source u))
      | Minimize => PostProcess.post_process (Py.concat (_source u))
      end in
  (text, import_names u).

End Statements.

(** ** [bytes]: [str.encode] and [bytes.__repr__] *)

Module bytes.

(** [s.encode()]: UTF-8 of code points below 256. *)
Definition encode_char (c : ascii) : list byte :=
  let n := Py.ord c in
  if (n <? 128)%nat then [byte_of_ascii c]
  else
    match Byte.of_nat (192 + n / 64), Byte.of_nat (128 + n mod 64) with
    | Some hi, Some lo => [hi; lo]
    | _, _ => []
    end.

Definition encode (s : string) : list byte :=
  flat_map encode_char (list_ascii_of_string s).

Definition hex_digit (n : nat) : ascii :=
  if (n <? 10)%nat then Py.chr (48 + n) else Py.chr (87 + n).

Definition repr_byte (quote : ascii) (b : byte) : string :=
  let c := ascii_of_byte b in
  let n := Byte.to_nat b in
  if Ascii.eqb c quote || (n =? 92)%nat then String "\" (String c "")
  else if (n =? 9)%nat then "\t"
  else if (n =? 10)%nat then "\n"
  else if (n =? 13)%nat then "\r"
  else if (n <? 32)%nat || (127 <=? n)%nat then
    String "\" (String "x"
      (String (hex_digit (n / 16)) (String (hex_digit (n mod 16)) "")))
  else String c "".

(** [repr(b)]: the quote is the single quote, unless the bytes hold a
    single quote and no double quote. *)
Definition repr (b : list byte) : string :=
  let has (n : nat) := existsb (fun x => (Byte.to_nat x =? n)%nat) b in
  let quote := if has 39%nat && negb (has 34%nat) then Py.chr 34 else Py.chr 39 in
  String "b" (String quote
    (Py.concat (map (repr_byte quote) b) +:+ String quote "")).

End bytes.

(** ** [minimize] and [add_semicolons] *)

Inductive codec : Set := lzma | zlib | gzip | bz2.

(** [mod.__name__]. *)
Definition codec_name (m : codec) : string :=
  match m with
  | lzma => "lzma" | zlib => "zlib" | gzip => "gzip" | bz2 => "bz2"
  end.

(** [f"exec(__import__({name!r}).decompress({payload!r}))"]. *)
Definition stub (name : string) (payload : list byte) : string :=
  "exec(__import__('" +:+ name +:+ "').decompress(" +:+ bytes.repr payload
  +:+ "))".

(** The set an instance of the named class wraps its visitors by, once
    the package is imported. *)
Definition loaded_add_semicolon_after (cls_name : string) : gset string :=
  default ∅ (semicolon.import_minipy3 ≫= fun rt => semicolon.getattr rt cls_name).

Section EntryPoints.

(** [ast.parse]; [None] is [SyntaxError]. *)
Variable parse : string -> option ast.module.
(** [mod.compress(data)], and [lzma.compress(data, lzma.FORMAT_ALONE)]. *)
Variable compress : codec -> list byte -> list byte.
Variable compress_alone : list byte -> list byte.
Variables log10 log2 : spec_float -> spec_float.

(** [add_semicolons(raw_code)]. *)
Definition add_semicolons (raw_code : string) : option string :=
  match parse raw_code with
  | Some tree =>
      fst (visit AddSemicolon (loaded_add_semicolon_after "AddSemicolon")
             log10 log2 tree [])
  | None => None
  end.

(** The loop [for mod in (lzma, zlib, gzip, bz2)] and the [return] that
    follows it. *)
Definition shorter_stub (encoded : list byte) (codes : string) : string :=
  let codes1 :=
    fold_left
      (fun codes mod_ =>
         let _val := stub (codec_name mod_) (compress mod_ encoded) in
         if (String.length _val <? String.length codes)%nat
         then _val else codes)
      [lzma; zlib; gzip; bz2] codes in
  let _val := stub "lzma" (compress_alone encoded) in
  if (String.length _val <? String.length codes1)%nat then _val else codes1.

(** [minimize(raw_code, compress, compress_required)], started with
    the class-level list of [Minimize]: the value returned ([None] for an
    exception) and the list left behind. *)
Definition minimize (raw_code : string) (compress_ compress_required : bool)
    (class_import_names : list (option ast.alias))
  : option string * list (option ast.alias) :=
  match parse raw_code with
  | None => (None, class_import_names)
  | Some tree =>
      match visit Minimize (loaded_add_semicolon_after "Minimize")
              log10 log2 tree class_import_names with
      | (None, names) => (None, names)
      | (Some text, names) =>
          let minimized := Py.strip (Py.whitespace +:+ ";") text in
          let codes :=
            if (String.length raw_code <=? String.length minimized)%nat
            then raw_code else minimized in
          let encoded := bytes.encode minimized in
          let codes :=
            if compress_required
            then stub "lzma" (compress_alone encoded) else codes in
          let compress_ := compress_required || compress_ in
          (Some (if compress_ then shorter_stub encoded codes else codes),
           names)
      end
  end.

End EntryPoints.

(** ** Specification-side definitions *)

(** [e] unparsed on its own by a [Minimize] instance with nothing pending:
    the text, or [None] when an exception escapes. *)
Definition unparse_expr (log10 log2 : spec_float -> spec_float)
    (e : ast.expr) : option string :=
  let u := traverse_expr Minimize log10 log2 TEST e (mk_unparser [] 0 0 [] false) in
  if raised u then None else Some (Py.concat (_source u)).

(** *** Parentheses, as the specification words them

    A pure printer of expressions: operands are rendered in turn, and a
    subexpression is wrapped in parentheses exactly when the precedence of
    its operator is strictly below the minimum its position accepts. *)

(** The precedence of the operator at the root; a name or a constant has
    none and is never wrapped. *)
Definition own_precedence (e : ast.expr) : option _Precedence :=
  match e with
  | ast.BinOp _ op _ => Some (binop_precedence op)
  | ast.UnaryOp op _ => Some (unop_precedence op)
  | ast.Compare _ _ _ => Some CMP
  | _ => None
  end.

Definition parenthesized (required : _Precedence) (e : ast.expr) : bool :=
  match own_precedence e with
  | Some own => Precedence.value own <? Precedence.value required
  | None => false
  end.

(** The minimum a binary operator sets for its left and right operands:
    its own level on the side its associativity allows, the next level on
    the other. *)
Definition operand_levels (op : ast.operator) : _Precedence * _Precedence :=
  let own := binop_precedence op in
  match op with
  | ast.Pow => (Precedence.next own, own)
  | _ => (own, Precedence.next own)
  end.

(** Whether the text of [e] begins with a parenthesis of its leftmost
    operand, and whether it begins with a parenthesis at all. *)
Fixpoint body_opens (e : ast.expr) : bool :=
  match e with
  | ast.BinOp l op _ =>
      parenthesized (fst (operand_levels op)) l || body_opens l
  | ast.Compare l _ _ =>
      parenthesized (Precedence.next CMP) l || body_opens l
  | _ => false
  end.

Definition opens (required : _Precedence) (e : ast.expr) : bool :=
  parenthesized required e || body_opens e.

(** A fragment loses its trailing spaces before an opening parenthesis. *)
Definition spaced (text : string) (before_paren : bool) : string :=
  if before_paren then Py.rstrip " " text else text.

(** The one fragment written for a constant, when it is written as one:
    an integer that is not rewritten as a power, a float whose text
    [Decimal] accepts, or a singleton. *)
Definition constant_token (log10 log2 : spec_float -> spec_float)
    (v : ast.constant) : option string :=
  match v with
  | ast.Int n =>
      match whole_log log10 (10 ^ 5) n, whole_log log2 (2 ^ 17) n with
      | Some None, Some None => Some (Py.int_repr n)
      | _, _ => None
      end
  | ast.Bool b => Some (Py.bool_repr b)
  | ast.NoneValue => Some "None"
  | ast.Ellipsis => Some "..."
  | ast.Float r =>
      match decimal.of_str r with
      | Some d =>
          let short := Py.strip "0" (decimal.to_str d) in
          Some (if String.eqb short "." then "0." else short)
      | None => None
      end
  end.

(** Every constant of [e] is written as one fragment. *)
Fixpoint plain_constants (log10 log2 : spec_float -> spec_float)
    (e : ast.expr) : bool :=
  match e with
  | ast.Name _ => true
  | ast.Constant v =>
      match constant_token log10 log2 v with Some _ => true | None => false end
  | ast.BinOp l _ r =>
      plain_constants log10 log2 l && plain_constants log10 log2 r
  | ast.UnaryOp _ x => plain_constants log10 log2 x
  | ast.Compare l _ cs =>
      plain_constants log10 log2 l
      && (fix all (cs : list ast.expr) : bool :=
            match cs with
            | [] => true
            | c :: cs' => plain_constants log10 log2 c && all cs'
            end) cs
  end.

Definition wrap (required : _Precedence) (e : ast.expr) (body : list string)
  : list string :=
  if parenthesized required e then "(" :: body ++ [")"] else body.

(** The fragments of [e] without parentheses of its own. *)
Fixpoint expr_body (log10 log2 : spec_float -> spec_float) (e : ast.expr)
  : list string :=
  match e with
  | ast.Name id => [id]
  | ast.Constant v => [default "" (constant_token log10 log2 v)]
  | ast.BinOp l op r =>
      let '(lp, rp) := operand_levels op in
      wrap lp l (expr_body log10 log2 l) ++ [binop op]
      ++ wrap rp r (expr_body log10 log2 r)
  | ast.UnaryOp op x =>
      let p := unop_precedence op in
      [unop op]
      ++ match p with
         | FACTOR => []
         | _ => [spaced " " (opens p x)]
         end
      ++ wrap p x (expr_body log10 log2 x)
  | ast.Compare l ops cs =>
      let p := Precedence.next CMP in
      wrap p l (expr_body log10 log2 l)
      ++ (fix tail (ops : list ast.cmpop) (cs : list ast.expr) {struct cs}
            : list string :=
            match ops, cs with
            | o :: ops', c :: cs' =>
                [spaced (cmpops o) (opens p c)]
                ++ wrap p c (expr_body log10 log2 c) ++ tail ops' cs'
            | _, _ => []
            end) ops cs
  end.

(** The fragments of [e] at a position whose minimum is [required]. *)
Definition expr_fragments (log10 log2 : spec_float -> spec_float)
    (required : _Precedence) (e : ast.expr) : list string :=
  wrap required e (expr_body log10 log2 e).

(** No import name waits in the buffer to be written out. *)
Definition no_pending (u : unparser) : Prop :=
  match last (import_names u) with
  | Some (Some _) => False
  | _ => True
  end.

(** A state after fragments are appended, and after an expression that
    may begin with a parenthesis is written. *)
Definition appended (frags : list string) (u : unparser) : unparser :=
  set_source (fun src => src ++ frags) u.

Definition emitted (paren_first : bool) (frags : list string) (u : unparser)
  : unparser :=
  set_source
    (fun src => (if paren_first then rstrip_last src else src) ++ frags) u.

(** The candidates [minimize] weighs, in the order it produces them. *)
Definition candidates (compress : codec -> list byte -> list byte)
    (compress_alone : list byte -> list byte) (raw_code minimized : string)
  : list string :=
  let encoded := bytes.encode minimized in
  [raw_code; minimized] ++
  map (fun m => stub (codec_name m) (compress m encoded)) [lzma; zlib; gzip; bz2]
  ++ [stub "lzma" (compress_alone encoded)].

(** The stubs alone, in the order forced compression produces them. *)
Definition forced_candidates (compress : codec -> list byte -> list byte)
    (compress_alone : list byte -> list byte) (minimized : string)
  : list string :=
  let encoded := bytes.encode minimized in
  stub "lzma" (compress_alone encoded) ::
  map (fun m => stub (codec_name m) (compress m encoded)) [lzma; zlib; gzip; bz2].

(** [out] is the first of the shortest strings of [l]. *)
Definition first_shortest (out : string) (l : list string) : Prop :=
  exists i : nat,
    l !! i = Some out
    /\ (forall c, In c l -> (String.length out <= String.length c)%nat)
    /\ (forall j c, (j < i)%nat -> l !! j = Some c ->
                    (String.length out < String.length c)%nat).

(** One comparison of [minimize]: the candidate replaces the current
    choice only when it is strictly shorter. *)
Definition pick (best c : string) : string :=
  if (String.length c <? String.length best)%nat then c else best.

(** The test of the compaction loop for header [i], read on the line
    buffer the loop starts from: splice unless the header is not the
    second-to-last line and either its indentation is not below that of the
    line after it or is below that of the line after that one. *)
Definition merges (lines : list string) (i : nat) : bool :=
  let indent_at j := _get_indent (default "" (lines !! j)) in
  (S (S i) =? length lines)%nat
  || ((indent_at i <? indent_at (i + 1))%nat
      && negb (indent_at i <? indent_at (i + 2))%nat).

(** The last line of the buffer is no header, so that every header has a
    line after it. *)
Definition headers_followed (lines : list string) : Prop :=
  Py.endswith_char ":" (default "" (last lines)) = false.

(** The length of [s.encode()]. *)
Definition utf8_length (s : string) : nat := length (bytes.encode s).

(** ** Sample inputs *)

Module Sample.

Definition os : ast.alias := ast.mk_alias "os" None.

Definition if_assign_source : string :=
  "if True:" +:+ Py.NL +:+ "    x = 1" +:+ Py.NL +:+ "    y = 2" +:+ Py.NL.

Definition if_assign_tree : ast.module :=
  ast.Module_
    [ast.If (ast.Constant (ast.Bool true))
       [ast.Assign [ast.Name "x"] (ast.Constant (ast.Int 1));
        ast.Assign [ast.Name "y"] (ast.Constant (ast.Int 2))] []].

Definition if_return_source : string :=
  "if True:" +:+ Py.NL +:+ "    return ..." +:+ Py.NL.

Definition if_return_tree : ast.module :=
  ast.Module_
    [ast.If (ast.Constant (ast.Bool true))
       [ast.Return (Some (ast.Constant ast.Ellipsis))] []].

Definition import_source : string := "import os".
Definition import_tree : ast.module := ast.Module_ [ast.Import [os]].

Definition assign_source : string := "x = 1".
Definition assign_tree : ast.module :=
  ast.Module_ [ast.Assign [ast.Name "x"] (ast.Constant (ast.Int 1))].

(** An assignment to a name of forty letters U+00E9. *)
Definition accented_name : string := Py.repeat_char (Py.chr 233) 40.
Definition accented_source : string := accented_name +:+ "=1".
Definition accented_tree : ast.module :=
  ast.Module_ [ast.Assign [ast.Name accented_name] (ast.Constant (ast.Int 1))].

(** What [ast.parse] returns for the texts above. *)
Definition parse (raw_code : string) : option ast.module :=
  snd <$> find (fun p => String.eqb (fst p) raw_code)
    [(if_assign_source, if_assign_tree); (if_return_source, if_return_tree);
     (import_source, import_tree); (assign_source, assign_tree);
     (accented_source, accented_tree)].

(** What CPython 3.11 returns for [accented_source.encode()] from
    [lzma.compress], [zlib.compress], [gzip.compress] (whose header holds
    the time of the call) and [bz2.compress], and from [lzma.compress]
    with [FORMAT_ALONE]. *)
Definition lzma_bytes : list byte :=
  [xfd; x37; x7a; x58; x5a; x00; x00; x04; xe6; xd6; xb4; x46; x02; x00;
  x21; x01; x16; x00; x00; x00; x74; x2f; xe5; xa3; xe0; x00; x51; x00;
  x0a; x5d; x00; x61; xaa; x68; xf0; x11; xe8; xc4; x00; x00; x00; x00;
  x00; x00; x5b; x80; x6b; x3c; xf0; xe5; xe6; x32; x00; x01; x26; x52;
  xd7; x06; x3d; x66; x1f; xb6; xf3; x7d; x01; x00; x00; x00; x00; x04;
  x59; x5a].

Definition zlib_bytes : list byte :=
  [x78; x9c; x3b; xbc; xf2; x30; x55; xa1; xad; x21; x00; x74; xbc; x39;
  x4f].

Definition gzip_bytes : list byte :=
  [x1f; x8b; x08; x00; xc2; xfc; xe9; x6a; x02; xff; x3b; xbc; xf2; x30;
  x55; xa1; xad; x21; x00; x5f; xb2; x28; xab; x52; x00; x00; x00].

Definition bz2_bytes : list byte :=
  [x42; x5a; x68; x39; x31; x41; x59; x26; x53; x59; x11; x53; xcb; xd9;
  x00; x00; x28; x88; x14; x20; x02; x00; x20; x08; x00; x20; x00; x30;
  xcd; x34; x11; x04; xb8; x04; x8a; x86; xe2; xee; x48; xa7; x0a; x12;
  x02; x2a; x79; x7b; x20].

Definition alone_bytes : list byte :=
  [x5d; x00; x00; x80; x00; xff; xff; xff; xff; xff; xff; xff; xff; x00;
  x61; xaa; x68; xf0; x11; xe8; xc6; x0f; x7f; xff; xff; xff; x08; x00;
  x00; x00].

(** The codecs on the sample; data other than the sample is passed
    through, and is not used. *)
Definition is_sample (data : list byte) : bool :=
  bool_decide (map Byte.to_nat data
               = map Byte.to_nat (bytes.encode accented_source)).

Definition compress (m : codec) (data : list byte) : list byte :=
  if is_sample data then
    match m with
    | lzma => lzma_bytes | zlib => zlib_bytes | gzip => gzip_bytes
    | bz2 => bz2_bytes
    end
  else data.

Definition compress_alone (data : list byte) : list byte :=
  if is_sample data then alone_bytes else data.

End Sample.

(** ** Definitions for the further properties *)

(** The fragments [visit_alias] writes, and the text they make up. *)
Definition alias_fragments (a : ast.alias) : list string :=
  ast.name a ::
  match ast.asname a with
  | Some (String c r) => [" as " +:+ String c r]
  | _ => []
  end.

Definition alias_text (a : ast.alias) : string := Py.concat (alias_fragments a).

(** The fragments of a list of aliases written with [,] between them. *)
Definition import_list_fragments (names : list ast.alias) : list string :=
  match names with
  | [] => []
  | a :: rest =>
      alias_fragments a ++ flat_map (fun b => "," :: alias_fragments b) rest
  end.

(** The lines of [lines] whose index, counted from [start], is not in
    [to_del]. *)
Fixpoint unmarked (to_del : list nat) (start : nat) (lines : list string)
  : list string :=
  match lines with
  | [] => []
  | l :: rest =>
      if bool_decide (start ∈ to_del) then unmarked to_del (S start) rest
      else l :: unmarked to_del (S start) rest
  end.

(** Line [i] is a header onto which the line after it is spliced. *)
Definition spliced_onto (lines : list string) (i : nat) : bool :=
  Py.endswith_char ":" (default "" (lines !! i)) && merges lines i.

(** Line [i] once the compaction loop is over. *)
Definition compacted_line (lines : list string) (i : nat) : string :=
  let line := default "" (lines !! i) in
  if spliced_onto lines i
  then line +:+ Py.strip_ws (default "" (lines !! (i + 1)%nat))
  else line.

(** The buffer [post_process] joins: a line that was spliced onto the
    header before it is dropped, the others are kept as the loop left
    them. *)
Definition compacted (lines : list string) : list string :=
  flat_map
    (fun i =>
       if match i with O => false | S j => spliced_onto lines j end
       then [] else [compacted_line lines i])
    (seq 0 (length lines)).

(** A module body that defines subclasses one after the other: each
    entry is the name of the class, the name of its base and the
    [ignore] keyword, if given. *)
Fixpoint define_subclasses
    (defs : list (string * string * option (gset string)))
    (rt : semicolon.runtime) : option semicolon.runtime :=
  match defs with
  | [] => Some rt
  | (name, base_name, ignore) :: rest =>
      match semicolon.define_subclass name base_name ignore rt with
      | Some rt' => define_subclasses rest rt'
      | None => None
      end
  end.

(** Every base is a class defined earlier ([known] at the start), and no
    class is its own base. *)
Fixpoint bases_defined (known : list string)
    (defs : list (string * string * option (gset string))) : Prop :=
  match defs with
  | [] => True
  | (name, base_name, _) :: rest =>
      In base_name known /\ name <> base_name
      /\ bases_defined (name :: known) rest
  end.

(** A character of a decimal text without sign or exponent. *)
Definition point_or_digit (c : ascii) : bool :=
  decimal.is_digit c || Ascii.eqb c ".".

(** Two finite decimals of one sign denote the same number: the
    coefficients agree once both are scaled to the lower exponent. *)
Definition same_value (a b : decimal.Decimal) : Prop :=
  match a, b with
  | decimal.Finite s1 n1 e1, decimal.Finite s2 n2 e2 =>
      s1 = s2
      /\ decimal.int_of_digits n1 * 10 ^ (e1 - Z.min e1 e2)
         = decimal.int_of_digits n2 * 10 ^ (e2 - Z.min e1 e2)
  | _, _ => False
  end.

(** ** [__main__.py]: [minimizer]

    The files are texts by path ([disk]): a path names one file, every
    file holds text that decodes, and every path can be opened for
    writing.  What the loop prints is kept as the data of each line. *)

Module cli.

(** [f.read()] on a file opened in text mode: with the default
    [newline=None], the line ends [\r\n] and [\r] are read as [\n]. *)
Fixpoint read_text (content : string) : string :=
  match content with
  | EmptyString => EmptyString
  | String c r =>
      if (Py.ord c =? 13)%nat then
        String (Py.chr 10)
          match r with
          | String d r' =>
              if (Py.ord d =? 10)%nat then read_text r' else read_text r
          | EmptyString => EmptyString
          end
      else String c (read_text r)
  end.

(** A line of the standard output: [Empty input file.], or the report
    of one file with [len(compressed)] and [len(raw)], from which the
    level is computed. *)
Inductive line : Type :=
  | Empty_input_file
  | Compressing_level (inp out : string) (compressed raw : nat).

Inductive exception : Type :=
  | FileNotFoundError (path : string)
  | Raised_by_mod.

(** The state of a run: the files, the state [mod] keeps between calls
    (for [minimize], the class-level list of import names), the lines
    printed, and the exception that ended the run, if any. *)
Record process (S : Type) : Type := mk_process {
  disk : gmap string string;
  mod_state : S;
  stdout : list line;
  raised_exception : option exception
}.

Arguments mk_process {S}.
Arguments disk {S}.
Arguments mod_state {S}.
Arguments stdout {S}.
Arguments raised_exception {S}.

Section Minimizer.

Context {S : Type}.
(** [mod(raw, compress)]; [None] is an exception. *)
Variable mod_ : string -> bool -> S -> option string * S.

(** [minimizer(mod, inpout, compress)] over a list of pairs.  The
    output file is opened, which empties it, before [mod] is called. *)
Fixpoint minimizer (inpout : list (string * string)) (compress : bool)
    (p : process S) : process S :=
  match inpout with
  | [] => p
  | (inp, out) :: rest =>
      match disk p !! inp with
      | None =>
          mk_process (disk p) (mod_state p) (stdout p)
            (Some (FileNotFoundError inp))
      | Some content =>
          match read_text content with
          | EmptyString =>
              minimizer rest compress
                (mk_process (disk p) (mod_state p)
                   (stdout p ++ [Empty_input_file]) (raised_exception p))
          | raw =>
              let opened := <[out := ""]> (disk p) in
              match mod_ raw compress (mod_state p) with
              | (Some compressed, s) =>
                  minimizer rest compress
                    (mk_process (<[out := compressed]> opened) s
                       (stdout p
                        ++ [Compressing_level inp out
                              (String.length compressed) (String.length raw)])
                       (raised_exception p))
              | (None, s) =>
                  mk_process opened s (stdout p) (Some Raised_by_mod)
              end
          end
      end
  end.

End Minimizer.

(** [mod = minimize], as [main] sets it: [minimizer] calls it with two
    arguments, so compression is never forced. *)
Definition minimize_mod (parse : string -> option ast.module)
    (compress : codec -> list byte -> list byte)
    (compress_alone : list byte -> list byte)
    (log10 log2 : spec_float -> spec_float)
    (raw : string) (compress_ : bool) (names : list (option ast.alias))
  : option string * list (option ast.alias) :=
  minimize parse compress compress_alone log10 log2 raw compress_ false names.

End cli.

(** *** Simple statements, as [Minimize] writes them *)

(** A statement that is neither an import nor a compound statement. *)
Definition simple (s : ast.stmt) : bool :=
  match s with
  | ast.Assign _ _ | ast.Expr _ | ast.Return _ | ast.Pass => true
  | _ => false
  end.

(** Every constant of the statement is written as one fragment. *)
Definition stmt_plain (log10 log2 : spec_float -> spec_float) (s : ast.stmt)
  : bool :=
  match s with
  | ast.Assign targets value =>
      forallb (plain_constants log10 log2) targets
      && plain_constants log10 log2 value
  | ast.Expr value => plain_constants log10 log2 value
  | ast.Return (Some value) => plain_constants log10 log2 value
  | _ => true
  end.

(** The fragments of a simple statement, without the [;] after it. *)
Definition simple_stmt_fragments (log10 log2 : spec_float -> spec_float)
    (s : ast.stmt) : list string :=
  match s with
  | ast.Assign targets value =>
      "" :: flat_map (fun t => expr_fragments log10 log2 TUPLE t ++ ["="])
              targets
      ++ expr_fragments log10 log2 TEST value
  | ast.Expr value => "" :: expr_fragments log10 log2 YIELD value
  | ast.Return (Some value) =>
      "return"
      :: (if return_space value then [spaced " " (opens TEST value)] else [])
      ++ expr_fragments log10 log2 TEST value
  | ast.Return None => ["return"]
  | ast.Pass => ["pass"]
  | _ => []
  end.

(** The test of [Minimize.fill] apart from the block keywords: the
    depth has changed since the last line was started, or a colon was
    just written. *)
Definition starts_line (u : unparser) : bool :=
  negb (_indent u =? _indent_mem u)%nat || source_ends_with_colon u.

(** What [Minimize.fill] does before its text when it starts a line. *)
Definition line_start (u : unparser) : unparser :=
  let u1 := maybe_newline u in
  let u2 := set_indent_mem (_indent u1) u1 in
  write (Py.repeat_char " " (_indent u2)) u2.

(** No character of the text is a line boundary. *)
Definition one_line (text : string) : bool :=
  forallb (fun c => negb (Py.is_linebreak c)) (list_ascii_of_string text).

(** A step of the printer that leaves the nesting depth as it found
    it. *)
Definition keeps_indent (f : unparser -> unparser) : Prop :=
  forall u, _indent (f u) = _indent u.
(** *** The two printers of [semicolon.py], fragment by fragment *)

(** The fragments other than [;]. *)
Definition without_semicolons (src : list string) : list string :=
  List.filter (fun t => negb (String.eqb t ";")) src.

(** Two states that differ by [;] fragments at most: the same fragments
    otherwise, both empty or neither, and the same depth. *)
Definition same_but_semicolons (u1 u2 : unparser) : Prop :=
  without_semicolons (_source u1) = without_semicolons (_source u2)
  /\ (_source u1 = [] <-> _source u2 = [])
  /\ _indent u1 = _indent u2.

(** Two steps that keep such states so, the first never emptying the
    output; and two that do so and always write something. *)
Definition additive (f g : unparser -> unparser) : Prop :=
  forall u1 u2,
    same_but_semicolons u1 u2 ->
    same_but_semicolons (f u1) (g u2)
    /\ (_source u1 <> [] -> _source (f u1) <> []).

Definition additive_writer (f g : unparser -> unparser) : Prop :=
  forall u1 u2,
    same_but_semicolons u1 u2 ->
    same_but_semicolons (f u1) (g u2) /\ _source (f u1) <> [].

(** * Properties *)

(** ** Lengths of strings and stubs *)

Lemma length_append (a b : string) :
  String.length (a +:+ b) = (String.length a + String.length b)%nat.
Proof.
  induction a as [|c a IH]; simpl; [reflexivity|].
  now rewrite IH.
Qed.

Lemma repr_length_ge (b : list byte) : (3 <= String.length (bytes.repr b))%nat.
Proof.
  unfold bytes.repr. cbn [String.length].
  rewrite length_append. cbn [String.length]. lia.
Qed.

Lemma codec_name_length (m : codec) : (3 <= String.length (codec_name m))%nat.
Proof. destruct m; cbn; lia. Qed.

Lemma stub_length (name : string) (payload : list byte) :
  String.length (stub name payload)
  = (33 + String.length name + String.length (bytes.repr payload))%nat.
Proof.
  unfold stub. rewrite !length_append. cbn [String.length]. lia.
Qed.

(** A text of fewer than 39 characters is shorter than every stub. *)
Lemma shorter_stub_short compress compress_alone encoded codes :
  (String.length codes < 39)%nat ->
  shorter_stub compress compress_alone encoded codes = codes.
Proof.
  intros Hlen. unfold shorter_stub. cbn [fold_left].
  repeat match goal with
  | |- context [(String.length (stub ?n ?p) <? String.length codes)%nat] =>
      let H := fresh in
      assert (H : (String.length (stub n p) <? String.length codes)%nat = false);
      [ apply Nat.ltb_ge; rewrite stub_length;
        pose proof (repr_length_ge p);
        first [ pose proof (codec_name_length lzma); cbn in *; lia ]
      | rewrite H; clear H ]
  end.
  reflexivity.
Qed.

(** ** The two worked examples of [minimize] *)

Lemma visit_if_assign log10 log2 :
  visit Minimize (loaded_add_semicolon_after "Minimize") log10 log2
    Sample.if_assign_tree [] = (Some "if True:x=1;y=2", []).
Proof. vm_compute. reflexivity. Qed.

Lemma visit_if_return log10 log2 :
  visit Minimize (loaded_add_semicolon_after "Minimize") log10 log2
    Sample.if_return_tree [] = (Some "if True:return...", []).
Proof. vm_compute. reflexivity. Qed.

(** C8.  With the package freshly imported, [minimize] returns
    [if True:x=1;y=2] for the first example text and [if True:return...]
    for the second, whatever the compression flag and whatever the codecs
    produce, forced compression aside. *)
Theorem minimize_worked_examples
    (parse : string -> option ast.module)
    (compress : codec -> list byte -> list byte)
    (compress_alone : list byte -> list byte)
    (log10 log2 : spec_float -> spec_float) (compress_ : bool) :
  parse Sample.if_assign_source = Some Sample.if_assign_tree ->
  parse Sample.if_return_source = Some Sample.if_return_tree ->
  fst (minimize parse compress compress_alone log10 log2
         Sample.if_assign_source compress_ false [])
    = Some "if True:x=1;y=2"
  /\ fst (minimize parse compress compress_alone log10 log2
            Sample.if_return_source compress_ false [])
     = Some "if True:return...".
Proof.
  intros H1 H2. unfold minimize.
  rewrite H1, H2, visit_if_assign, visit_if_return.
  cbn [fst orb].
  split.
  - replace (Py.strip _ "if True:x=1;y=2") with "if True:x=1;y=2"
      by (vm_compute; reflexivity).
    replace (String.length Sample.if_assign_source <=? _)%nat with false
      by (vm_compute; reflexivity).
    destruct compress_; [|reflexivity].
    rewrite shorter_stub_short; [reflexivity | cbn; lia].
  - replace (Py.strip _ "if True:return...") with "if True:return..."
      by (vm_compute; reflexivity).
    replace (String.length Sample.if_return_source <=? _)%nat with false
      by (vm_compute; reflexivity).
    destruct compress_; [|reflexivity].
    rewrite shorter_stub_short; [reflexivity | cbn; lia].
Qed.

Lemma minimize_worked_examples_witness :
  fst (minimize Sample.parse Sample.compress Sample.compress_alone
         (math.log_ref 10) (math.log_ref 2) Sample.if_assign_source true false [])
    = Some "if True:x=1;y=2"
  /\ fst (minimize Sample.parse Sample.compress Sample.compress_alone
            (math.log_ref 10) (math.log_ref 2) Sample.if_return_source true false [])
     = Some "if True:return...".
Proof.
  apply (minimize_worked_examples Sample.parse Sample.compress
           Sample.compress_alone (math.log_ref 10) (math.log_ref 2) true);
    vm_compute; reflexivity.
Defined.

(** ** Import statements at the end of a traversal *)

(** Decides a closed membership test of the goal by computation. *)
Ltac eval_membership :=
  match goal with
  | |- context [@bool_decide ?P ?d] =>
      let b := eval vm_compute in (@bool_decide P d) in
      replace (@bool_decide P d) with b by (vm_compute; reflexivity)
  end.

Lemma traverse_stmt_Import log10 log2 names u :
  traverse_stmt Minimize (loaded_add_semicolon_after "Minimize") log10 log2
    (ast.Import names) u
  = set_import_names (fun l => l ++ map Some names) u.
Proof.
  cbn [traverse_stmt]. unfold and_add, traverse_enter, ast.class_name.
  eval_membership.
  destruct (last (import_names u)) as [[a|]|]; reflexivity.
Qed.

Lemma traverse_body_Imports log10 log2 imports u :
  traverse_body Minimize (loaded_add_semicolon_after "Minimize") log10 log2
    (map ast.Import imports) u
  = set_import_names (fun l => l ++ map Some (List.concat imports)) u.
Proof.
  unfold traverse_body. revert u.
  induction imports as [|names rest IH]; intros u; cbn [map fold_left List.concat].
  - destruct u; unfold set_import_names; cbn. now rewrite app_nil_r.
  - rewrite traverse_stmt_Import, IH.
    destruct u; unfold set_import_names; cbn.
    now rewrite map_app, app_assoc.
Qed.

(** C1.  A module that consists of import statements only is rendered as
    the empty text: every name it binds is left in the buffer, and none
    reaches the output.  More generally, whatever comes before it, the
    names of an import statement that ends a module are still in the
    buffer when the render pass returns. *)
Theorem trailing_imports_not_flushed
    (log10 log2 : spec_float -> spec_float) :
  (forall imports : list (list ast.alias),
      visit Minimize (loaded_add_semicolon_after "Minimize") log10 log2
        (ast.Module_ (map ast.Import imports)) []
      = (Some "", map Some (List.concat imports)))
  /\ (forall (body : list ast.stmt) (names : list ast.alias)
             (class_import_names : list (option ast.alias)),
         exists pending,
           snd (visit Minimize (loaded_add_semicolon_after "Minimize")
                  log10 log2 (ast.Module_ (body ++ [ast.Import names]))
                  class_import_names)
           = pending ++ map Some names).
Proof.
  split.
  - intros imports. unfold visit, traverse_Module.
    replace (traverse_enter Minimize false (mk_unparser [] 0 0 [] false))
      with (mk_unparser [] 0 0 [] false) by reflexivity.
    rewrite traverse_body_Imports. reflexivity.
  - intros body names class_import_names.
    unfold visit, traverse_Module, traverse_body. cbn [snd].
    rewrite fold_left_app. cbn [fold_left].
    rewrite traverse_stmt_Import. cbn [import_names set_import_names].
    now eexists.
Qed.

(** C5.  After a render pass over [import os], which ends with the name in
    the buffer, a second pass over [x = 1] starts from that buffer and
    writes the name into its own output; started from an empty buffer, the
    same pass returns [x=1]. *)
Theorem import_buffer_crosses_passes (log10 log2 : spec_float -> spec_float) :
  let pass := visit Minimize (loaded_add_semicolon_after "Minimize") log10 log2 in
  pass Sample.import_tree [] = (Some "", [Some Sample.os])
  /\ pass Sample.assign_tree (snd (pass Sample.import_tree []))
     = (Some "import os;x=1", [])
  /\ pass Sample.assign_tree [] = (Some "x=1", []).
Proof. repeat split; vm_compute; reflexivity. Qed.

(** ** Integer constants *)

Lemma loghelper_collision (func : spec_float -> spec_float) :
  math.loghelper func (10 ^ 16 + 1) = math.loghelper func (10 ^ 16).
Proof.
  unfold math.loghelper.
  replace (10 ^ 16 + 1 <=? 0) with false by (vm_compute; reflexivity).
  replace (10 ^ 16 <=? 0) with false by (vm_compute; reflexivity).
  replace (math.PyLong_AsDouble (10 ^ 16 + 1))
    with (math.PyLong_AsDouble (10 ^ 16)) by (vm_compute; reflexivity).
  reflexivity.
Qed.

Lemma whole_log_collision (func : spec_float -> spec_float) (bound : Z) :
  bound <= 10 ^ 16 ->
  whole_log func bound (10 ^ 16 + 1) = whole_log func bound (10 ^ 16).
Proof.
  intros Hb. unfold whole_log.
  rewrite loghelper_collision.
  replace (bound <=? 10 ^ 16 + 1) with true by (symmetry; apply Z.leb_le; lia).
  replace (bound <=? 10 ^ 16) with true by (symmetry; apply Z.leb_le; lia).
  reflexivity.
Qed.

(** At every depth, [10**16 + 1] is written as [10**16] is, unless
    [10**16] is written out in digits. *)
Lemma Constant_int_collision log10 log2 depth u :
  Constant_int Minimize log10 log2 depth (10 ^ 16 + 1) u
  = Constant_int Minimize log10 log2 depth (10 ^ 16) u
  \/ Constant_int Minimize log10 log2 depth (10 ^ 16) u
     = write (Py.int_repr (10 ^ 16)) u.
Proof.
  destruct depth as [|d]; cbn [Constant_int];
    rewrite !whole_log_collision by (vm_compute; discriminate);
    destruct (whole_log log10 (10 ^ 5) (10 ^ 16)) as [[k|]|]; auto;
    destruct (whole_log log2 (2 ^ 17) (10 ^ 16)) as [[k|]|]; auto.
Qed.

(** C3.  Whenever the constant [10**16] is rewritten to the text [10**16],
    so is the constant [10**16 + 1], which is no power of ten: both
    convert to the same double, so libm cannot tell them apart. *)
Theorem power_rewrite_not_exact (log10 log2 : spec_float -> spec_float) :
  unparse_expr log10 log2 (ast.Constant (ast.Int (10 ^ 16))) = Some "10**16" ->
  unparse_expr log10 log2 (ast.Constant (ast.Int (10 ^ 16 + 1))) = Some "10**16".
Proof.
  unfold unparse_expr. cbn [traverse_expr].
  replace (traverse_enter Minimize false (mk_unparser [] 0 0 [] false))
    with (mk_unparser [] 0 0 [] false) by reflexivity.
  unfold visit_Constant.
  destruct (Constant_int_collision log10 log2 recursion_depth
              (mk_unparser [] 0 0 [] false)) as [-> | ->]; [auto|].
  intros H. vm_compute in H. discriminate.
Qed.

Lemma power_rewrite_not_exact_witness :
  unparse_expr (math.log_ref 10) (math.log_ref 2)
    (ast.Constant (ast.Int (10 ^ 16 + 1))) = Some "10**16".
Proof.
  apply (power_rewrite_not_exact (math.log_ref 10) (math.log_ref 2)).
  vm_compute. reflexivity.
Defined.

(** ** [add_semicolon_after] across classes *)

Lemma import_semicolon_unfold :
  semicolon.import_semicolon
  = semicolon.mk_runtime
      {[ "AddSemicolon" := semicolon.mk_class None (Some 0%nat) ]}
      {[ 0%nat := semicolon.add_semicolon_after_literal ]}.
Proof. reflexivity. Qed.

(** Defining any subclass of [AddSemicolon] with [ignore] leaves both
    classes naming one set, the literal updated by [ignore]. *)
Lemma define_subclass_shares (name : string) (ignore : gset string) :
  name <> "AddSemicolon" ->
  exists rt,
    semicolon.define_subclass name "AddSemicolon" (Some ignore)
      semicolon.import_semicolon = Some rt
    /\ semicolon.getattr rt "AddSemicolon"
       = Some (semicolon.set_xor semicolon.add_semicolon_after_literal ignore)
    /\ semicolon.getattr rt name
       = Some (semicolon.set_xor semicolon.add_semicolon_after_literal ignore).
Proof.
  intros Hne. rewrite import_semicolon_unfold.
  unfold semicolon.define_subclass, semicolon.__init_subclass__.
  cbn [semicolon.classes semicolon.heap default].
  set (c0 := semicolon.mk_class None (Some 0%nat)).
  set (c1 := semicolon.mk_class (Some "AddSemicolon") None).
  assert (Hsz : size (<[name := c1]> ({["AddSemicolon" := c0]} : gmap string _)) = 2%nat).
  { rewrite map_size_insert_None by (apply lookup_singleton_ne; congruence).
    now rewrite map_size_singleton. }
  rewrite Hsz. cbn [semicolon.getattr_ref semicolon.classes].
  rewrite lookup_insert_eq. cbn [semicolon.own_add_semicolon_after semicolon.base c1].
  rewrite lookup_insert_ne by congruence.
  rewrite lookup_singleton_eq. cbn [semicolon.own_add_semicolon_after c0].
  rewrite lookup_singleton_eq.
  eexists. split; [reflexivity|].
  unfold semicolon.getattr. cbn [semicolon.classes semicolon.heap].
  split.
  - cbn [semicolon.getattr_ref semicolon.classes].
    rewrite !lookup_insert_ne by congruence.
    rewrite lookup_singleton_eq. cbn [semicolon.own_add_semicolon_after c0].
    apply lookup_insert_eq.
  - cbn [semicolon.getattr_ref semicolon.classes].
    rewrite lookup_insert_eq. cbn [semicolon.own_add_semicolon_after].
    apply lookup_insert_eq.
Qed.

(** C10.  Defining a subclass of [AddSemicolon] with an [ignore] set
    updates in place the one set both classes name.  With the package
    imported, where the subclass is [Minimize] and the set [{'Import'}], an
    [AddSemicolon] instance visits an [Import] exactly as [_Unparser]
    does, with no [;] after it (an instance wrapping by the literal would
    write one), and [add_semicolons] returns [import os] unchanged. *)
Theorem ignore_set_updates_base_class (name : string) (ignore : gset string) :
  name <> "AddSemicolon" ->
  (exists rt,
      semicolon.define_subclass name "AddSemicolon" (Some ignore)
        semicolon.import_semicolon = Some rt
      /\ semicolon.getattr rt "AddSemicolon"
         = Some (semicolon.set_xor semicolon.add_semicolon_after_literal ignore)
      /\ semicolon.getattr rt name
         = Some (semicolon.set_xor semicolon.add_semicolon_after_literal ignore))
  /\ loaded_add_semicolon_after "AddSemicolon"
     = semicolon.set_xor semicolon.add_semicolon_after_literal {[ "Import" ]}
  /\ ("Import" ∉ loaded_add_semicolon_after "AddSemicolon")
  /\ (forall log10 log2 names u,
         traverse_stmt AddSemicolon (loaded_add_semicolon_after "AddSemicolon")
           log10 log2 (ast.Import names) u
         = visit_Import AddSemicolon names u)
  /\ (forall log10 log2 names u,
         traverse_stmt AddSemicolon semicolon.add_semicolon_after_literal
           log10 log2 (ast.Import names) u
         = write ";" (visit_Import AddSemicolon names u))
  /\ (forall log10 log2,
         add_semicolons Sample.parse log10 log2 Sample.import_source
         = Some "import os").
Proof.
  intros Hne. split; [now apply define_subclass_shares|].
  assert (Hloaded : loaded_add_semicolon_after "AddSemicolon"
            = semicolon.set_xor semicolon.add_semicolon_after_literal {[ "Import" ]}).
  { unfold loaded_add_semicolon_after, semicolon.import_minipy3.
    destruct (define_subclass_shares "Minimize" {[ "Import" ]})
      as (rt & -> & Hbase & _); [discriminate|].
    cbn. now rewrite Hbase. }
  split; [exact Hloaded|].
  split.
  { rewrite Hloaded.
    apply (bool_decide_unpack
             ("Import" ∉ semicolon.set_xor semicolon.add_semicolon_after_literal
                           {[ "Import" ]})).
    vm_compute. exact I. }
  split; [|split].
  - intros. cbn [traverse_stmt]. unfold and_add, traverse_enter, ast.class_name.
    eval_membership. reflexivity.
  - intros. cbn [traverse_stmt]. unfold and_add, traverse_enter, ast.class_name.
    eval_membership. reflexivity.
  - intros. vm_compute. reflexivity.
Qed.

Lemma ignore_set_updates_base_class_witness :
  exists rt,
    semicolon.define_subclass "Minimize" "AddSemicolon" (Some {[ "Import" ]})
      semicolon.import_semicolon = Some rt
    /\ semicolon.getattr rt "AddSemicolon"
       = Some (semicolon.set_xor semicolon.add_semicolon_after_literal
                 {[ "Import" ]}).
Proof.
  destruct (ignore_set_updates_base_class "Minimize" {[ "Import" ]})
    as ((rt & Hdef & Hbase & _) & _); [discriminate|].
  exists rt. split; assumption.
Defined.

(** ** Output selection *)

Lemma fold_pick_first_shortest (rest : list string) (best : string) :
  first_shortest (fold_left pick rest best) (best :: rest).
Proof.
  revert best. induction rest as [|c rest IH]; intros best; cbn [fold_left].
  - exists 0%nat. split; [reflexivity|]. split.
    + intros c [<-|[]]. lia.
    + intros j c Hj. lia.
  - destruct (IH (pick best c)) as (i & Hi & Hmin & Hfirst).
    set (out := fold_left pick rest (pick best c)) in *.
    unfold pick in Hi, Hmin, Hfirst.
    destruct (String.length c <? String.length best)%nat eqn:Hlt.
    + apply Nat.ltb_lt in Hlt.
      assert (Hc : (String.length out <= String.length c)%nat)
        by (apply Hmin; now left).
      exists (S i). split; [exact Hi|]. split.
      * intros x [<-|Hx]; [lia | now apply Hmin].
      * intros [|j] x Hj Hx; cbn in Hx.
        -- injection Hx as <-. lia.
        -- apply (Hfirst j); [lia | exact Hx].
    + apply Nat.ltb_ge in Hlt.
      assert (Hb : (String.length out <= String.length best)%nat)
        by (apply Hmin; now left).
      destruct i as [|i].
      * exists 0%nat. split; [exact Hi|]. cbn in Hi. injection Hi as Hi.
        split.
        -- intros x [<-|[<-|Hx]]; [lia | lia | apply Hmin; now right].
        -- intros j x Hj. lia.
      * exists (S (S i)). split; [exact Hi|].
        assert (Hs : (String.length out < String.length best)%nat)
          by (apply (Hfirst 0%nat); [lia | reflexivity]).
        split.
        -- intros x [<-|[<-|Hx]]; [lia | lia | apply Hmin; now right].
        -- intros [|[|j]] x Hj Hx; cbn in Hx.
           ++ injection Hx as <-. lia.
           ++ injection Hx as <-. lia.
           ++ apply (Hfirst (S j)); [lia | exact Hx].
Qed.

Lemma fold_pick_le (rest : list string) (best : string) :
  (String.length (fold_left pick rest best) <= String.length best)%nat.
Proof.
  destruct (fold_pick_first_shortest rest best) as (i & _ & Hmin & _).
  apply Hmin. now left.
Qed.

Lemma shorter_stub_fold compress compress_alone encoded codes :
  shorter_stub compress compress_alone encoded codes
  = fold_left pick
      (map (fun m => stub (codec_name m) (compress m encoded))
         [lzma; zlib; gzip; bz2] ++ [stub "lzma" (compress_alone encoded)])
      codes.
Proof. reflexivity. Qed.

(** C6, as the code measures length.  With compression enabled and not
    forced, whenever the parser and the render pass return, [minimize]
    returns the first of the shortest candidates, where the candidates are
    the raw text, the minimized text, the four codec stubs and the
    [FORMAT_ALONE] stub in that order, and length is [len], the number of
    characters. *)
Theorem minimize_returns_first_shortest
    (parse : string -> option ast.module)
    (compress : codec -> list byte -> list byte)
    (compress_alone : list byte -> list byte)
    (log10 log2 : spec_float -> spec_float)
    (raw_code text : string) (tree : ast.module)
    (names names' : list (option ast.alias)) :
  parse raw_code = Some tree ->
  visit Minimize (loaded_add_semicolon_after "Minimize") log10 log2 tree names
    = (Some text, names') ->
  exists out,
    minimize parse compress compress_alone log10 log2 raw_code true false names
      = (Some out, names')
    /\ first_shortest out
         (candidates compress compress_alone raw_code
            (Py.strip (Py.whitespace +:+ ";") text)).
Proof.
  intros Hparse Hvisit. unfold minimize. rewrite Hparse, Hvisit.
  cbn [orb]. eexists. split; [reflexivity|].
  rewrite shorter_stub_fold. unfold candidates.
  set (minimized := Py.strip _ text).
  set (stubs := map _ _ ++ _).
  replace (if (String.length raw_code <=? String.length minimized)%nat
           then raw_code else minimized) with (pick raw_code minimized).
  - apply (fold_pick_first_shortest (minimized :: stubs) raw_code).
  - unfold pick.
    destruct (String.length raw_code <=? String.length minimized)%nat eqn:Hle.
    + apply Nat.leb_le in Hle.
      now replace (String.length minimized <? String.length raw_code)%nat
        with false by (symmetry; apply Nat.ltb_ge; lia).
    + apply Nat.leb_gt in Hle.
      now replace (String.length minimized <? String.length raw_code)%nat
        with true by (symmetry; apply Nat.ltb_lt; lia).
Qed.

Lemma minimize_returns_first_shortest_witness :
  exists out,
    minimize Sample.parse Sample.compress Sample.compress_alone
      (math.log_ref 10) (math.log_ref 2) Sample.accented_source true false []
      = (Some out, [])
    /\ first_shortest out
         (candidates Sample.compress Sample.compress_alone
            Sample.accented_source
            (Py.strip (Py.whitespace +:+ ";") Sample.accented_source)).
Proof.
  apply (minimize_returns_first_shortest Sample.parse Sample.compress
           Sample.compress_alone (math.log_ref 10) (math.log_ref 2)
           Sample.accented_source Sample.accented_source Sample.accented_tree
           [] []);
    vm_compute; reflexivity.
Defined.

(** C6, as stated in bytes, fails on the sample: the text returned has 42
    characters, which makes it the shortest candidate, and 82 bytes, while
    the [zlib] stub among the candidates has 76. *)
Lemma returned_text_not_shortest_in_bytes :
  exists out c,
    fst (minimize Sample.parse Sample.compress Sample.compress_alone
           (math.log_ref 10) (math.log_ref 2) Sample.accented_source
           true false []) = Some out
    /\ In c (candidates Sample.compress Sample.compress_alone
               Sample.accented_source
               (Py.strip (Py.whitespace +:+ ";") Sample.accented_source))
    /\ (utf8_length c < utf8_length out)%nat.
Proof.
  exists Sample.accented_source, (stub "zlib" Sample.zlib_bytes).
  split; [vm_compute; reflexivity|]. split.
  - do 3 right. left. vm_compute. reflexivity.
  - vm_compute. lia.
Qed.

(** C7, amended.  With forced compression, whenever the parser and the
    render pass return, [minimize] returns a stub whatever the other flag
    is: the first of the shortest among the [FORMAT_ALONE] stub and the
    four codec stubs. *)
Theorem forced_compression_returns_shortest_stub
    (parse : string -> option ast.module)
    (compress : codec -> list byte -> list byte)
    (compress_alone : list byte -> list byte)
    (log10 log2 : spec_float -> spec_float)
    (raw_code text : string) (tree : ast.module) (compress_ : bool)
    (names names' : list (option ast.alias)) :
  parse raw_code = Some tree ->
  visit Minimize (loaded_add_semicolon_after "Minimize") log10 log2 tree names
    = (Some text, names') ->
  exists out,
    minimize parse compress compress_alone log10 log2 raw_code compress_ true
      names = (Some out, names')
    /\ first_shortest out
         (forced_candidates compress compress_alone
            (Py.strip (Py.whitespace +:+ ";") text))
    /\ exists name payload, out = stub name payload.
Proof.
  intros Hparse Hvisit. unfold minimize. rewrite Hparse, Hvisit.
  cbn [orb]. eexists. split; [reflexivity|].
  rewrite shorter_stub_fold. unfold forced_candidates.
  set (minimized := Py.strip _ text).
  set (alone := stub "lzma" _).
  set (stubs := map _ _).
  rewrite fold_left_app. cbn [fold_left].
  replace (pick (fold_left pick stubs alone) alone)
    with (fold_left pick stubs alone).
  - pose proof (fold_pick_first_shortest stubs alone) as Hfs.
    split; [exact Hfs|].
    destruct Hfs as (i & Hi & _).
    apply list_elem_of_lookup_2, list_elem_of_In in Hi.
    destruct Hi as [<-|Hi]; [now eexists _, _|].
    apply in_map_iff in Hi as (m & <- & _). now eexists _, _.
  - pose proof (fold_pick_le stubs alone).
    unfold pick in *.
    now replace (String.length alone <? _)%nat
      with false by (symmetry; apply Nat.ltb_ge; lia).
Qed.

Lemma forced_compression_returns_shortest_stub_witness :
  exists out,
    minimize Sample.parse Sample.compress Sample.compress_alone
      (math.log_ref 10) (math.log_ref 2) Sample.accented_source false true []
      = (Some out, [])
    /\ first_shortest out
         (forced_candidates Sample.compress Sample.compress_alone
            (Py.strip (Py.whitespace +:+ ";") Sample.accented_source))
    /\ exists name payload, out = stub name payload.
Proof.
  apply (forced_compression_returns_shortest_stub Sample.parse Sample.compress
           Sample.compress_alone (math.log_ref 10) (math.log_ref 2)
           Sample.accented_source Sample.accented_source Sample.accented_tree
           false [] []);
    vm_compute; reflexivity.
Defined.

(** C7, as stated, fails on the sample: under forced compression the text
    returned is the [zlib] stub, which is shorter than both [lzma]
    stubs. *)
Lemma forced_compression_not_lzma :
  fst (minimize Sample.parse Sample.compress Sample.compress_alone
         (math.log_ref 10) (math.log_ref 2) Sample.accented_source true true [])
    = Some (stub "zlib" Sample.zlib_bytes)
  /\ stub "zlib" Sample.zlib_bytes <> stub "lzma" Sample.alone_bytes
  /\ stub "zlib" Sample.zlib_bytes <> stub "lzma" Sample.lzma_bytes.
Proof.
  split; [vm_compute; reflexivity|].
  split; vm_compute; discriminate.
Qed.

(** ** Block compaction *)

Lemma headers_from_spec (lines : list string) (start i : nat) :
  In i (PostProcess.headers_from start lines)
  <-> exists l, (start <= i)%nat /\ lines !! (i - start)%nat = Some l
                /\ Py.endswith_char ":" l = true.
Proof.
  revert start. induction lines as [|x rest IH]; intros start; cbn [PostProcess.headers_from].
  - split; [intros [] | intros (l & _ & H & _); discriminate].
  - assert (Hrest : In i (PostProcess.headers_from (S start) rest)
              <-> exists l, (start < i)%nat /\ (x :: rest) !! (i - start)%nat = Some l
                            /\ Py.endswith_char ":" l = true).
    { rewrite IH. split; intros (l & Hle & Hl & He); exists l; (split; [lia|]); split; auto.
      - replace (i - start)%nat with (S (i - S start)) by lia. exact Hl.
      - replace (i - start)%nat with (S (i - S start)) in Hl by lia. exact Hl. }
    destruct (Py.endswith_char ":" x) eqn:Hx; cbn [In]; rewrite ?Hrest.
    + split.
      * intros [<-|(l & Hlt & Hl & He)].
        -- exists x. rewrite Nat.sub_diag. auto.
        -- exists l. split; [lia | auto].
      * intros (l & Hle & Hl & He).
        destruct (decide (start = i)) as [->|Hne]; [now left|].
        right. exists l. split; [lia | auto].
    + split.
      * intros (l & Hlt & Hl & He). exists l. split; [lia | auto].
      * intros (l & Hle & Hl & He).
        destruct (decide (start = i)) as [->|Hne].
        -- rewrite Nat.sub_diag in Hl. cbn in Hl. congruence.
        -- exists l. split; [lia | auto].
Qed.

Lemma headers_from_sorted (lines : list string) (start : nat) :
  StronglySorted lt (PostProcess.headers_from start lines).
Proof.
  revert start. induction lines as [|x rest IH]; intros start; cbn [PostProcess.headers_from].
  - constructor.
  - destruct (Py.endswith_char ":" x); [|apply IH].
    constructor; [apply IH|].
    apply Forall_forall. intros j Hj.
    apply list_elem_of_In, headers_from_spec in Hj as (l & Hle & _). lia.
Qed.

(** The loop over a sorted run of headers [hs] of the buffer [orig], from
    a state [cur] that agrees with [orig] from the first of them on:
    every test is the one read on [orig], a header line ends up spliced
    or untouched accordingly, and the other lines stay as they are. *)
Lemma loop_spec (orig : list string) (hs : list nat) :
  StronglySorted lt hs ->
  (forall h, In h hs -> (S h < length orig)%nat) ->
  forall (b : nat) (cur : list string) (to_del : list nat),
    Forall (fun h => (b <= h)%nat) hs ->
    length cur = length orig ->
    (forall j, (b <= j)%nat -> cur !! j = orig !! j) ->
    exists cur',
      PostProcess.loop (Z.of_nat (length orig) - 2) hs (cur, to_del)
        = Some (cur', to_del ++ map S (filter (merges orig) hs))
      /\ length cur' = length orig
      /\ (forall j, ~ In j hs -> cur' !! j = cur !! j)
      /\ (forall h, In h hs ->
            cur' !! h
            = Some (if merges orig h
                    then default "" (orig !! h)
                         +:+ Py.strip_ws (default "" (orig !! (h + 1)%nat))
                    else default "" (orig !! h))).
Proof.
  induction 1 as [|h rest Hsorted IH Hlt]; intros Hnext b cur to_del Hb Hlen Hagree.
  - exists cur. cbn. rewrite app_nil_r. repeat split; auto. intros h [].
  - assert (Hh : (S h < length orig)%nat) by (apply Hnext; now left).
    apply Forall_cons in Hb as [Hbh Hb].
    destruct (lookup_lt_is_Some_2 orig h) as [line Hline]; [lia|].
    destruct (lookup_lt_is_Some_2 orig (h + 1)) as [back Hback]; [lia|].
    cbn [PostProcess.loop]. unfold PostProcess.step, PostProcess.getitem.
    rewrite !Hagree by lia. rewrite Hline, Hback.
    assert (Htest :
      negb (Z.of_nat h =? Z.of_nat (length orig) - 2)
      && ((_get_indent back <=? _get_indent line)%nat
          || (_get_indent line <? _get_indent (default "" (orig !! (h + 2)%nat)))%nat)
      = negb (merges orig h)).
    { unfold merges. rewrite Hline, Hback. cbn [default].
      replace (Z.of_nat h =? Z.of_nat (length orig) - 2)
        with (S (S h) =? length orig)%nat
        by (destruct (Nat.eqb_spec (S (S h)) (length orig));
            symmetry; [apply Z.eqb_eq | apply Z.eqb_neq]; lia).
      rewrite negb_orb, negb_andb, negb_involutive.
      now rewrite Nat.leb_antisym. }
    rewrite Htest. clear Htest.
    assert (Hrest : forall h', In h' rest -> (S h < S h')%nat)
      by (intros h' Hh'; rewrite Forall_forall in Hlt;
          apply list_elem_of_In, Hlt in Hh'; lia).
    assert (Hnotin : ~ In h rest) by (intros Hin; apply Hrest in Hin; lia).
    assert (Hb' : Forall (fun h' => (S h <= h')%nat) rest)
      by (apply Forall_forall; intros h' Hh';
          apply list_elem_of_In, Hrest in Hh'; lia).
    assert (Hfilter : filter (merges orig) (h :: rest)
              = if merges orig h then h :: filter (merges orig) rest
                else filter (merges orig) rest).
    { rewrite filter_cons. destruct (merges orig h); reflexivity. }
    rewrite Hfilter. clear Hfilter.
    destruct (merges orig h) eqn:Hm; cbn [negb].
    + destruct (IH (fun h' Hh' => Hnext h' (or_intror Hh')) (S h)
                  (<[h := line +:+ Py.strip_ws back]> cur)
                  (to_del ++ [(h + 1)%nat]) Hb')
        as (cur' & Hloop & Hlen' & Hother & Hhead).
      * now rewrite length_insert.
      * intros j Hj. rewrite list_lookup_insert_ne by lia. apply Hagree. lia.
      * exists cur'. rewrite Hloop.
        cbn [map]. rewrite <- app_assoc. cbn [app].
        replace (h + 1)%nat with (S h) by lia.
        split; [reflexivity|]. split; [exact Hlen'|]. split.
        -- intros j Hj. rewrite Hother by (intros Hin; apply Hj; now right).
           apply list_lookup_insert_ne. intros ->. apply Hj. now left.
        -- intros h' [<-|Hh'].
           ++ rewrite Hother by exact Hnotin.
              rewrite list_lookup_insert_eq by lia.
              rewrite Hm, Hline. replace (h + 1)%nat with (S h) in Hback by lia.
              replace (h + 1)%nat with (S h) by lia.
              now rewrite Hback.
           ++ now apply Hhead.
    + destruct (IH (fun h' Hh' => Hnext h' (or_intror Hh')) (S h) cur to_del Hb')
        as (cur' & Hloop & Hlen' & Hother & Hhead).
      * exact Hlen.
      * intros j Hj. apply Hagree. lia.
      * exists cur'. rewrite Hloop.
        split; [reflexivity|]. split; [exact Hlen'|]. split.
        -- intros j Hj. apply Hother. intros Hin. apply Hj. now right.
        -- intros h' [<-|Hh'].
           ++ rewrite Hother by exact Hnotin.
              rewrite Hm, Hagree by lia. now rewrite Hline.
           ++ now apply Hhead.
Qed.

Lemma header_has_next (lines : list string) (i : nat) (l : string) :
  headers_followed lines ->
  lines !! i = Some l -> Py.endswith_char ":" l = true ->
  (S i < length lines)%nat.
Proof.
  unfold headers_followed. intros Hlast Hi Hl.
  pose proof (lookup_lt_Some _ _ _ Hi) as Hlt.
  destruct (decide (S i = length lines)) as [Heq|Hne]; [|lia].
  rewrite last_lookup in Hlast.
  replace (Nat.pred (length lines)) with i in Hlast by lia.
  rewrite Hi in Hlast. cbn in Hlast. congruence.
Qed.

(** C4, amended.  When the last line is no header, the compaction loop
    returns, and for every line [i] that ends in a colon the line after it
    is marked for deletion (and spliced onto the header) if and only if
    the header is the second-to-last line, or its indentation is strictly
    below that of the line after it and not strictly below that of the
    line after that one, a missing line counting as empty.  Every other
    line is left as it is. *)
Theorem compaction_splices (lines : list string) :
  headers_followed lines ->
  exists lines' to_del,
    PostProcess.compact lines = Some (lines', to_del)
    /\ forall i line,
         lines !! i = Some line ->
         (Py.endswith_char ":" line = false -> lines' !! i = Some line)
         /\ (Py.endswith_char ":" line = true ->
             exists back_line,
               lines !! (i + 1)%nat = Some back_line
               /\ let next_line := default "" (lines !! (i + 2)%nat) in
                  let spliced :=
                    S (S i) = length lines
                    \/ ((_get_indent line < _get_indent back_line)%nat
                        /\ ~ (_get_indent line < _get_indent next_line)%nat) in
                  (In (S i) to_del <-> spliced)
                  /\ (spliced ->
                      lines' !! i = Some (line +:+ Py.strip_ws back_line))
                  /\ (~ spliced -> lines' !! i = Some line)).
Proof.
  intros Hlast.
  destruct (loop_spec lines (PostProcess.headers_from 0 lines)
              (headers_from_sorted lines 0)) with (b := 0%nat) (cur := lines)
              (to_del := @nil nat)
    as (lines' & Hloop & _ & Hother & Hhead).
  { intros h Hh. apply headers_from_spec in Hh as (l & _ & Hl & He).
    rewrite Nat.sub_0_r in Hl. eapply header_has_next; eauto. }
  { apply Forall_forall. intros; lia. }
  { reflexivity. }
  { reflexivity. }
  exists lines', (map S (filter (merges lines) (PostProcess.headers_from 0 lines))).
  split; [exact Hloop|].
  intros i line Hi.
  assert (Hin : In i (PostProcess.headers_from 0 lines)
                <-> Py.endswith_char ":" line = true).
  { rewrite headers_from_spec, Nat.sub_0_r. split.
    - intros (l & _ & Hl & He). congruence.
    - intros He. exists line. split; [lia | auto]. }
  split.
  - intros He. rewrite Hother; [exact Hi|].
    rewrite Hin. congruence.
  - intros He.
    pose proof (header_has_next lines i line Hlast Hi He) as Hnext.
    destruct (lookup_lt_is_Some_2 lines (i + 1)) as [back Hback]; [lia|].
    exists back. split; [exact Hback|]. cbn zeta.
    assert (Hm : merges lines i = true
                 <-> S (S i) = length lines
                     \/ ((_get_indent line < _get_indent back)%nat
                         /\ ~ (_get_indent line
                               < _get_indent (default "" (lines !! (i + 2)%nat)))%nat)).
    { unfold merges. rewrite Hi, Hback. cbn [default].
      rewrite orb_true_iff, andb_true_iff, negb_true_iff.
      rewrite Nat.eqb_eq, Nat.ltb_lt, Nat.ltb_ge. unfold id. lia. }
    split; [|split].
    + rewrite <- Hm, in_map_iff. split.
      * intros (j & Hj & Hf). injection Hj as ->.
        apply list_elem_of_In, list_elem_of_filter in Hf as [Hf _].
        now destruct (merges lines i).
      * intros Ht. exists i. split; [reflexivity|].
        apply list_elem_of_In, list_elem_of_filter. split.
        -- now rewrite Ht.
        -- apply list_elem_of_In, Hin, He.
    + intros Hs. apply Hm in Hs.
      rewrite Hhead by (apply Hin, He).
      now rewrite Hs, Hi, Hback.
    + intros Hs. rewrite Hhead by (apply Hin, He).
      destruct (merges lines i); [exfalso; apply Hs, Hm; reflexivity|].
      now rewrite Hi.
Qed.

Lemma compaction_splices_witness :
  exists lines' to_del,
    PostProcess.compact ["if a:"; " x"; "y"] = Some (lines', to_del)
    /\ In 1%nat to_del.
Proof.
  destruct (compaction_splices ["if a:"; " x"; "y"]) as (lines' & to_del & Hc & H);
    [reflexivity|].
  exists lines', to_del. split; [exact Hc|].
  destruct (H 0%nat "if a:" eq_refl) as [_ Hh].
  destruct (Hh eq_refl) as (back & Hback & Hiff & _).
  apply Hiff. right. injection Hback as <-. vm_compute. split; lia.
Defined.

(** C4, as stated, fails on what the printer writes for a conditional
    whose body is one import, followed by an assignment: the header is the
    second-to-last line, its indentation is not below that of the line
    after it, and that line is spliced onto it all the same. *)
Lemma second_to_last_header_always_spliced :
  let tree := ast.Module_
                [ast.If (ast.Name "a") [ast.Import [Sample.os]] [];
                 ast.Assign [ast.Name "x"] (ast.Constant (ast.Int 1))] in
  let u := traverse_Module Minimize (loaded_add_semicolon_after "Minimize")
             (math.log_ref 10) (math.log_ref 2) tree
             (mk_unparser [] 0 0 [] false) in
  PostProcess.rstrip_lines (Py.concat (_source u)) = ["if a:"; "import os;x=1"]
  /\ PostProcess.compact ["if a:"; "import os;x=1"]
     = Some (["if a:import os;x=1"; "import os;x=1"], [1%nat])
  /\ (_get_indent "import os;x=1" <= _get_indent "if a:")%nat
  /\ PostProcess.post_process (Py.concat (_source u)) = Some "if a:import os;x=1".
Proof.
  cbv zeta. repeat split; vm_compute; try reflexivity; lia.
Qed.

(** ** Float constants *)

Lemma lstrip_by_app (p : ascii -> bool) (a b : string) (c : ascii) :
  p c = false ->
  Py.lstrip_by p (a +:+ String c b) = Py.lstrip_by p a +:+ String c b.
Proof.
  intros Hc. induction a as [|x a IH]; simpl.
  - now rewrite Hc.
  - destruct (p x); [exact IH | reflexivity].
Qed.

Lemma rstrip_by_app (p : ascii -> bool) (a b : string) (c : ascii) :
  p c = false ->
  Py.rstrip_by p (a +:+ String c b) = a +:+ String c (Py.rstrip_by p b).
Proof.
  intros Hc. induction a as [|x a IH]; simpl.
  - rewrite Hc. now destruct (Py.rstrip_by p b).
  - rewrite IH. now destruct a.
Qed.

(** Zeros are stripped on both sides of the point, and the point stays. *)
Lemma strip_zeros_around_point (i f : string) :
  Py.strip "0" (i +:+ "." +:+ f) = Py.lstrip "0" i +:+ "." +:+ Py.rstrip "0" f.
Proof.
  unfold Py.strip, Py.strip_by, Py.lstrip, Py.rstrip.
  change ("." +:+ f) with (String "." f).
  rewrite lstrip_by_app by reflexivity.
  now rewrite rstrip_by_app by reflexivity.
Qed.




(** ** Parentheses *)

Lemma expr_nested_ind (P : ast.expr -> Prop) :
  (forall id, P (ast.Name id)) ->
  (forall value, P (ast.Constant value)) ->
  (forall l op r, P l -> P r -> P (ast.BinOp l op r)) ->
  (forall op x, P x -> P (ast.UnaryOp op x)) ->
  (forall l ops cs, P l -> Forall P cs -> P (ast.Compare l ops cs)) ->
  forall e, P e.
Proof.
  intros HName HConst HBin HUn HCmp.
  fix IH 1. intros [id|value|l op r|op x|l ops cs].
  - apply HName.
  - apply HConst.
  - apply HBin; apply IH.
  - apply HUn; apply IH.
  - apply HCmp; [apply IH|].
    induction cs as [|c cs IHcs]; constructor; [apply IH | exact IHcs].
Qed.

Lemma traverse_enter_no_pending (is_Import : bool) (u : unparser) :
  no_pending u -> traverse_enter Minimize is_Import u = u.
Proof.
  unfold no_pending, traverse_enter.
  destruct (last (import_names u)) as [[a|]|]; [intros []| |]; reflexivity.
Qed.

Lemma rstrip_last_snoc (src : list string) (t : string) :
  rstrip_last (src ++ [t]) = src ++ [Py.rstrip " " t].
Proof.
  unfold rstrip_last. now rewrite last_snoc, removelast_last.
Qed.

Lemma appended_nil (u : unparser) : appended [] u = u.
Proof. destruct u. unfold appended, set_source. cbn. now rewrite app_nil_r. Qed.

Lemma appended_appended (g h : list string) (u : unparser) :
  appended g (appended h u) = appended (h ++ g) u.
Proof. unfold appended, set_source. cbn. now rewrite app_assoc. Qed.

Lemma appended_emitted (o : bool) (f g : list string) (u : unparser) :
  appended g (emitted o f u) = emitted o (f ++ g) u.
Proof. unfold appended, emitted, set_source. cbn. now rewrite app_assoc. Qed.

Lemma emitted_appended (o : bool) (f g : list string) (t : string) (u : unparser) :
  emitted o f (appended (g ++ [t]) u) = appended (g ++ [spaced t o] ++ f) u.
Proof.
  unfold appended, emitted, set_source, spaced. cbn. f_equal.
  destruct o.
  - rewrite app_assoc, rstrip_last_snoc. now rewrite <- !app_assoc.
  - now rewrite <- !app_assoc.
Qed.

Lemma emitted_emitted (o1 o2 : bool) (f g : list string) (t : string)
    (u : unparser) :
  emitted o2 f (emitted o1 (g ++ [t]) u) = emitted o1 (g ++ [spaced t o2] ++ f) u.
Proof.
  unfold emitted, set_source, spaced. cbn. f_equal.
  destruct o2.
  - rewrite app_assoc, rstrip_last_snoc. now rewrite <- !app_assoc.
  - now rewrite <- !app_assoc.
Qed.

Lemma emitted_appended1 (o : bool) (f : list string) (t : string) (u : unparser) :
  emitted o f (appended [t] u) = appended ([spaced t o] ++ f) u.
Proof. apply (emitted_appended o f [] t u). Qed.

Lemma write_appended (t : string) (u : unparser) : write t u = appended [t] u.
Proof. reflexivity. Qed.

Lemma emitted_false (f : list string) (u : unparser) :
  emitted false f u = appended f u.
Proof. reflexivity. Qed.

Lemma no_pending_set_source (f : list string -> list string) (u : unparser) :
  no_pending (set_source f u) <-> no_pending u.
Proof. reflexivity. Qed.

Lemma Constant_int_plain log10 log2 (depth : nat) (n : Z) (u : unparser) :
  whole_log log10 (10 ^ 5) n = Some None ->
  whole_log log2 (2 ^ 17) n = Some None ->
  Constant_int Minimize log10 log2 depth n u = write (Py.int_repr n) u.
Proof.
  intros H10 H2. destruct depth; cbn [Constant_int]; now rewrite H10, H2.
Qed.

Lemma visit_Constant_token log10 log2 (v : ast.constant) (t : string)
    (u : unparser) :
  constant_token log10 log2 v = Some t ->
  visit_Constant Minimize log10 log2 v u = appended [t] u.
Proof.
  destruct v as [n|b| | |r]; cbn [constant_token visit_Constant].
  - destruct (whole_log log10 (10 ^ 5) n) as [[k|]|] eqn:H10; try discriminate.
    destruct (whole_log log2 (2 ^ 17) n) as [[k|]|] eqn:H2; try discriminate.
    intros [= <-]. now apply Constant_int_plain.
  - now intros [= <-].
  - now intros [= <-].
  - now intros [= <-].
  - destruct (decimal.of_str r); [|discriminate]. now intros [= <-].
Qed.

(** Wrapping a body: the parentheses are written exactly when the
    position asks for more than the operator has. *)
Lemma require_parens_emitted (own required : _Precedence)
    (body : unparser -> unparser) (bo : bool) (bf : list string) :
  (forall u, no_pending u -> body u = emitted bo bf u) ->
  forall u, no_pending u ->
    require_parens Minimize own required body u
    = emitted (Precedence.gt required own || bo)
        (if Precedence.gt required own then "(" :: bf ++ [")"] else bf) u.
Proof.
  intros Hbody u Hu. unfold require_parens, delimit_if.
  destruct (Precedence.gt required own); cbn [orb]; [|now apply Hbody].
  unfold delimit.
  replace (match _source u with
           | [] => u
           | _ :: _ =>
               if (Py.strip_ws "(" =? "(")%string
               then set_source rstrip_last u else u
           end) with (emitted true [] u).
  - change (write "(" (emitted true [] u)) with (appended [ "(" ] (emitted true [] u)).
    rewrite appended_emitted, Hbody by exact Hu.
    change ([] ++ ["("]) with (@nil string ++ ["("]).
    rewrite emitted_emitted.
    change (write ")" ?x) with (appended [")"] x).
    rewrite appended_emitted.
    replace (spaced "(" bo) with "(" by (now destruct bo).
    reflexivity.
  - destruct u as [src ind mem names r]. unfold emitted, set_source. cbn.
    destruct src; cbn; [reflexivity|]. now rewrite app_nil_r.
Qed.

Lemma operand_levels_code (op : ast.operator) :
  (if binop_rassoc (binop op)
   then (Precedence.next (binop_precedence op), binop_precedence op)
   else (binop_precedence op, Precedence.next (binop_precedence op)))
  = operand_levels op.
Proof. destruct op; reflexivity. Qed.

Lemma spaced_binop (op : ast.operator) (o : bool) : spaced (binop op) o = binop op.
Proof. destruct op, o; reflexivity. Qed.

(** The printer refines the pure printer: at a position with minimum
    [required], an expression whose constants are written as one fragment
    each adds the fragments of [expr_fragments], after dropping the spaces
    that end the fragment before it when it begins with a parenthesis. *)
Lemma traverse_expr_emitted (log10 log2 : spec_float -> spec_float) :
  forall (e : ast.expr) (required : _Precedence) (u : unparser),
    no_pending u ->
    plain_constants log10 log2 e = true ->
    traverse_expr Minimize log10 log2 required e u
    = emitted (opens required e) (expr_fragments log10 log2 required e) u.
Proof.
  induction e as [id|value|l op r IHl IHr|op x IHx|l ops cs IHl IHcs]
    using expr_nested_ind;
    intros required u Hu Hp; cbn [traverse_expr];
    rewrite traverse_enter_no_pending by exact Hu.
  - reflexivity.
  - cbn [plain_constants] in Hp.
    destruct (constant_token log10 log2 value) as [t|] eqn:Ht; [|discriminate].
    rewrite (visit_Constant_token _ _ _ t) by exact Ht.
    unfold expr_fragments, wrap, opens. cbn. now rewrite Ht.
  - cbn [plain_constants] in Hp. apply andb_prop in Hp as [Hpl Hpr].
    apply (require_parens_emitted (binop_precedence op) required _
             (body_opens (ast.BinOp l op r))
             (expr_body log10 log2 (ast.BinOp l op r))); [|exact Hu].
    intros v Hv. rewrite operand_levels_code.
    cbn [body_opens expr_body].
    destruct (operand_levels op) as [lp rp]. cbn [fst].
    rewrite IHl by assumption.
    change (write ?t ?w) with (appended [t] w).
    rewrite appended_emitted, IHr by assumption.
    rewrite emitted_emitted, spaced_binop.
    reflexivity.
  - cbn [plain_constants] in Hp.
    apply (require_parens_emitted (unop_precedence op) required _ false
             (expr_body log10 log2 (ast.UnaryOp op x))); [|exact Hu].
    intros v Hv. cbn [expr_body].
    destruct op; cbn [unop_precedence unop];
      rewrite !write_appended, ?appended_appended, IHx by assumption;
      first [rewrite emitted_appended1 | rewrite emitted_appended];
      try reflexivity;
      now destruct (opens FACTOR x).
  - cbn [plain_constants] in Hp. apply andb_prop in Hp as [Hpl Hpcs].
    apply (require_parens_emitted CMP required _
             (body_opens (ast.Compare l ops cs))
             (expr_body log10 log2 (ast.Compare l ops cs))); [|exact Hu].
    intros v Hv. cbn [body_opens expr_body].
    rewrite IHl by assumption.
    rewrite <- appended_emitted.
    change (opens (Precedence.next CMP) l)
      with (parenthesized (Precedence.next CMP) l || body_opens l).
    change (expr_fragments log10 log2 (Precedence.next CMP) l)
      with (wrap (Precedence.next CMP) l (expr_body log10 log2 l)).
    assert (Hw : no_pending
                   (emitted (parenthesized (Precedence.next CMP) l || body_opens l)
                      (wrap (Precedence.next CMP) l (expr_body log10 log2 l)) v))
      by exact Hv.
    revert Hw.
    generalize (emitted (parenthesized (Precedence.next CMP) l || body_opens l)
                  (wrap (Precedence.next CMP) l (expr_body log10 log2 l)) v).
    clear IHl Hpl Hv v Hu u.
    intros w Hw. revert w Hw.
    revert ops Hpcs.
    induction IHcs as [|c cs IHc _ IH]; intros ops Hpcs w Hw.
    + destruct ops; now rewrite appended_nil.
    + apply andb_prop in Hpcs as [Hpc Hpcs].
      destruct ops as [|o ops]; [now rewrite appended_nil|].
      rewrite write_appended, IHc by assumption.
      rewrite emitted_appended1.
      rewrite IH by assumption.
      rewrite appended_appended. reflexivity.
Qed.

(** X24.  For every expression whose constants are written as one
    fragment each (so no integer is rewritten as a power), at every
    position and from every state with no import pending, the printer
    writes the fragments of the pure printer: the body of the node, inside
    parentheses exactly when the precedence of its operator is strictly
    below the minimum of the position.  An operand with the operator of
    its parent is wrapped on the right and bare on the left, and the other
    way round for [**]. *)
Theorem parentheses_by_precedence
    (log10 log2 : spec_float -> spec_float)
    (e : ast.expr) (required : _Precedence) (u : unparser) :
  no_pending u ->
  plain_constants log10 log2 e = true ->
  traverse_expr Minimize log10 log2 required e u
  = emitted (opens required e)
      (if parenthesized required e
       then "(" :: expr_body log10 log2 e ++ [")"]
       else expr_body log10 log2 e) u
  /\ (parenthesized required e = true
      <-> exists own, own_precedence e = Some own
                      /\ Precedence.value own < Precedence.value required)
  /\ (forall op l r,
         parenthesized (fst (operand_levels op)) (ast.BinOp l op r)
         = match op with ast.Pow => true | _ => false end
         /\ parenthesized (snd (operand_levels op)) (ast.BinOp l op r)
            = match op with ast.Pow => false | _ => true end).
Proof.
  intros Hu Hp. split; [|split].
  - now apply traverse_expr_emitted.
  - unfold parenthesized. destruct (own_precedence e) as [own|].
    + rewrite Z.ltb_lt. split; [intros H; now exists own|].
      now intros (own' & [= <-] & H).
    + split; [discriminate | now intros (own' & [=] & _)].
  - intros op l r. destruct op; split; reflexivity.
Qed.

Lemma parentheses_by_precedence_witness :
  traverse_expr Minimize (math.log_ref 10) (math.log_ref 2) TERM
    (ast.BinOp (ast.Name "a") ast.Sub
       (ast.BinOp (ast.Name "b") ast.Sub (ast.Constant (ast.Int 1))))
    (mk_unparser ["x"; "="] 0 0 [] false)
  = mk_unparser ["x"; "="; "("; "a"; "-"; "("; "b"; "-"; "1"; ")"; ")"]
      0 0 [] false.
Proof.
  destruct (parentheses_by_precedence (math.log_ref 10) (math.log_ref 2)
              (ast.BinOp (ast.Name "a") ast.Sub
                 (ast.BinOp (ast.Name "b") ast.Sub (ast.Constant (ast.Int 1))))
              TERM (mk_unparser ["x"; "="] 0 0 [] false)) as [-> _].
  - exact I.
  - vm_compute. reflexivity.
  - vm_compute. reflexivity.
Defined.

(** ** A constant rewritten as a power, as an operand *)

(** One unfolding of the integer branch when the first test holds. *)
Lemma Constant_int_power_10 log10 log2 (d : nat) (n k : Z) (u : unparser) :
  whole_log log10 (10 ^ 5) n = Some (Some k) ->
  Constant_int Minimize log10 log2 (S d) n u
  = require_parens Minimize POWER TEST
      (fun u =>
         let u1 := Constant_int Minimize log10 log2 d 10
                     (traverse_enter Minimize false u) in
         let u2 := write (binop ast.Pow) u1 in
         Constant_int Minimize log10 log2 d k (traverse_enter Minimize false u2))
      (traverse_enter Minimize false u).
Proof. intros H. cbn [Constant_int]. now rewrite H. Qed.

(** The constant [100000], when libm's [log10] is exact at it: the power
    node that replaces it is traversed at [TEST], whatever precedence
    was set for the constant, and is written bare. *)
Lemma Constant_int_hundred_thousand
    (log10 log2 : spec_float -> spec_float) (u : unparser) :
  log10 (math.float_of_Z (10 ^ 5)) = math.float_of_Z 5 ->
  no_pending u ->
  visit_Constant Minimize log10 log2 (ast.Int 100000) u
  = appended ["10"; "**"; "5"] u.
Proof.
  intros Hlog Hu.
  assert (Hsmall : forall d n w, n < 10 ^ 5 ->
            Constant_int Minimize log10 log2 d n w = write (Py.int_repr n) w).
  { intros d n w Hn. apply Constant_int_plain; unfold whole_log.
    - now replace (10 ^ 5 <=? n) with false by (symmetry; apply Z.leb_gt; lia).
    - now replace (2 ^ 17 <=? n) with false by (symmetry; apply Z.leb_gt; lia). }
  assert (Hw : whole_log log10 (10 ^ 5) 100000 = Some (Some 5)).
  { unfold whole_log, math.loghelper.
    replace (10 ^ 5 <=? 100000) with true by reflexivity.
    replace (100000 <=? 0) with false by reflexivity.
    replace (math.PyLong_AsDouble 100000)
      with (Some (math.float_of_Z (10 ^ 5))) by (vm_compute; reflexivity).
    rewrite Hlog.
    replace (math.is_whole (math.float_of_Z 5)) with true
      by (vm_compute; reflexivity).
    replace (math.int_of_float (math.float_of_Z 5)) with (Some 5)
      by (vm_compute; reflexivity).
    reflexivity. }
  unfold visit_Constant. change recursion_depth with (S 63).
  rewrite (Constant_int_power_10 _ _ _ _ 5) by exact Hw.
  rewrite traverse_enter_no_pending by exact Hu.
  unfold require_parens, delimit_if.
  replace (Precedence.gt TEST POWER) with false by reflexivity.
  cbv zeta.
  rewrite (traverse_enter_no_pending false u) by exact Hu.
  rewrite Hsmall by lia.
  rewrite traverse_enter_no_pending by exact Hu.
  rewrite Hsmall by lia.
  rewrite !write_appended, !appended_appended.
  reflexivity.
Qed.

(** C2.  Parentheses the precedence requires are missing around an
    integer constant rewritten as a power.  Whenever libm's [log10] is
    exact at [10**5], the power [100000**2] is rendered [10**5**2]: the
    left operand of [**] is written bare, and the text is the one
    rendered for [10**(5**2)], another tree with another value.  The
    same power written out in the source, [(10**5)**2], keeps its
    parentheses. *)
Theorem rewritten_power_loses_parentheses
    (log10 log2 : spec_float -> spec_float) :
  log10 (math.float_of_Z (10 ^ 5)) = math.float_of_Z 5 ->
  unparse_expr log10 log2
    (ast.BinOp (ast.Constant (ast.Int 100000)) ast.Pow
       (ast.Constant (ast.Int 2)))
  = Some "10**5**2"
  /\ unparse_expr log10 log2
       (ast.BinOp (ast.Constant (ast.Int 10)) ast.Pow
          (ast.BinOp (ast.Constant (ast.Int 5)) ast.Pow
             (ast.Constant (ast.Int 2))))
     = Some "10**5**2"
  /\ unparse_expr log10 log2
       (ast.BinOp
          (ast.BinOp (ast.Constant (ast.Int 10)) ast.Pow
             (ast.Constant (ast.Int 5)))
          ast.Pow (ast.Constant (ast.Int 2)))
     = Some "(10**5)**2".
Proof.
  intros Hlog. split; [|split; vm_compute; reflexivity].
  unfold unparse_expr. cbn [traverse_expr].
  unfold require_parens, delimit_if.
  replace (Precedence.gt TEST (binop_precedence ast.Pow)) with false
    by reflexivity.
  replace (binop_rassoc (binop ast.Pow)) with true by reflexivity.
  cbv zeta beta iota.
  replace (traverse_enter Minimize false (mk_unparser [] 0 0 [] false))
    with (mk_unparser [] 0 0 [] false) by reflexivity.
  rewrite (Constant_int_hundred_thousand log10 log2 _ Hlog) by exact I.
  vm_compute. reflexivity.
Qed.

Lemma rewritten_power_loses_parentheses_witness :
  unparse_expr (math.log_ref 10) (math.log_ref 2)
    (ast.BinOp (ast.Constant (ast.Int 100000)) ast.Pow
       (ast.Constant (ast.Int 2)))
  = Some "10**5**2".
Proof.
  refine (proj1 (rewritten_power_loses_parentheses
                   (math.log_ref 10) (math.log_ref 2) _)).
  vm_compute. reflexivity.
Defined.

(** The right operand of [**] is wrapped when it is a unary operation. *)
Example negative_exponent_wrapped :
  unparse_expr (math.log_ref 10) (math.log_ref 2)
    (ast.BinOp (ast.Constant (ast.Int 2)) ast.Pow
       (ast.UnaryOp ast.USub (ast.Constant (ast.Int 1))))
  = Some "2**(-1)".
Proof. vm_compute. reflexivity. Qed.

(** * Further properties of the code *)

(** ** [minimize]: the length of what it returns *)

Lemma prefix_append (a b : string) : String.prefix a (a +:+ b) = true.
Proof.
  induction a as [|c a IH]; simpl; [now destruct b|].
  destruct (ascii_dec c c); [exact IH | congruence].
Qed.

Lemma stub_prefix (name : string) (payload : list byte) :
  String.prefix "exec(__import__('" (stub name payload) = true.
Proof. unfold stub. apply prefix_append. Qed.

Lemma stub_length_ge (m : codec) (payload : list byte) :
  (39 <= String.length (stub (codec_name m) payload))%nat.
Proof.
  rewrite stub_length.
  pose proof (repr_length_ge payload). pose proof (codec_name_length m). lia.
Qed.

(** X1.  Unless compression is forced, [minimize] never returns a text
    with more characters than the text it was given, nor than the
    minimized text the render pass produced. *)
Theorem minimize_never_longer
    (parse : string -> option ast.module)
    (compress : codec -> list byte -> list byte)
    (compress_alone : list byte -> list byte)
    (log10 log2 : spec_float -> spec_float)
    (raw_code out : string) (compress_ : bool)
    (names names' : list (option ast.alias)) :
  minimize parse compress compress_alone log10 log2 raw_code compress_ false
    names = (Some out, names') ->
  (String.length out <= String.length raw_code)%nat
  /\ exists tree text,
       parse raw_code = Some tree
       /\ visit Minimize (loaded_add_semicolon_after "Minimize") log10 log2
            tree names = (Some text, names')
       /\ (String.length out
           <= String.length (Py.strip (Py.whitespace +:+ ";") text))%nat.
Proof.
  unfold minimize.
  destruct (parse raw_code) as [tree|]; [|discriminate].
  destruct (visit Minimize _ log10 log2 tree names) as [[text|] names1] eqn:Hv;
    [|discriminate].
  cbn [orb]. set (minimized := Py.strip _ text).
  set (codes := if (String.length raw_code <=? String.length minimized)%nat
                then raw_code else minimized).
  assert (Hcodes : (String.length codes <= String.length raw_code)%nat
                   /\ (String.length codes <= String.length minimized)%nat).
  { unfold codes.
    destruct (String.length raw_code <=? String.length minimized)%nat eqn:Hle;
      [apply Nat.leb_le in Hle | apply Nat.leb_gt in Hle]; lia. }
  intros [= <- <-].
  assert (Hout : (String.length
                    (if compress_
                     then shorter_stub compress compress_alone
                            (bytes.encode minimized) codes
                     else codes) <= String.length codes)%nat).
  { destruct compress_; [|lia].
    rewrite shorter_stub_fold. apply fold_pick_le. }
  split; [lia|]. exists tree, text.
  split; [reflexivity|]. split; [exact Hv|].
  fold minimized. lia.
Qed.

Lemma minimize_never_longer_witness :
  exists out,
    minimize Sample.parse Sample.compress Sample.compress_alone
      (math.log_ref 10) (math.log_ref 2) Sample.if_assign_source true false []
    = (Some out, [])
    /\ (String.length out <= String.length Sample.if_assign_source)%nat.
Proof.
  eexists. split; [vm_compute; reflexivity|].
  refine (proj1 (minimize_never_longer Sample.parse Sample.compress
                   Sample.compress_alone (math.log_ref 10) (math.log_ref 2)
                   Sample.if_assign_source _ true [] [] _)).
  vm_compute. reflexivity.
Defined.

(** X2.  Without forced compression, when the raw text or the minimized
    text has fewer than 39 characters, [minimize] returns the shorter of
    the two (the raw text on a tie) whatever the codecs produce: no stub
    is that short. *)
Theorem short_text_not_compressed
    (parse : string -> option ast.module)
    (compress : codec -> list byte -> list byte)
    (compress_alone : list byte -> list byte)
    (log10 log2 : spec_float -> spec_float)
    (raw_code text : string) (tree : ast.module) (compress_ : bool)
    (names names' : list (option ast.alias)) :
  parse raw_code = Some tree ->
  visit Minimize (loaded_add_semicolon_after "Minimize") log10 log2 tree names
    = (Some text, names') ->
  (Nat.min (String.length raw_code)
     (String.length (Py.strip (Py.whitespace +:+ ";") text)) < 39)%nat ->
  minimize parse compress compress_alone log10 log2 raw_code compress_ false
    names
  = (Some (if (String.length raw_code
               <=? String.length (Py.strip (Py.whitespace +:+ ";") text))%nat
           then raw_code else Py.strip (Py.whitespace +:+ ";") text),
     names').
Proof.
  intros Hparse Hvisit Hshort. unfold minimize. rewrite Hparse, Hvisit.
  cbn [orb]. destruct compress_; [|reflexivity].
  rewrite shorter_stub_short; [reflexivity|].
  destruct (String.length raw_code <=? _)%nat eqn:Hle;
    [apply Nat.leb_le in Hle | apply Nat.leb_gt in Hle]; lia.
Qed.

Lemma short_text_not_compressed_witness :
  minimize Sample.parse Sample.compress Sample.compress_alone
    (math.log_ref 10) (math.log_ref 2) Sample.assign_source true false []
  = (Some "x=1", []).
Proof.
  apply (short_text_not_compressed Sample.parse Sample.compress
           Sample.compress_alone (math.log_ref 10) (math.log_ref 2)
           Sample.assign_source "x=1" Sample.assign_tree true [] []);
    vm_compute; try reflexivity; lia.
Defined.

(** X3.  With forced compression, whatever [minimize] returns begins with
    [exec(__import__('] and has at least 39 characters: a shorter input
    comes back longer than it was. *)
Theorem forced_output_is_a_long_stub
    (parse : string -> option ast.module)
    (compress : codec -> list byte -> list byte)
    (compress_alone : list byte -> list byte)
    (log10 log2 : spec_float -> spec_float)
    (raw_code out : string) (compress_ : bool)
    (names names' : list (option ast.alias)) :
  minimize parse compress compress_alone log10 log2 raw_code compress_ true
    names = (Some out, names') ->
  String.prefix "exec(__import__('" out = true
  /\ (39 <= String.length out)%nat
  /\ ((String.length raw_code < 39)%nat ->
      (String.length raw_code < String.length out)%nat).
Proof.
  unfold minimize.
  destruct (parse raw_code) as [tree|]; [|discriminate].
  destruct (visit Minimize _ log10 log2 tree names) as [[text|] names1];
    [|discriminate].
  cbn [orb]. intros [= <- <-].
  rewrite shorter_stub_fold.
  set (alone := stub "lzma" _). set (stubs := map _ _ ++ _).
  destruct (fold_pick_first_shortest stubs alone) as (i & Hi & _).
  apply list_elem_of_lookup_2, list_elem_of_In in Hi.
  assert (Hstub : exists m payload,
             fold_left pick stubs alone = stub (codec_name m) payload).
  { destruct Hi as [<-|Hi]; [now exists lzma; eexists|].
    apply in_app_or in Hi as [Hi|[<-|[]]].
    - apply in_map_iff in Hi as (m & <- & _). now exists m; eexists.
    - now exists lzma; eexists. }
  destruct Hstub as (m & payload & ->).
  pose proof (stub_length_ge m payload).
  split; [apply stub_prefix|]. split; lia.
Qed.

Lemma forced_output_is_a_long_stub_witness :
  exists out,
    minimize Sample.parse Sample.compress Sample.compress_alone
      (math.log_ref 10) (math.log_ref 2) Sample.assign_source false true []
    = (Some out, [])
    /\ String.prefix "exec(__import__('" out = true
    /\ (String.length Sample.assign_source < String.length out)%nat.
Proof.
  eexists. split; [vm_compute; reflexivity|].
  destruct (forced_output_is_a_long_stub Sample.parse Sample.compress
              Sample.compress_alone (math.log_ref 10) (math.log_ref 2)
              Sample.assign_source _ false [] [] eq_refl) as (Hp & _ & Hl).
  split; [exact Hp|]. apply Hl. vm_compute. lia.
Defined.

(** ** Integer constants that are, or are not, rewritten *)

(** X4.  An integer below [10**5] is written by its digits, whatever libm
    computes: both tests of [visit_Constant] stop at the bound. *)
Theorem small_integers_verbatim
    (log10 log2 : spec_float -> spec_float) (n : Z) (u : unparser) :
  n < 10 ^ 5 ->
  visit_Constant Minimize log10 log2 (ast.Int n) u = write (Py.int_repr n) u.
Proof.
  intros Hn. unfold visit_Constant.
  apply Constant_int_plain; unfold whole_log.
  - now replace (10 ^ 5 <=? n) with false by (symmetry; apply Z.leb_gt; lia).
  - now replace (2 ^ 17 <=? n) with false by (symmetry; apply Z.leb_gt; lia).
Qed.

Lemma small_integers_verbatim_witness :
  visit_Constant Minimize (math.log_ref 10) (math.log_ref 2) (ast.Int 99999)
    (mk_unparser [] 0 0 [] false)
  = mk_unparser ["99999"] 0 0 [] false.
Proof.
  rewrite (small_integers_verbatim (math.log_ref 10) (math.log_ref 2) 99999)
    by lia.
  reflexivity.
Defined.

(** What holds of every exponent from 5 to 308: [10**k] converts to a
    double, [k] as a double is whole and converts back to [k], and the
    text [10**k] is shorter than the digits of the power. *)
Lemma power_of_ten_range (k : Z) :
  5 <= k <= 308 ->
  math.PyLong_AsDouble (10 ^ k) = Some (math.float_of_Z (10 ^ k))
  /\ math.is_whole (math.float_of_Z k) = true
  /\ math.int_of_float (math.float_of_Z k) = Some k
  /\ (String.length ("10**" +:+ Py.int_repr k)
      < String.length (Py.int_repr (10 ^ k)))%nat.
Proof.
  intros Hk.
  assert (Hall :
    forallb
      (fun i : nat =>
         let k := Z.of_nat i in
         match math.PyLong_AsDouble (10 ^ k) with Some _ => true | None => false end
         && math.is_whole (math.float_of_Z k)
         && match math.int_of_float (math.float_of_Z k) with
            | Some j => j =? k
            | None => false
            end
         && (String.length ("10**" +:+ Py.int_repr k)
             <? String.length (Py.int_repr (10 ^ k)))%nat)
      (seq 5 304) = true) by (vm_compute; reflexivity).
  rewrite forallb_forall in Hall.
  specialize (Hall (Z.to_nat k)).
  rewrite Z2Nat.id in Hall by lia. cbv zeta in Hall.
  assert (Hin : In (Z.to_nat k) (seq 5 304)) by (apply in_seq; lia).
  apply Hall in Hin.
  apply andb_prop in Hin as [Hin Hlen].
  apply andb_prop in Hin as [Hin Hint].
  apply andb_prop in Hin as [Hdbl Hwhole].
  repeat split.
  - unfold math.PyLong_AsDouble in *.
    now destruct (math.float_of_Z (10 ^ k)).
  - exact Hwhole.
  - destruct (math.int_of_float (math.float_of_Z k)) as [j|]; [|discriminate].
    apply Z.eqb_eq in Hint. now subst.
  - now apply Nat.ltb_lt.
Qed.

(** X5.  For an exponent [k] from 5 to 308, when libm's [log10] is exact
    at [10**k], the constant [10**k] is written as the three fragments
    [10], [**] and [k], with no parentheses, and that text is shorter than
    the digits of the constant. *)
Theorem power_of_ten_rewritten
    (log10 log2 : spec_float -> spec_float) (k : Z) (u : unparser) :
  5 <= k <= 308 ->
  log10 (math.float_of_Z (10 ^ k)) = math.float_of_Z k ->
  no_pending u ->
  visit_Constant Minimize log10 log2 (ast.Int (10 ^ k)) u
  = appended ["10"; "**"; Py.int_repr k] u
  /\ (String.length ("10**" +:+ Py.int_repr k)
      < String.length (Py.int_repr (10 ^ k)))%nat.
Proof.
  intros Hk Hlog Hu.
  destruct (power_of_ten_range k Hk) as (Hdbl & Hwhole & Hint & Hlen).
  split; [|exact Hlen].
  assert (Hsmall : forall d n w, n < 10 ^ 5 ->
            Constant_int Minimize log10 log2 d n w = write (Py.int_repr n) w).
  { intros d n w Hn. apply Constant_int_plain; unfold whole_log.
    - now replace (10 ^ 5 <=? n) with false by (symmetry; apply Z.leb_gt; lia).
    - now replace (2 ^ 17 <=? n) with false by (symmetry; apply Z.leb_gt; lia). }
  assert (Hpos : 10 ^ 5 <= 10 ^ k) by (apply Z.pow_le_mono_r; lia).
  assert (Hw : whole_log log10 (10 ^ 5) (10 ^ k) = Some (Some k)).
  { unfold whole_log, math.loghelper.
    replace (10 ^ 5 <=? 10 ^ k) with true by (symmetry; apply Z.leb_le; lia).
    replace (10 ^ k <=? 0) with false by (symmetry; apply Z.leb_gt; lia).
    now rewrite Hdbl, Hlog, Hwhole, Hint. }
  unfold visit_Constant. change recursion_depth with (S 63).
  rewrite (Constant_int_power_10 _ _ _ _ k) by exact Hw.
  rewrite traverse_enter_no_pending by exact Hu.
  unfold require_parens, delimit_if.
  replace (Precedence.gt TEST POWER) with false by reflexivity.
  cbv zeta.
  rewrite (traverse_enter_no_pending false u) by exact Hu.
  rewrite Hsmall by lia.
  rewrite traverse_enter_no_pending by exact Hu.
  rewrite Hsmall by lia.
  rewrite !write_appended, !appended_appended.
  replace (Py.int_repr 10) with "10" by reflexivity.
  reflexivity.
Qed.

Lemma power_of_ten_rewritten_witness :
  visit_Constant Minimize (math.log_ref 10) (math.log_ref 2)
    (ast.Int (10 ^ 7)) (mk_unparser ["x"; "="] 0 0 [] false)
  = mk_unparser ["x"; "="; "10"; "**"; "7"] 0 0 [] false.
Proof.
  destruct (power_of_ten_rewritten (math.log_ref 10) (math.log_ref 2) 7
              (mk_unparser ["x"; "="] 0 0 [] false)) as [-> _].
  - lia.
  - vm_compute. reflexivity.
  - exact I.
  - reflexivity.
Defined.

(** ** [__init_subclass__] over several subclasses *)

Lemma set_xor_involutive (s i : gset string) :
  semicolon.set_xor (semicolon.set_xor s i) i = s.
Proof.
  unfold semicolon.set_xor. apply set_eq. intros x.
  rewrite !elem_of_union, !elem_of_difference, !elem_of_union,
    !elem_of_difference.
  destruct (decide (x ∈ s)), (decide (x ∈ i)); tauto.
Qed.

Lemma set_xor_empty (s : gset string) : semicolon.set_xor s ∅ = s.
Proof.
  unfold semicolon.set_xor. apply set_eq. intros x.
  rewrite elem_of_union, !elem_of_difference.
  split; [intros [[H _]|[H _]]; [exact H | now apply not_elem_of_empty in H]|].
  intros H. left. split; [exact H | apply not_elem_of_empty].
Qed.

(** One subclass definition in a runtime where every class holds a
    binding to the one set object [r]: the object is updated in place and
    the new class is bound to it as well. *)
Lemma define_subclass_step (rt : semicolon.runtime) (r : nat)
    (s : gset string) (name base_name : string)
    (ignore : option (gset string)) :
  (forall cls c, semicolon.classes rt !! cls = Some c ->
                 semicolon.own_add_semicolon_after c = Some r) ->
  semicolon.heap rt !! r = Some s ->
  is_Some (semicolon.classes rt !! base_name) ->
  name <> base_name ->
  exists rt',
    semicolon.define_subclass name base_name ignore rt = Some rt'
    /\ (forall cls c, semicolon.classes rt' !! cls = Some c ->
                      semicolon.own_add_semicolon_after c = Some r)
    /\ semicolon.heap rt' !! r
       = Some (semicolon.set_xor s (default ∅ ignore))
    /\ (forall cls, is_Some (semicolon.classes rt' !! cls)
                    <-> cls = name \/ is_Some (semicolon.classes rt !! cls)).
Proof.
  intros Hown Hheap [cb Hb] Hne.
  unfold semicolon.define_subclass, semicolon.__init_subclass__.
  cbn [semicolon.classes semicolon.heap].
  set (c1 := semicolon.mk_class (Some base_name) None).
  set (classes1 := <[name := c1]> (semicolon.classes rt)).
  assert (Hb1 : classes1 !! base_name = Some cb)
    by (unfold classes1; rewrite lookup_insert_ne by congruence; exact Hb).
  assert (Hsize : exists n, size classes1 = S n).
  { destruct (size classes1) as [|n] eqn:Hs; [|now exists n].
    apply map_size_empty_iff in Hs. rewrite Hs in Hb1.
    now rewrite lookup_empty in Hb1. }
  destruct Hsize as [n ->].
  cbn [semicolon.getattr_ref semicolon.classes].
  fold classes1.
  replace (classes1 !! name) with (Some c1)
    by (unfold classes1; now rewrite lookup_insert_eq).
  cbn [semicolon.own_add_semicolon_after semicolon.base c1].
  rewrite Hb1, (Hown _ _ Hb), Hheap.
  eexists. split; [reflexivity|].
  cbn [semicolon.classes semicolon.heap].
  split; [|split].
  - intros cls c. destruct (decide (cls = name)) as [->|Hc].
    + rewrite lookup_insert_eq. now intros [= <-].
    + rewrite lookup_insert_ne by congruence.
      unfold classes1. rewrite lookup_insert_ne by congruence. apply Hown.
  - apply lookup_insert_eq.
  - intros cls. destruct (decide (cls = name)) as [->|Hc].
    + rewrite lookup_insert_eq. split; [now left | now eexists].
    + rewrite lookup_insert_ne by congruence.
      unfold classes1. rewrite lookup_insert_ne by congruence.
      split; [now right | now intros [?|?]].
Qed.

(** A class that holds its own binding resolves to it at once. *)
Lemma getattr_own (rt : semicolon.runtime) (r : nat) (s : gset string)
    (cls : string) :
  (forall cls c, semicolon.classes rt !! cls = Some c ->
                 semicolon.own_add_semicolon_after c = Some r) ->
  semicolon.heap rt !! r = Some s ->
  is_Some (semicolon.classes rt !! cls) ->
  semicolon.getattr rt cls = Some s.
Proof.
  intros Hown Hheap [c Hc]. unfold semicolon.getattr.
  cbn [semicolon.getattr_ref]. now rewrite Hc, (Hown _ _ Hc).
Qed.

Lemma define_subclasses_spec
    (defs : list (string * string * option (gset string))) :
  forall (rt : semicolon.runtime) (r : nat) (s : gset string)
         (known : list string),
    (forall cls c, semicolon.classes rt !! cls = Some c ->
                   semicolon.own_add_semicolon_after c = Some r) ->
    semicolon.heap rt !! r = Some s ->
    (forall cls, In cls known -> is_Some (semicolon.classes rt !! cls)) ->
    bases_defined known defs ->
    exists rt',
      define_subclasses defs rt = Some rt'
      /\ forall cls, In cls (known ++ map (fun d => fst (fst d)) defs) ->
           semicolon.getattr rt' cls
           = Some (fold_left semicolon.set_xor
                     (map (fun d => default ∅ (snd d)) defs) s).
Proof.
  induction defs as [|[[name base_name] ignore] rest IH];
    intros rt r s known Hown Hheap Hknown Hdefs.
  - exists rt. split; [reflexivity|]. intros cls Hin.
    rewrite app_nil_r in Hin. cbn [map fold_left].
    now apply (getattr_own rt r); [| |apply Hknown].
  - destruct Hdefs as (Hbase & Hne & Hrest).
    destruct (define_subclass_step rt r s name base_name ignore Hown Hheap
                (Hknown _ Hbase) Hne) as (rt1 & Hdef & Hown1 & Hheap1 & Hdom).
    destruct (IH rt1 r _ (name :: known) Hown1 Hheap1) as (rt' & Hall & Hget).
    + intros cls [<-|Hin]; apply Hdom; [now left | right; now apply Hknown].
    + exact Hrest.
    + exists rt'. cbn [define_subclasses]. rewrite Hdef.
      split; [exact Hall|].
      intros cls Hin. cbn [map fold_left snd]. apply Hget.
      cbn [map fst] in Hin. apply in_app_or in Hin as [Hin|[<-|Hin]].
      * right. apply in_or_app. now left.
      * now left.
      * right. apply in_or_app. now right.
Qed.

Lemma import_semicolon_invariant :
  (forall cls c,
      semicolon.classes semicolon.import_semicolon !! cls = Some c ->
      semicolon.own_add_semicolon_after c = Some 0%nat)
  /\ semicolon.heap semicolon.import_semicolon !! 0%nat
     = Some semicolon.add_semicolon_after_literal
  /\ (forall cls, In cls ["AddSemicolon"] ->
        is_Some (semicolon.classes semicolon.import_semicolon !! cls)).
Proof.
  rewrite import_semicolon_unfold. cbn [semicolon.classes semicolon.heap].
  split; [|split].
  - intros cls c H. apply lookup_singleton_Some in H as [_ <-]. reflexivity.
  - apply lookup_singleton_eq.
  - intros cls [<-|[]]. rewrite lookup_singleton_eq. now eexists.
Qed.

(** X6.  However many subclasses are defined after [AddSemicolon], each
    from a class defined before it, every class of the family names the
    same set: the literal updated by each [ignore] in turn, a missing
    keyword counting as the empty set. *)
Theorem subclass_ignores_accumulate
    (defs : list (string * string * option (gset string))) :
  bases_defined ["AddSemicolon"] defs ->
  exists rt,
    define_subclasses defs semicolon.import_semicolon = Some rt
    /\ forall cls, In cls ("AddSemicolon" :: map (fun d => fst (fst d)) defs) ->
         semicolon.getattr rt cls
         = Some (fold_left semicolon.set_xor
                   (map (fun d => default ∅ (snd d)) defs)
                   semicolon.add_semicolon_after_literal).
Proof.
  intros Hdefs.
  destruct import_semicolon_invariant as (Hown & Hheap & Hknown).
  exact (define_subclasses_spec defs _ 0%nat _ ["AddSemicolon"]
           Hown Hheap Hknown Hdefs).
Qed.

Lemma subclass_ignores_accumulate_witness :
  exists rt,
    define_subclasses
      [("Minimize", "AddSemicolon", Some {[ "Import" ]});
       ("Plain", "Minimize", None)] semicolon.import_semicolon = Some rt
    /\ semicolon.getattr rt "Plain"
       = Some (semicolon.set_xor
                 (semicolon.set_xor semicolon.add_semicolon_after_literal
                    {[ "Import" ]}) ∅).
Proof.
  destruct (subclass_ignores_accumulate
              [("Minimize", "AddSemicolon", Some {[ "Import" ]});
               ("Plain", "Minimize", None)]) as (rt & Hdef & Hget).
  - cbn. repeat split; auto; discriminate.
  - exists rt. split; [exact Hdef|]. apply Hget. cbn. auto.
Defined.

(** X7.  The update is its own inverse: once a second subclass is defined
    with the [ignore] set of the first, every class of the family names
    the literal again, so the names the first subclass ignored get their
    [;] back in all of them. *)
Theorem repeated_ignore_restores_literal
    (name1 name2 base2 : string) (ignore : gset string) :
  name1 <> "AddSemicolon" ->
  name2 <> base2 ->
  base2 = "AddSemicolon" \/ base2 = name1 ->
  exists rt,
    define_subclasses
      [(name1, "AddSemicolon", Some ignore); (name2, base2, Some ignore)]
      semicolon.import_semicolon = Some rt
    /\ forall cls, In cls ["AddSemicolon"; name1; name2] ->
         semicolon.getattr rt cls = Some semicolon.add_semicolon_after_literal.
Proof.
  intros H1 H2 Hbase.
  destruct import_semicolon_invariant as (Hown & Hheap & Hknown).
  destruct (define_subclasses_spec
              [(name1, "AddSemicolon", Some ignore); (name2, base2, Some ignore)]
              _ 0%nat _ ["AddSemicolon"] Hown Hheap Hknown)
    as (rt & Hdef & Hget).
  - cbn. repeat split; auto.
    destruct Hbase as [->| ->]; auto.
  - exists rt. split; [exact Hdef|]. intros cls Hin.
    rewrite (Hget cls) by exact Hin.
    cbn [map fold_left snd default]. unfold id.
    now rewrite set_xor_involutive.
Qed.

Lemma repeated_ignore_restores_literal_witness :
  exists rt,
    define_subclasses
      [("Minimize", "AddSemicolon", Some {[ "Import" ]});
       ("Other", "AddSemicolon", Some {[ "Import" ]})]
      semicolon.import_semicolon = Some rt
    /\ semicolon.getattr rt "Minimize"
       = Some semicolon.add_semicolon_after_literal.
Proof.
  destruct (repeated_ignore_restores_literal "Minimize" "Other" "AddSemicolon"
              {[ "Import" ]}) as (rt & Hdef & Hget).
  - discriminate.
  - discriminate.
  - now left.
  - exists rt. split; [exact Hdef|]. apply Hget. cbn. auto.
Defined.

(** ** The import buffer written out *)

Lemma string_append_assoc (a b c : string) : (a +:+ b) +:+ c = a +:+ (b +:+ c).
Proof.
  induction a as [|x a IH]; [reflexivity|].
  change (String x ((a +:+ b) +:+ c) = String x (a +:+ (b +:+ c))).
  now rewrite IH.
Qed.

Lemma string_append_nil_r (a : string) : a +:+ "" = a.
Proof.
  induction a as [|x a IH]; [reflexivity|].
  change (String x (a +:+ "") = String x a). now rewrite IH.
Qed.

Lemma concat_app (a b : list string) :
  Py.concat (a ++ b) = Py.concat a +:+ Py.concat b.
Proof.
  induction a as [|x a IH]; [reflexivity|].
  change (x +:+ Py.concat (a ++ b) = (x +:+ Py.concat a) +:+ Py.concat b).
  now rewrite IH, string_append_assoc.
Qed.

Lemma visit_alias_appended (a : ast.alias) (u : unparser) :
  visit_alias a u = appended (alias_fragments a) u.
Proof.
  unfold visit_alias, alias_fragments.
  destruct (ast.asname a) as [[|c r]|]; rewrite !write_appended;
    now rewrite ?appended_appended.
Qed.

Lemma interleave_visit_alias (names : list ast.alias) (u : unparser) :
  interleave (write ",") visit_alias names u
  = appended (import_list_fragments names) u.
Proof.
  destruct names as [|a rest]; cbn [interleave import_list_fragments].
  - now rewrite appended_nil.
  - rewrite visit_alias_appended, <- appended_appended.
    generalize (appended (alias_fragments a) u). clear a u.
    induction rest as [|b rest IH]; intros w; cbn [fold_left flat_map].
    + now rewrite appended_nil.
    + rewrite IH, visit_alias_appended, write_appended.
      now rewrite !appended_appended.
Qed.

Lemma fill_set_import_names (text : string)
    (f : list (option ast.alias) -> list (option ast.alias)) (u : unparser) :
  fill Minimize text (set_import_names f u)
  = set_import_names f (fill Minimize text u).
Proof.
  destruct u as [src ind mem names r]. unfold fill.
  destruct (match text with
            | EmptyString => Some false
            | String _ _ =>
                match Py.first_word (Py.strip_ws text) with
                | Some w => Some (existsb (String.eqb w) blocks)
                | None => None
                end
            end) as [b|]; [|reflexivity].
  unfold set_import_names, source_ends_with_colon, maybe_newline. cbn.
  destruct (b || negb (ind =? mem)%nat
            || match last src with
               | Some t => (t =? ":")%string
               | None => false
               end); [|reflexivity].
  now destruct src.
Qed.

Lemma fill_import_names (text : string) (u : unparser) :
  import_names (fill Minimize text u) = import_names u.
Proof.
  destruct u as [src ind mem names r]. unfold fill.
  destruct (match text with
            | EmptyString => Some false
            | String _ _ =>
                match Py.first_word (Py.strip_ws text) with
                | Some w => Some (existsb (String.eqb w) blocks)
                | None => None
                end
            end) as [b|]; [|reflexivity].
  unfold source_ends_with_colon, maybe_newline. cbn.
  destruct (b || negb (ind =? mem)%nat
            || match last src with
               | Some t => (t =? ":")%string
               | None => false
               end); [|reflexivity].
  now destruct src.
Qed.

Lemma omap_id_pending (names : list ast.alias) :
  omap id (map Some names ++ [None]) = names.
Proof.
  induction names as [|a names IH]; [reflexivity|].
  cbn [map app]. cbn [omap list_omap id]. now f_equal.
Qed.

Lemma import_list_text (names : list ast.alias) :
  Py.concat (import_list_fragments names) = Py.join "," (map alias_text names).
Proof.
  destruct names as [|a rest]; [reflexivity|].
  cbn [import_list_fragments]. rewrite concat_app. fold (alias_text a).
  revert a. induction rest as [|b rest IH]; intros a.
  - change (alias_text a +:+ "" = alias_text a).
    apply string_append_nil_r.
  - cbn [flat_map map]. change ("," :: alias_fragments b ++ ?l)
      with (["," ] ++ alias_fragments b ++ l).
    rewrite !concat_app. fold (alias_text b).
    change (Py.join "," (alias_text a :: alias_text b :: map alias_text rest))
      with (alias_text a +:+ "," +:+ Py.join "," (map alias_text (b :: rest))).
    now rewrite <- (IH b).
Qed.

(** X8.  When a node that is not an [Import] is entered while names are
    pending, [traverse] starts one [import] statement with [fill], writes
    every pending name in the order the import statements gave them,
    separated by commas and each with its [as] part, then [;], and leaves
    the buffer empty. *)
Theorem pending_imports_flushed (names : list ast.alias) (u : unparser) :
  names <> [] ->
  import_names u = map Some names ->
  traverse_enter Minimize false u
  = set_import_names (fun _ => [])
      (appended (import_list_fragments names ++ [";"])
         (fill Minimize "import " u))
  /\ Py.concat (import_list_fragments names ++ [";"])
     = Py.join "," (map alias_text names) +:+ ";".
Proof.
  intros Hne Hnames. split.
  - unfold traverse_enter. rewrite Hnames.
    destruct (exists_last Hne) as (init & a & ->).
    rewrite map_app. cbn [map]. rewrite last_snoc. cbn zeta.
    rewrite fill_set_import_names.
    replace (omap id (import_names
               (set_import_names (fun l => l ++ [None])
                  (fill Minimize "import " u))))
      with (init ++ [a]).
    + rewrite interleave_visit_alias, write_appended, appended_appended.
      now destruct (fill Minimize "import " u).
    + change (import_names (set_import_names ?f ?w)) with (f (import_names w)).
      rewrite fill_import_names, Hnames.
      cbv beta. now rewrite omap_id_pending.
  - rewrite concat_app, import_list_text. reflexivity.
Qed.

Lemma pending_imports_flushed_witness :
  traverse_enter Minimize false
    (mk_unparser ["x=1"; ";"] 0 0
       [Some Sample.os; Some (ast.mk_alias "sys" (Some "s"))] false)
  = mk_unparser ["x=1"; ";"; "import "; "os"; ","; "sys"; " as s"; ";"]
      0 0 [] false.
Proof.
  destruct (pending_imports_flushed
              [Sample.os; ast.mk_alias "sys" (Some "s")]
              (mk_unparser ["x=1"; ";"] 0 0
                 [Some Sample.os; Some (ast.mk_alias "sys" (Some "s"))] false))
    as [-> _].
  - discriminate.
  - reflexivity.
  - reflexivity.
Defined.

(** ** [post_process] as a whole *)

Lemma unmarked_nil (start : nat) (lines : list string) :
  unmarked [] start lines = lines.
Proof.
  revert start. induction lines as [|l rest IH]; intros start;
    cbn [unmarked]; [reflexivity|].
  rewrite bool_decide_eq_false_2 by apply not_elem_of_nil.
  now rewrite IH.
Qed.

Lemma unmarked_ext (dels dels' : list nat) (start : nat) (lines : list string) :
  (forall i, (start <= i)%nat -> i ∈ dels <-> i ∈ dels') ->
  unmarked dels start lines = unmarked dels' start lines.
Proof.
  revert start. induction lines as [|l rest IH]; intros start H;
    cbn [unmarked]; [reflexivity|].
  rewrite (IH (S start)) by (intros i Hi; apply H; lia).
  now rewrite (bool_decide_ext (start ∈ dels) (start ∈ dels')) by (apply H; lia).
Qed.

Lemma unmarked_app_skip (dels : list nat) (start : nat) (a b : list string) :
  (forall i, (start <= i < start + length a)%nat -> i ∉ dels) ->
  unmarked dels start (a ++ b) = a ++ unmarked dels (start + length a) b.
Proof.
  revert start. induction a as [|x a IH]; intros start H;
    cbn [app unmarked length].
  - now rewrite Nat.add_0_r.
  - rewrite bool_decide_eq_false_2 by (apply H; cbn [length]; lia).
    rewrite IH by (intros i Hi; apply H; cbn [length]; lia).
    now replace (S start + length a)%nat with (start + S (length a))%nat by lia.
Qed.

(** The deletion pass over increasing marks that fall inside the buffer
    never fails, and leaves the lines that are not marked. *)
Lemma delete_marked_unmarked (dels : list nat) :
  StronglySorted lt dels ->
  forall (off : nat) (cur : list string),
    Forall (fun d => (off <= d < off + length cur)%nat) dels ->
    PostProcess.delete_marked dels (Z.of_nat off) cur
    = Some (unmarked dels off cur).
Proof.
  induction 1 as [|d rest Hsorted IH Hlt]; intros off cur Hb.
  - cbn. now rewrite unmarked_nil.
  - apply Forall_cons in Hb as [Hd Hb].
    rewrite Forall_forall in Hlt, Hb.
    cbn [PostProcess.delete_marked]. unfold PostProcess.del.
    replace ((0 <=? Z.of_nat d - Z.of_nat off)
             && (Z.of_nat d - Z.of_nat off <? Z.of_nat (length cur)))
      with true
      by (symmetry; apply andb_true_intro; split;
          [apply Z.leb_le | apply Z.ltb_lt]; lia).
    replace (Z.to_nat (Z.of_nat d - Z.of_nat off)) with (d - off)%nat by lia.
    replace (Z.of_nat off + 1) with (Z.of_nat (S off)) by lia.
    destruct (lookup_lt_is_Some_2 cur (d - off)) as [x Hx]; [lia|].
    rewrite IH.
    + f_equal. rewrite delete_take_drop.
      rewrite <- (take_drop_middle cur (d - off) x Hx) at 3.
      assert (Hlen : length (take (d - off) cur) = (d - off)%nat)
        by (rewrite length_take; lia).
      rewrite !unmarked_app_skip.
      * f_equal. rewrite Hlen.
        replace (off + (d - off))%nat with d by lia.
        replace (S off + (d - off))%nat with (S d) by lia.
        cbn [unmarked].
        rewrite bool_decide_eq_true_2 by apply list_elem_of_here.
        apply unmarked_ext. intros i Hi. rewrite elem_of_cons.
        split; [auto | intros [->|Hin]; [lia | exact Hin]].
      * rewrite Hlen. intros i Hi Hin.
        apply elem_of_cons in Hin as [->|Hin]; [lia|].
        apply Hlt in Hin. lia.
      * rewrite Hlen. intros i Hi Hin. apply Hlt in Hin. lia.
    + apply Forall_forall. intros d' Hd'.
      pose proof (Hlt d' Hd'). pose proof (Hb d' Hd').
      rewrite length_delete by (now exists x).
      lia.
Qed.

Lemma unmarked_flat_map (dels : list nat) (g : nat -> string)
    (lines : list string) (start : nat) :
  (forall k l, lines !! k = Some l -> l = g (start + k)%nat) ->
  unmarked dels start lines
  = flat_map (fun i => if bool_decide (i ∈ dels) then [] else [g i])
      (seq start (length lines)).
Proof.
  revert start. induction lines as [|l rest IH]; intros start H;
    cbn [unmarked length seq flat_map]; [reflexivity|].
  rewrite (IH (S start))
    by (intros k x Hk; rewrite (H (S k) x Hk); f_equal; lia).
  rewrite (H 0%nat l eq_refl), Nat.add_0_r.
  now destruct (bool_decide (start ∈ dels)).
Qed.

Lemma flat_map_ext_seq {B : Type} (f g : nat -> list B) (start len : nat) :
  (forall i, (start <= i < start + len)%nat -> f i = g i) ->
  flat_map f (seq start len) = flat_map g (seq start len).
Proof.
  revert start. induction len as [|len IH]; intros start H;
    cbn [seq flat_map]; [reflexivity|].
  rewrite H by lia. now rewrite IH by (intros i Hi; apply H; lia).
Qed.

Lemma sorted_marks (P : nat -> bool) (hs : list nat) :
  StronglySorted lt hs -> StronglySorted lt (map S (filter P hs)).
Proof.
  induction 1 as [|h rest Hsorted IH Hlt]; [constructor|].
  rewrite filter_cons. destruct (decide (P h)); [|exact IH].
  cbn [map]. constructor; [exact IH|].
  apply Forall_forall. intros x Hx.
  apply list_elem_of_In, in_map_iff in Hx as (y & <- & Hy).
  apply list_elem_of_In, list_elem_of_filter in Hy as [_ Hy].
  rewrite Forall_forall in Hlt. apply Hlt in Hy. lia.
Qed.

(** Whenever the last line is no header, [post_process] returns the
    lines of [compacted], joined. *)
Lemma post_process_compacted (source : string) :
  headers_followed (PostProcess.rstrip_lines source) ->
  PostProcess.post_process source
  = Some (Py.join Py.NL (compacted (PostProcess.rstrip_lines source))).
Proof.
  intros Hlast. unfold PostProcess.post_process, PostProcess.compact.
  set (lines := PostProcess.rstrip_lines source) in *.
  set (hs := PostProcess.headers_from 0 lines).
  assert (Hhs : forall h, In h hs <->
            exists l, lines !! h = Some l /\ Py.endswith_char ":" l = true).
  { intros h. unfold hs. rewrite headers_from_spec, Nat.sub_0_r.
    split; intros (l & H); exists l; [tauto | split; [lia | tauto]]. }
  destruct (loop_spec lines hs (headers_from_sorted lines 0))
    with (b := 0%nat) (cur := lines) (to_del := @nil nat)
    as (lines' & Hloop & Hlen & Hother & Hhead).
  { intros h Hh. apply Hhs in Hh as (l & Hl & He).
    eapply header_has_next; eauto. }
  { apply Forall_forall. intros; lia. }
  { reflexivity. }
  { reflexivity. }
  rewrite Hloop. cbn [app].
  change 0 with (Z.of_nat 0).
  rewrite delete_marked_unmarked.
  - f_equal. f_equal.
    rewrite (unmarked_flat_map _ (compacted_line lines)).
    + rewrite Hlen. unfold compacted. apply flat_map_ext_seq.
      intros i Hi.
      replace (bool_decide (i ∈ map S (filter (merges lines) hs)))
        with (match i with O => false | S j => spliced_onto lines j end);
        [reflexivity|].
      symmetry. destruct i as [|j].
      * apply bool_decide_eq_false_2. intros Hin.
        apply list_elem_of_In, in_map_iff in Hin as (y & Hy & _). discriminate.
      * destruct (lookup_lt_is_Some_2 lines j) as [l Hl]; [lia|].
        unfold spliced_onto. rewrite Hl. cbn [default]. unfold id.
        destruct (Py.endswith_char ":" l && merges lines j) eqn:Hs.
        -- apply andb_prop in Hs as [He Hm].
           apply bool_decide_eq_true_2, list_elem_of_In, in_map_iff.
           exists j. split; [reflexivity|].
           apply list_elem_of_In, list_elem_of_filter. split.
           ++ now rewrite Hm.
           ++ apply list_elem_of_In, Hhs. now exists l.
        -- apply bool_decide_eq_false_2. intros Hin.
           apply list_elem_of_In, in_map_iff in Hin as (y & [= ->] & Hy).
           apply list_elem_of_In, list_elem_of_filter in Hy as [Hm Hy].
           apply list_elem_of_In, Hhs in Hy as (l' & Hl' & He).
           rewrite Hl in Hl'. injection Hl' as <-.
           rewrite He in Hs. cbn in Hs. rewrite Hs in Hm. exact Hm.
    + intros k l Hk. cbn [Nat.add]. unfold compacted_line, spliced_onto.
      pose proof (lookup_lt_Some _ _ _ Hk) as Hlt. rewrite Hlen in Hlt.
      destruct (lookup_lt_is_Some_2 lines k) as [l0 Hl0]; [lia|].
      rewrite Hl0. cbn [default]. unfold id.
      destruct (Py.endswith_char ":" l0) eqn:He; cbn [andb].
      * rewrite Hhead in Hk by (apply Hhs; now exists l0).
        rewrite Hl0 in Hk. cbn [default] in Hk. unfold id in Hk.
        injection Hk as <-. reflexivity.
      * rewrite Hother in Hk.
        -- rewrite Hl0 in Hk. now injection Hk as <-.
        -- intros Hin. apply Hhs in Hin as (l' & Hl' & He').
           rewrite Hl0 in Hl'. injection Hl' as <-. congruence.
  - apply sorted_marks, headers_from_sorted.
  - apply Forall_forall. intros d Hd.
    apply list_elem_of_In, in_map_iff in Hd as (h & <- & Hh).
    apply list_elem_of_In, list_elem_of_filter in Hh as [_ Hh].
    apply list_elem_of_In, Hhs in Hh as (l & Hl & He).
    pose proof (header_has_next lines h l Hlast Hl He). lia.
Qed.

Lemma loop_length (ls2 : Z) (hs : list nat) :
  forall cur to_del cur' to_del',
    PostProcess.loop ls2 hs (cur, to_del) = Some (cur', to_del') ->
    length cur' = length cur.
Proof.
  induction hs as [|h rest IH]; intros cur to_del cur' to_del' H;
    cbn [PostProcess.loop] in H.
  - now injection H as <- _.
  - destruct (PostProcess.step ls2 h (cur, to_del)) as [[cur1 td1]|] eqn:Hs;
      [|discriminate].
    apply IH in H. rewrite H.
    unfold PostProcess.step in Hs.
    destruct (PostProcess.getitem cur h); [|discriminate].
    destruct (PostProcess.getitem cur (h + 1)); [|discriminate].
    destruct (negb _ && _); injection Hs as <- _; [reflexivity|].
    apply length_insert.
Qed.

Lemma loop_app (ls2 : Z) (hs1 hs2 : list nat) (s : PostProcess.loop_state) :
  PostProcess.loop ls2 (hs1 ++ hs2) s
  = match PostProcess.loop ls2 hs1 s with
    | Some s' => PostProcess.loop ls2 hs2 s'
    | None => None
    end.
Proof.
  revert s. induction hs1 as [|h rest IH]; intros s; cbn [app PostProcess.loop];
    [reflexivity|].
  destruct (PostProcess.step ls2 h s); [apply IH | reflexivity].
Qed.

Lemma headers_from_snoc (lines : list string) (l : string) (start : nat) :
  PostProcess.headers_from start (lines ++ [l])
  = PostProcess.headers_from start lines
    ++ (if Py.endswith_char ":" l then [(start + length lines)%nat] else []).
Proof.
  revert start. induction lines as [|x rest IH]; intros start;
    cbn [app PostProcess.headers_from length].
  - rewrite Nat.add_0_r. now destruct (Py.endswith_char ":" l).
  - rewrite IH.
    replace (S start + length rest)%nat with (start + S (length rest))%nat by lia.
    now destruct (Py.endswith_char ":" x).
Qed.

(** X9.  [post_process] fails, with the [IndexError] of [lines[i + 1]],
    exactly when the last line of the text, once stripped, ends in a
    colon.  Otherwise it returns, joined by newlines, the stripped lines
    in their order, where a header that splices carries the stripped text
    of the line after it and that line is dropped. *)
Theorem post_process_result (source : string) :
  let lines := PostProcess.rstrip_lines source in
  (PostProcess.post_process source = None
   <-> Py.endswith_char ":" (default "" (last lines)) = true)
  /\ (Py.endswith_char ":" (default "" (last lines)) = false ->
      PostProcess.post_process source = Some (Py.join Py.NL (compacted lines))).
Proof.
  intros lines. split; [|apply post_process_compacted].
  split.
  - intros Hnone.
    destruct (Py.endswith_char ":" (default "" (last lines))) eqn:He;
      [reflexivity|].
    rewrite (post_process_compacted source He) in Hnone. discriminate.
  - intros He. unfold PostProcess.post_process, PostProcess.compact.
    fold lines.
    destruct (exists_last (l := lines)) as (init & l & Hl).
    { intros Hnil. rewrite Hnil in He. discriminate. }
    rewrite Hl in *. rewrite last_snoc in He. cbn [default] in He.
    unfold id in He.
    rewrite headers_from_snoc, He, loop_app.
    destruct (PostProcess.loop _ (PostProcess.headers_from 0 init) _)
      as [[cur td]|] eqn:Hloop; [|reflexivity].
    apply loop_length in Hloop.
    cbn [PostProcess.loop]. unfold PostProcess.step, PostProcess.getitem.
    rewrite length_app in Hloop. cbn [length] in Hloop.
    destruct (cur !! (0 + length init)%nat); [|reflexivity].
    now rewrite lookup_ge_None_2 by lia.
Qed.

(** X10.  A text none of whose stripped lines ends in a colon comes back
    from [post_process] with every line intact and in place, less the
    blanks and semicolons that ended it. *)
Theorem post_process_without_headers (source : string) :
  Forall (fun l => Py.endswith_char ":" l = false)
    (PostProcess.rstrip_lines source) ->
  PostProcess.post_process source
  = Some (Py.join Py.NL (PostProcess.rstrip_lines source)).
Proof.
  intros Hall. unfold PostProcess.post_process, PostProcess.compact.
  generalize dependent (PostProcess.rstrip_lines source). intros lines Hall.
  replace (PostProcess.headers_from 0 lines) with (@nil nat); [reflexivity|].
  symmetry. generalize 0%nat.
  induction Hall as [|l rest Hl _ IH]; intros start;
    cbn [PostProcess.headers_from]; [reflexivity|].
  rewrite Hl. apply IH.
Qed.

Lemma post_process_without_headers_witness :
  PostProcess.post_process ("x=1;" +:+ Py.NL +:+ "y=2;  " +:+ Py.NL)
  = Some ("x=1" +:+ Py.NL +:+ "y=2").
Proof.
  rewrite post_process_without_headers; [reflexivity|].
  repeat constructor.
Defined.

(** ** The value of a float constant *)

Lemma list_ascii_app (a b : string) :
  list_ascii_of_string (a +:+ b)
  = (list_ascii_of_string a ++ list_ascii_of_string b)%list.
Proof.
  induction a as [|c a IH]; [reflexivity|].
  change (c :: list_ascii_of_string (a +:+ b)
          = c :: (list_ascii_of_string a ++ list_ascii_of_string b)%list).
  now rewrite IH.
Qed.

Lemma list_ascii_length (a : string) :
  length (list_ascii_of_string a) = String.length a.
Proof. induction a as [|c a IH]; cbn; [reflexivity | now rewrite IH]. Qed.

Lemma all_digits_app (a b : string) :
  decimal.all_digits (a +:+ b)
  = decimal.all_digits a && decimal.all_digits b.
Proof. unfold decimal.all_digits. now rewrite list_ascii_app, forallb_app. Qed.

Lemma fold_digits_shift (l : list ascii) (a : Z) :
  fold_left (fun acc c => 10 * acc + Z.of_nat (Py.ord c - 48)) l a
  = a * 10 ^ Z.of_nat (length l)
    + fold_left (fun acc c => 10 * acc + Z.of_nat (Py.ord c - 48)) l 0.
Proof.
  revert a. induction l as [|c l IH]; intros a; cbn [fold_left length].
  - cbn. lia.
  - rewrite IH, (IH (10 * 0 + _)).
    rewrite Nat2Z.inj_succ, Z.pow_succ_r by lia. ring.
Qed.

Lemma int_of_digits_app (a b : string) :
  decimal.int_of_digits (a +:+ b)
  = decimal.int_of_digits a * 10 ^ Z.of_nat (String.length b)
    + decimal.int_of_digits b.
Proof.
  unfold decimal.int_of_digits.
  rewrite list_ascii_app, fold_left_app, fold_digits_shift.
  now rewrite list_ascii_length.
Qed.

Lemma int_of_digits_zeros (k : nat) :
  decimal.int_of_digits (Py.repeat_char "0" k) = 0.
Proof.
  induction k as [|k IH]; [reflexivity|].
  change (Py.repeat_char "0" (S k)) with ("0" +:+ Py.repeat_char "0" k).
  rewrite int_of_digits_app, IH. reflexivity.
Qed.

Lemma int_of_digits_nonneg (a : string) : 0 <= decimal.int_of_digits a.
Proof.
  unfold decimal.int_of_digits.
  assert (H : forall l acc, 0 <= acc ->
            0 <= fold_left (fun acc c => 10 * acc + Z.of_nat (Py.ord c - 48))
                   l acc).
  { induction l as [|c l IH]; intros acc Hacc; cbn [fold_left]; [exact Hacc|].
    apply IH. lia. }
  apply H. lia.
Qed.

Lemma fold_digits_uint (d : Decimal.uint) :
  forall acc : positive,
    fold_left (fun acc c => 10 * acc + Z.of_nat (Py.ord c - 48))
      (list_ascii_of_string (NilEmpty.string_of_uint d)) (Z.pos acc)
    = Z.pos (Pos.of_uint_acc d acc).
Proof.
  induction d as [|d IH|d IH|d IH|d IH|d IH|d IH|d IH|d IH|d IH|d IH];
    intros acc;
    cbn [NilEmpty.string_of_uint list_ascii_of_string fold_left Pos.of_uint_acc];
    [reflexivity|..];
    rewrite <- IH; f_equal;
    match goal with
    | |- context [Z.of_nat ?n] =>
        let v := eval vm_compute in (Z.of_nat n) in
        change (Z.of_nat n) with v
    end; lia.
Qed.

Lemma int_of_digits_uint (d : Decimal.uint) :
  decimal.int_of_digits (NilEmpty.string_of_uint d) = Z.of_N (Pos.of_uint d).
Proof.
  unfold decimal.int_of_digits.
  induction d as [|d IH|d IH|d IH|d IH|d IH|d IH|d IH|d IH|d IH|d IH];
    cbn [NilEmpty.string_of_uint list_ascii_of_string fold_left Pos.of_uint];
    [reflexivity | exact IH | ..];
    match goal with
    | |- context [10 * 0 + Z.of_nat ?n] =>
        let v := eval vm_compute in (10 * 0 + Z.of_nat n) in
        change (10 * 0 + Z.of_nat n) with v
    end; apply fold_digits_uint.
Qed.

(** [int(repr(n))] is [n]. *)
Lemma int_of_digits_int_repr (n : Z) :
  0 <= n -> decimal.int_of_digits (Py.int_repr n) = n.
Proof.
  intros Hn. unfold Py.int_repr. destruct n as [|p|p]; [reflexivity| |lia].
  cbn [Z.to_int NilEmpty.string_of_int].
  now rewrite int_of_digits_uint, DecimalPos.Unsigned.of_to.
Qed.
Lemma point_or_digit_facts (c : ascii) :
  point_or_digit c = true ->
  Py.isspace c = false /\ decimal.lower c = c /\ c <> "_"%char
  /\ c <> "-"%char /\ c <> "+"%char /\ c <> "i"%char /\ c <> "s"%char
  /\ c <> "n"%char.
Proof.
  destruct c as [[] [] [] [] [] [] [] []]; intros H;
    try discriminate H; repeat split; try reflexivity; discriminate.
Qed.

Lemma all_digits_plain (a b : string) :
  decimal.all_digits a = true -> decimal.all_digits b = true ->
  forallb point_or_digit (list_ascii_of_string (a +:+ "." +:+ b)) = true.
Proof.
  unfold decimal.all_digits. intros Ha Hb.
  rewrite list_ascii_app, forallb_app.
  change (list_ascii_of_string ("." +:+ b)) with ("."%char :: list_ascii_of_string b).
  cbn [forallb]. unfold point_or_digit at 2. cbn [Ascii.eqb].
  rewrite forallb_forall in Ha, Hb.
  apply andb_true_intro. split.
  - apply forallb_forall. intros c Hc. unfold point_or_digit.
    now rewrite (Ha c Hc).
  - rewrite orb_true_r. cbn [andb].
    apply forallb_forall. intros c Hc. unfold point_or_digit.
    now rewrite (Hb c Hc).
Qed.

Lemma lstrip_by_id (p : ascii -> bool) (s : string) :
  forallb (fun c => negb (p c)) (list_ascii_of_string s) = true ->
  Py.lstrip_by p s = s.
Proof.
  destruct s as [|c s]; [reflexivity|]. cbn [list_ascii_of_string forallb].
  intros H. apply andb_prop in H as [H _]. cbn [Py.lstrip_by].
  now destruct (p c).
Qed.

Lemma rstrip_by_id (p : ascii -> bool) (s : string) :
  forallb (fun c => negb (p c)) (list_ascii_of_string s) = true ->
  Py.rstrip_by p s = s.
Proof.
  induction s as [|c s IH]; [reflexivity|]. cbn [list_ascii_of_string forallb].
  intros H. apply andb_prop in H as [Hc H]. cbn [Py.rstrip_by].
  rewrite (IH H). destruct s; [|reflexivity]. now destruct (p c).
Qed.

Lemma plain_strip_ws (s : string) :
  forallb point_or_digit (list_ascii_of_string s) = true -> Py.strip_ws s = s.
Proof.
  intros H.
  assert (H' : forallb (fun c => negb (Py.isspace c)) (list_ascii_of_string s)
               = true).
  { rewrite forallb_forall in *. intros c Hc.
    now rewrite (proj1 (point_or_digit_facts c (H c Hc))). }
  unfold Py.strip_ws, Py.strip_by.
  now rewrite (lstrip_by_id _ _ H'), (rstrip_by_id _ _ H').
Qed.

Lemma plain_lower_str (s : string) :
  forallb point_or_digit (list_ascii_of_string s) = true ->
  decimal.lower_str s = s.
Proof.
  induction s as [|c s IH]; [reflexivity|]. cbn [list_ascii_of_string forallb].
  intros H. apply andb_prop in H as [Hc H]. cbn [decimal.lower_str].
  rewrite (IH H).
  now rewrite (proj1 (proj2 (point_or_digit_facts c Hc))).
Qed.

Lemma plain_replace (s : string) :
  forallb point_or_digit (list_ascii_of_string s) = true ->
  Py.replace "_" "" s = s.
Proof.
  unfold Py.replace. generalize (S (String.length s)). intros fuel.
  revert s. induction fuel as [|fuel IH]; intros s H; [reflexivity|].
  cbn [Py.replace_go].
  destruct s as [|c s]; [reflexivity|].
  cbn [list_ascii_of_string forallb] in H. apply andb_prop in H as [Hc H].
  destruct (point_or_digit_facts c Hc) as (_ & _ & Hne & _).
  replace (String.prefix "_" (String c s)) with false.
  - now rewrite (IH s H).
  - cbn [String.prefix]. destruct (ascii_dec "_" c); [congruence | reflexivity].
Qed.

Lemma plain_head (s : string) (c : ascii) (r : string) :
  s = String c r -> point_or_digit c = true ->
  decimal.take_sign s = (false, s)
  /\ (s =? "inf")%string = false
  /\ (s =? "infinity")%string = false
  /\ match s with
     | String "s" r => (true, r)
     | _ => (false, s)
     end = (false, s)
  /\ String.prefix "nan" s = false.
Proof.
  intros -> Hc.
  destruct c as [[] [] [] [] [] [] [] []]; try discriminate Hc;
    repeat split; reflexivity.
Qed.

Lemma span_digits_all (a : string) :
  decimal.all_digits a = true -> decimal.span_digits a = (a, "").
Proof.
  unfold decimal.all_digits.
  induction a as [|c a IH]; [reflexivity|]. cbn [list_ascii_of_string forallb].
  intros H. apply andb_prop in H as [Hc H]. cbn [decimal.span_digits].
  now rewrite Hc, (IH H).
Qed.

Lemma span_digits_point (a b : string) :
  decimal.all_digits a = true ->
  decimal.span_digits (a +:+ String "." b) = (a, String "." b).
Proof.
  unfold decimal.all_digits.
  induction a as [|c a IH]; [reflexivity|]. cbn [list_ascii_of_string forallb].
  intros H. apply andb_prop in H as [Hc H].
  change (String c a +:+ String "." b) with (String c (a +:+ String "." b)).
  cbn [decimal.span_digits]. now rewrite Hc, (IH H).
Qed.

(** [Decimal] reads digits, a point and digits as the number they
    spell. *)
Lemma of_str_point (a b : string) :
  decimal.all_digits a = true -> decimal.all_digits b = true ->
  a +:+ b <> "" ->
  decimal.of_str (a +:+ "." +:+ b)
  = Some (decimal.Finite false (Py.int_repr (decimal.int_of_digits (a +:+ b)))
            (- Z.of_nat (String.length b))).
Proof.
  intros Ha Hb Hne.
  pose proof (all_digits_plain a b Ha Hb) as Hplain.
  assert (Hhead : exists c r, a +:+ "." +:+ b = String c r
                              /\ point_or_digit c = true).
  { destruct a as [|c a]; [now exists "."%char, b|].
    exists c, (a +:+ "." +:+ b). split; [reflexivity|].
    unfold decimal.all_digits in Ha. cbn [list_ascii_of_string forallb] in Ha.
    apply andb_prop in Ha as [Hc _]. unfold point_or_digit. now rewrite Hc. }
  destruct Hhead as (c & r & Hs & Hc).
  destruct (plain_head _ c r Hs Hc) as (Hsign & Hinf & Hinfinity & Hsignal & Hnan).
  unfold decimal.of_str.
  rewrite (plain_strip_ws _ Hplain), (plain_replace _ Hplain),
    (plain_lower_str _ Hplain).
  rewrite Hsign. cbv beta iota zeta.
  rewrite Hinf, Hinfinity. cbn [orb].
  rewrite Hsignal. cbv beta iota zeta.
  rewrite Hnan.
  change ("." +:+ b) with (String "." b).
  rewrite (span_digits_point a b Ha). cbv beta iota zeta.
  rewrite (span_digits_all b Hb). cbv beta iota zeta.
  destruct (a +:+ b) as [|x y] eqn:Hab; [congruence|].
  cbn [decimal.parse_exp]. reflexivity.
Qed.
Lemma lstrip_zeros (s : string) :
  exists k, s = Py.repeat_char "0" k +:+ Py.lstrip "0" s.
Proof.
  unfold Py.lstrip. induction s as [|c s IH]; [now exists 0%nat|].
  cbn [Py.lstrip_by]. unfold Py.char_in at 1. cbn [list_ascii_of_string existsb].
  destruct (Ascii.eqb_spec c "0") as [->|Hc]; cbn [orb].
  - destruct IH as [k Hk]. exists (S k).
    change (String "0" s = String "0" (Py.repeat_char "0" k
                                       +:+ Py.lstrip_by (Py.char_in "0") s)).
    now rewrite <- Hk.
  - now exists 0%nat.
Qed.

Lemma rstrip_zeros (s : string) :
  exists k, s = Py.rstrip "0" s +:+ Py.repeat_char "0" k.
Proof.
  unfold Py.rstrip. induction s as [|c s IH]; [now exists 0%nat|].
  destruct IH as [k Hk]. cbn [Py.rstrip_by].
  destruct (Py.rstrip_by (Py.char_in "0") s) as [|x y] eqn:Hr.
  - unfold Py.char_in. cbn [list_ascii_of_string existsb].
    destruct (Ascii.eqb_spec c "0") as [->|Hc]; cbn [orb].
    + exists (S k). now rewrite Hk at 1.
    + exists k. now rewrite Hk at 1.
  - exists k. now rewrite Hk at 1.
Qed.

Lemma all_digits_zeros (k : nat) :
  decimal.all_digits (Py.repeat_char "0" k) = true.
Proof. induction k as [|k IH]; [reflexivity | exact IH]. Qed.

Lemma length_zeros (k : nat) : String.length (Py.repeat_char "0" k) = k.
Proof. induction k as [|k IH]; cbn; [reflexivity | now rewrite IH]. Qed.

Lemma substring_full (s : string) :
  String.substring 0 (String.length s) s = s.
Proof.
  induction s as [|c s IH]; [reflexivity|].
  cbn [String.length String.substring]. now rewrite IH.
Qed.

Lemma substring_split (k : nat) (s : string) :
  (k <= String.length s)%nat ->
  String.substring 0 k s +:+ String.substring k (String.length s - k) s = s.
Proof.
  revert k. induction s as [|c s IH]; intros k Hk.
  - cbn in Hk. replace k with 0%nat by lia. reflexivity.
  - destruct k as [|k].
    + rewrite Nat.sub_0_r. change (String.substring 0 0 (String c s)) with "".
      change ("" +:+ ?x) with x. apply substring_full.
    + cbn [String.length Nat.sub String.substring].
      change (String c (String.substring 0 k s
                        +:+ String.substring k (String.length s - k) s)
              = String c s).
      cbn [String.length] in Hk. rewrite IH by lia. reflexivity.
Qed.

Lemma substring_length (k : nat) (s : string) :
  (k <= String.length s)%nat ->
  String.length (String.substring k (String.length s - k) s)
  = (String.length s - k)%nat.
Proof.
  intros Hk. pose proof (substring_split k s Hk) as H.
  apply (f_equal String.length) in H. rewrite length_append in H.
  assert (Hp : String.length (String.substring 0 k s) = k).
  { clear H. revert k Hk. induction s as [|c s IH]; intros k Hk.
    - cbn in Hk. now replace k with 0%nat by lia.
    - destruct k as [|k]; [reflexivity|]. cbn [String.substring String.length].
      cbn [String.length] in Hk. rewrite IH by lia. reflexivity. }
  lia.
Qed.

(** [str] of a decimal with a negative exponent and more than [-6] digits
    left of the point: digits, a point and digits, which spell the
    coefficient with its last [-_exp] digits as the fraction. *)
Lemma to_str_positional (_int : string) (_exp : Z) :
  decimal.all_digits _int = true ->
  _exp < 0 -> -6 < _exp + Z.of_nat (String.length _int) ->
  exists i f,
    decimal.to_str (decimal.Finite false _int _exp) = i +:+ "." +:+ f
    /\ decimal.all_digits i = true /\ decimal.all_digits f = true
    /\ decimal.int_of_digits (i +:+ f) = decimal.int_of_digits _int
    /\ Z.of_nat (String.length f) = - _exp.
Proof.
  intros Hd Hexp Hleft. unfold decimal.to_str.
  set (len := Z.of_nat (String.length _int)) in *.
  replace ((_exp <=? 0) && (-6 <? _exp + len)) with true
    by (symmetry; apply andb_true_intro; split;
        [apply Z.leb_le | apply Z.ltb_lt]; lia).
  rewrite Z.eqb_refl.
  destruct (_exp + len <=? 0) eqn:Hdot.
  - apply Z.leb_le in Hdot.
    exists "0", (Py.repeat_char "0" (Z.to_nat (- (_exp + len))) +:+ _int).
    split; [|split; [reflexivity|split; [|split]]].
    + change ("" +:+ "0" +:+ ?x +:+ "") with ("0" +:+ (x +:+ "")).
      now rewrite string_append_nil_r.
    + now rewrite all_digits_app, all_digits_zeros.
    + rewrite !int_of_digits_app, int_of_digits_zeros.
      replace (decimal.int_of_digits "0") with 0 by reflexivity. lia.
    + rewrite length_append, length_zeros. unfold len in *. lia.
  - apply Z.leb_gt in Hdot.
    replace (len <=? _exp + len) with false by (symmetry; apply Z.leb_gt; lia).
    set (k := Z.to_nat (_exp + len)).
    assert (Hk : (k <= String.length _int)%nat) by (unfold k, len in *; lia).
    exists (String.substring 0 k _int),
           (String.substring k (String.length _int - k) _int).
    pose proof (substring_split k _int Hk) as Hsplit.
    split; [|split; [|split; [|split]]].
    + change ("" +:+ ?a +:+ ?x +:+ "") with (a +:+ (x +:+ "")).
      now rewrite string_append_nil_r.
    + rewrite <- Hsplit, all_digits_app in Hd. now apply andb_prop in Hd.
    + rewrite <- Hsplit, all_digits_app in Hd. now apply andb_prop in Hd.
    + now rewrite Hsplit.
    + rewrite substring_length by exact Hk. unfold k, len in *. lia.
Qed.

(** X11.  For a float whose [Decimal] has a negative exponent and is
    written without an exponent, the text [Minimize] writes, read back
    by [Decimal], denotes the same number: stripping the zeros keeps the
    value. *)
Theorem float_text_keeps_value
    (log10 log2 : spec_float -> spec_float)
    (r _int : string) (_exp : Z) (u : unparser) :
  decimal.of_str r = Some (decimal.Finite false _int _exp) ->
  decimal.all_digits _int = true ->
  _exp < 0 ->
  -6 < _exp + Z.of_nat (String.length _int) ->
  exists t d',
    visit_Constant Minimize log10 log2 (ast.Float r) u = write t u
    /\ decimal.of_str t = Some d'
    /\ same_value (decimal.Finite false _int _exp) d'.
Proof.
  intros Hof Hd Hexp Hleft.
  destruct (to_str_positional _int _exp Hd Hexp Hleft)
    as (i & f & Hstr & Hi & Hf & Hval & Hlen).
  unfold visit_Constant. rewrite Hof, Hstr, strip_zeros_around_point.
  destruct (lstrip_zeros i) as [ka Ha], (rstrip_zeros f) as [kb Hb].
  set (a := Py.lstrip "0" i) in *. set (b := Py.rstrip "0" f) in *.
  assert (Hda : decimal.all_digits a = true).
  { rewrite Ha, all_digits_app in Hi. now apply andb_prop in Hi. }
  assert (Hdb : decimal.all_digits b = true).
  { rewrite Hb, all_digits_app in Hf. now apply andb_prop in Hf. }
  assert (Hn : decimal.int_of_digits _int
               = decimal.int_of_digits (a +:+ b) * 10 ^ Z.of_nat kb).
  { rewrite <- Hval, Ha, Hb.
    rewrite string_append_assoc, <- (string_append_assoc a).
    rewrite (int_of_digits_app (Py.repeat_char "0" ka)), int_of_digits_zeros.
    rewrite (int_of_digits_app (a +:+ b)), int_of_digits_zeros, length_zeros.
    lia. }
  assert (Hlb : Z.of_nat (String.length b) + Z.of_nat kb = - _exp).
  { rewrite <- Hlen, Hb, length_append, length_zeros. lia. }
  destruct (a +:+ b) as [|x y] eqn:Hab.
  - assert (a = "" /\ b = "") as [Ea Eb] by (destruct a; [split|]; [reflexivity|assumption|discriminate]).
    rewrite Ea, Eb. exists "0.", (decimal.Finite false "0" 0).
    split; [reflexivity|]. split; [reflexivity|].
    split; [reflexivity|].
    rewrite Hn.
    replace (decimal.int_of_digits "0") with 0 by reflexivity.
    replace (decimal.int_of_digits "") with 0 by reflexivity.
    ring.
  - exists (a +:+ "." +:+ b),
           (decimal.Finite false
              (Py.int_repr (decimal.int_of_digits (a +:+ b)))
              (- Z.of_nat (String.length b))).
    split; [|split; [|split; [reflexivity|]]].
    + replace (a +:+ "." +:+ b =? ".")%string with false; [reflexivity|].
      symmetry. apply String.eqb_neq. intros Heq.
      destruct a as [|c a'].
      * destruct b; [discriminate Hab | discriminate Heq].
      * change (String c (a' +:+ "." +:+ b) = ".") in Heq.
        injection Heq as -> Heq. discriminate Hda.
    + apply of_str_point; [exact Hda | exact Hdb | now rewrite Hab].
    + rewrite int_of_digits_int_repr by apply int_of_digits_nonneg.
      rewrite Hn, Hab.
      replace (Z.min _exp (- Z.of_nat (String.length b))) with _exp by lia.
      replace (_exp - _exp) with 0 by lia.
      replace (- Z.of_nat (String.length b) - _exp) with (Z.of_nat kb) by lia.
      lia.
Qed.

Lemma float_text_keeps_value_witness :
  exists t d',
    visit_Constant Minimize (math.log_ref 10) (math.log_ref 2)
      (ast.Float "100.0") (mk_unparser [] 0 0 [] false)
    = write t (mk_unparser [] 0 0 [] false)
    /\ decimal.of_str t = Some d'
    /\ same_value (decimal.Finite false "1000" (-1)) d'.
Proof.
  apply (float_text_keeps_value (math.log_ref 10) (math.log_ref 2)
           "100.0" "1000" (-1) (mk_unparser [] 0 0 [] false));
    [reflexivity | reflexivity | lia | cbn; lia].
Defined.

(** ** Floats written with an exponent *)

(** What holds of every text [m e+N] and [m e-N] with a one-digit [m]
    and [N = 10 * q], [q] from 2 to 30 and no multiple of ten. *)
Lemma exponent_text_range (m q : Z) (negative : bool) :
  1 <= m <= 9 -> 2 <= q <= 30 -> q mod 10 <> 0 ->
  let sign := if negative then "-" else "+" in
  let r := Py.int_repr m +:+ "e" +:+ sign +:+ Py.int_repr (10 * q) in
  let t := Py.int_repr m +:+ "E" +:+ sign +:+ Py.int_repr q in
  let e := if negative then - q else q in
  decimal.of_str r = Some (decimal.Finite false (Py.int_repr m) (10 * e))
  /\ Py.strip "0" (decimal.to_str (decimal.Finite false (Py.int_repr m) (10 * e)))
     = t
  /\ (t =? ".")%string = false
  /\ decimal.of_str t = Some (decimal.Finite false (Py.int_repr m) e)
  /\ decimal.int_of_digits (Py.int_repr m) = m.
Proof.
  intros Hm Hq Hmod.
  assert (Hall :
    forallb
      (fun mq : nat * nat =>
         (Z.of_nat (snd mq) mod 10 =? 0) ||
         let m := Z.of_nat (fst mq) in
         let q := Z.of_nat (snd mq) in
         let sign := if negative then "-" else "+" in
         let r := Py.int_repr m +:+ "e" +:+ sign +:+ Py.int_repr (10 * q) in
         let t := Py.int_repr m +:+ "E" +:+ sign +:+ Py.int_repr q in
         let e := if negative then - q else q in
         match decimal.of_str r, decimal.of_str t with
         | Some (decimal.Finite false n1 e1), Some (decimal.Finite false n2 e2) =>
             (n1 =? Py.int_repr m)%string && (e1 =? 10 * e)
             && (n2 =? Py.int_repr m)%string && (e2 =? e)
         | _, _ => false
         end
         && (Py.strip "0"
               (decimal.to_str (decimal.Finite false (Py.int_repr m) (10 * e)))
             =? t)%string
         && negb (t =? ".")%string
         && (decimal.int_of_digits (Py.int_repr m) =? m))
      (list_prod (seq 1 9) (seq 2 29)) = true)
    by (destruct negative; vm_compute; reflexivity).
  rewrite forallb_forall in Hall.
  specialize (Hall (Z.to_nat m, Z.to_nat q)).
  cbn [fst snd] in Hall. rewrite !Z2Nat.id in Hall by lia. cbv zeta in Hall.
  assert (Hin : In (Z.to_nat m, Z.to_nat q) (list_prod (seq 1 9) (seq 2 29)))
    by (apply in_prod; apply in_seq; lia).
  apply Hall in Hin. clear Hall. cbv zeta.
  replace (q mod 10 =? 0) with false in Hin
    by (symmetry; now apply Z.eqb_neq).
  cbn [orb] in Hin.
  apply andb_prop in Hin as [Hin Hint].
  apply andb_prop in Hin as [Hin Hdot].
  apply andb_prop in Hin as [Hin Hstrip].
  destruct (decimal.of_str _) as [[[] n1 e1| |]|] eqn:Hr in Hin;
    try discriminate.
  destruct (decimal.of_str (_ +:+ "E" +:+ _)) as [[[] n2 e2| |]|] eqn:Ht in Hin;
    try discriminate.
  apply andb_prop in Hin as [Hin He2].
  apply andb_prop in Hin as [Hin Hn2].
  apply andb_prop in Hin as [Hn1 He1].
  apply String.eqb_eq in Hn1, Hn2, Hstrip.
  apply Z.eqb_eq in He1, He2, Hint.
  apply negb_true_iff in Hdot.
  subst. auto.
Qed.

(** X12.  A float whose text carries an exponent that ends in a zero is
    written with that zero stripped, as another number: for a one-digit
    [m] and [N = 10 * q], the constant [m e+N] is written [m E+q] and
    [m e-N] is written [m E-q], which [Decimal] reads as [m * 10**q] and
    [m * 10**-q]. *)
Theorem float_exponent_zeros_stripped
    (log10 log2 : spec_float -> spec_float)
    (m q : Z) (negative : bool) (u : unparser) :
  1 <= m <= 9 -> 2 <= q <= 30 -> q mod 10 <> 0 ->
  let sign := if negative then "-" else "+" in
  let r := Py.int_repr m +:+ "e" +:+ sign +:+ Py.int_repr (10 * q) in
  let t := Py.int_repr m +:+ "E" +:+ sign +:+ Py.int_repr q in
  visit_Constant Minimize log10 log2 (ast.Float r) u = write t u
  /\ exists d d',
       decimal.of_str r = Some d /\ decimal.of_str t = Some d'
       /\ ~ same_value d d'.
Proof.
  intros Hm Hq Hmod sign r t.
  destruct (exponent_text_range m q negative Hm Hq Hmod)
    as (Hr & Hstrip & Hdot & Ht & Hint).
  fold sign in Hr, Hstrip, Hdot, Ht. fold r in Hr. fold t in Hstrip, Hdot, Ht.
  split.
  - unfold visit_Constant. now rewrite Hr, Hstrip, Hdot.
  - eexists _, _. split; [exact Hr|]. split; [exact Ht|].
    unfold same_value. rewrite Hint. intros [_ Hv].
    set (e := if negative then - q else q) in *.
    assert (Hpow : 1 < 10 ^ (9 * q)) by (apply Z.pow_gt_1; lia).
    destruct negative; unfold e in Hv.
    + replace (Z.min (10 * - q) (- q)) with (10 * - q) in Hv by lia.
      replace (10 * - q - 10 * - q) with 0 in Hv by lia.
      replace (- q - 10 * - q) with (9 * q) in Hv by lia.
      nia.
    + replace (Z.min (10 * q) q) with q in Hv by lia.
      replace (q - q) with 0 in Hv by lia.
      replace (10 * q - q) with (9 * q) in Hv by lia.
      nia.
Qed.

Lemma float_exponent_zeros_stripped_witness :
  visit_Constant Minimize (math.log_ref 10) (math.log_ref 2)
    (ast.Float "1e+20") (mk_unparser [] 0 0 [] false)
  = write "1E+2" (mk_unparser [] 0 0 [] false).
Proof.
  apply (float_exponent_zeros_stripped (math.log_ref 10) (math.log_ref 2)
           1 2 false (mk_unparser [] 0 0 [] false)); [lia | lia |].
  vm_compute. discriminate.
Defined.

(** ** The command line: [minimizer] *)

Section MinimizerFacts.

Context {S : Type}.
Variable mod_ : string -> bool -> S -> option string * S.

(** A run touches no file but the outputs it is given. *)
Lemma minimizer_frame
    (inpout : list (string * string)) (compress : bool)
    (p : cli.process S) (path : string) :
  ~ In path (map snd inpout) ->
  cli.disk (cli.minimizer mod_ inpout compress p) !! path
  = cli.disk p !! path.
Proof.
  revert p. induction inpout as [|[inp out] rest IH]; intros p Hpath;
    [reflexivity|].
  cbn [map snd In] in Hpath.
  assert (Hout : out <> path) by tauto.
  assert (Hrest : ~ In path (map snd rest)) by tauto.
  cbn [cli.minimizer]. cbv zeta.
  destruct (cli.disk p !! inp) as [content|]; [|reflexivity].
  destruct (cli.read_text content) as [|c raw].
  - now rewrite IH.
  - destruct (mod_ (String c raw) compress (cli.mod_state p)) as [[text|] s].
    + rewrite IH by exact Hrest. cbn [cli.disk].
      now rewrite !lookup_insert_ne by exact Hout.
    + cbn [cli.disk]. now rewrite lookup_insert_ne by exact Hout.
Qed.

(** X13.  A run touches no file but the outputs it is given: every other
    path holds afterwards what it held before, however the run ends.  In
    particular an input that is no output of the run is left as it
    was. *)
Theorem minimizer_writes_only_outputs
    (inpout : list (string * string)) (compress : bool)
    (p : cli.process S) (path : string) :
  ~ In path (map snd inpout) ->
  cli.disk (cli.minimizer mod_ inpout compress p) !! path
  = cli.disk p !! path.
Proof.
  revert p. induction inpout as [|[inp out] rest IH]; intros p Hpath;
    [reflexivity|].
  cbn [map snd In] in Hpath. cbn [cli.minimizer]. cbv zeta.
  destruct (cli.disk p !! inp) as [content|]; [|reflexivity].
  destruct (cli.read_text content) as [|c raw].
  - rewrite IH by tauto. reflexivity.
  - destruct (mod_ (String c raw) compress (cli.mod_state p)) as [[text|] s].
    + rewrite IH by tauto. cbn [cli.disk].
      rewrite !lookup_insert_ne; [reflexivity | |]; tauto.
    + cbn [cli.disk]. apply lookup_insert_ne. tauto.
Qed.

(** X14.  When a run ends because [mod] raised, the pairs before the
    one [mod] was working on were gone through without an exception, and
    the files are as that left them but for the output of the pair [mod]
    was working on, which is empty: the file is opened for writing
    before [mod] is called. *)
Theorem minimizer_failure_leaves_empty_output
    (inpout : list (string * string)) (compress : bool) (p : cli.process S) :
  cli.raised_exception p = None ->
  cli.raised_exception (cli.minimizer mod_ inpout compress p)
    = Some cli.Raised_by_mod ->
  exists done inp out rest q content,
    inpout = done ++ (inp, out) :: rest
    /\ q = cli.minimizer mod_ done compress p
    /\ cli.raised_exception q = None
    /\ cli.disk q !! inp = Some content
    /\ cli.read_text content <> ""
    /\ fst (mod_ (cli.read_text content) compress (cli.mod_state q)) = None
    /\ cli.disk (cli.minimizer mod_ inpout compress p)
       = <[out := ""]> (cli.disk q)
    /\ cli.disk (cli.minimizer mod_ inpout compress p) !! out = Some "".
Proof.
  revert p. induction inpout as [|[inp out] rest IH]; intros p Hp Hraised.
  - cbn in Hraised. congruence.
  - cbn [cli.minimizer] in Hraised |- *. cbv zeta in Hraised |- *.
    destruct (cli.disk p !! inp) as [content|] eqn:Hcontent; [|discriminate].
    destruct (cli.read_text content) as [|c raw] eqn:Hraw.
    + apply IH in Hraised
        as (done & i & o & rest' & q & cq & -> & Hq & Hnone & Hi & Hne
            & Hmod & Hdisk & Ho); [|exact Hp].
      exists ((inp, out) :: done), i, o, rest', q, cq.
      split; [reflexivity|]. split.
      { rewrite Hq. cbn [cli.minimizer]. now rewrite Hcontent, Hraw. }
      repeat (split; [assumption|]). assumption.
    + destruct (mod_ (String c raw) compress (cli.mod_state p))
        as [[text|] s] eqn:Hmod.
      * apply IH in Hraised
          as (done & i & o & rest' & q & cq & -> & Hq & Hnone & Hi & Hne
              & Hmod' & Hdisk & Ho); [|exact Hp].
        exists ((inp, out) :: done), i, o, rest', q, cq.
        split; [reflexivity|]. split.
        { rewrite Hq. cbn [cli.minimizer]. cbv zeta.
          now rewrite Hcontent, Hraw, Hmod. }
        repeat (split; [assumption|]). assumption.
      * exists [], inp, out, rest, p, content.
        split; [reflexivity|]. split; [reflexivity|].
        split; [exact Hp|]. split; [exact Hcontent|].
        split; [rewrite Hraw; discriminate|].
        split; [rewrite Hraw, Hmod; reflexivity|].
        split; [reflexivity|].
        cbn [cli.disk]. apply lookup_insert_eq.
Qed.

(** X15.  Run in place on distinct files, a run that ends because
    [mod] raised has emptied one of them, which held text when the run
    began. *)
Theorem in_place_failure_empties_the_file
    (paths : list string) (compress : bool) (p : cli.process S) :
  NoDup paths ->
  cli.raised_exception p = None ->
  cli.raised_exception
    (cli.minimizer mod_ (map (fun x => (x, x)) paths) compress p)
    = Some cli.Raised_by_mod ->
  exists path content,
    In path paths
    /\ cli.disk p !! path = Some content
    /\ cli.read_text content <> ""
    /\ cli.disk (cli.minimizer mod_ (map (fun x => (x, x)) paths) compress p)
         !! path = Some "".
Proof.
  revert p. induction paths as [|x rest IH]; intros p Hnd Hp Hraised.
  - cbn in Hraised. congruence.
  - apply NoDup_cons in Hnd as [Hx Hnd].
    cbn [map cli.minimizer] in *. cbv zeta in *.
    destruct (cli.disk p !! x) as [content|] eqn:Hcontent; [|discriminate].
    destruct (cli.read_text content) as [|c raw] eqn:Hraw.
    + apply IH in Hraised as (y & cy & Hin & Hy & Hne & Hout);
        [|exact Hnd|exact Hp].
      exists y, cy. repeat split; auto. now right.
    + destruct (mod_ (String c raw) compress (cli.mod_state p)) as [[text|] s].
      * apply IH in Hraised as (y & cy & Hin & Hy & Hne & Hout);
        [|exact Hnd|exact Hp].
        exists y, cy. split; [now right|]. split; [|split; assumption].
        cbn [cli.disk] in Hy.
        rewrite !lookup_insert_ne in Hy; [exact Hy | |];
          intros ->; apply Hx; now apply list_elem_of_In.
      * exists x, content. split; [now left|]. split; [exact Hcontent|].
        split; [rewrite Hraw; discriminate|].
        cbn [cli.disk]. apply lookup_insert_eq.
Qed.


End MinimizerFacts.

Lemma minimize_length_le
    (parse : string -> option ast.module)
    (compress : codec -> list byte -> list byte)
    (compress_alone : list byte -> list byte)
    (log10 log2 : spec_float -> spec_float)
    (raw_code out : string) (compress_ : bool)
    (names names' : list (option ast.alias)) :
  minimize parse compress compress_alone log10 log2 raw_code compress_ false
    names = (Some out, names') ->
  (String.length out <= String.length raw_code)%nat.
Proof.
  unfold minimize.
  destruct (parse raw_code) as [tree|]; [|discriminate].
  destruct (visit Minimize _ log10 log2 tree names) as [[text|] names1];
    [|discriminate].
  cbn [orb]. intros [= <- <-].
  set (minimized := Py.strip _ text).
  set (codes := if (String.length raw_code <=? String.length minimized)%nat
                then raw_code else minimized).
  assert (Hcodes : (String.length codes <= String.length raw_code)%nat).
  { unfold codes.
    destruct (String.length raw_code <=? String.length minimized)%nat eqn:Hle;
      [apply Nat.leb_le in Hle | apply Nat.leb_gt in Hle]; lia. }
  destruct compress_; [|exact Hcodes].
  rewrite shorter_stub_fold.
  pose proof (fold_pick_le
                (map (fun m => stub (codec_name m)
                                 (compress m (bytes.encode minimized)))
                   [lzma; zlib; gzip; bz2]
                 ++ [stub "lzma" (compress_alone (bytes.encode minimized))])
                codes).
  lia.
Qed.

(** X16.  Through the command line, where [mod] is [minimize], a run
    that ends without an exception, over outputs that are distinct and
    are no inputs, has read every input; it has left alone the output of
    an input that reads as empty, and has written to every other output
    a text with no more characters than the text read from its input. *)
Theorem command_line_output_never_longer
    (parse : string -> option ast.module)
    (compress : codec -> list byte -> list byte)
    (compress_alone : list byte -> list byte)
    (log10 log2 : spec_float -> spec_float)
    (inpout : list (string * string)) (compress_ : bool)
    (p : cli.process (list (option ast.alias))) :
  NoDup (map snd inpout) ->
  (forall i o, In i (map fst inpout) -> In o (map snd inpout) -> i <> o) ->
  cli.raised_exception p = None ->
  cli.raised_exception
    (cli.minimizer (cli.minimize_mod parse compress compress_alone log10 log2)
       inpout compress_ p) = None ->
  forall inp out,
    In (inp, out) inpout ->
    exists content,
      cli.disk p !! inp = Some content
      /\ (cli.read_text content = "" ->
          cli.disk
            (cli.minimizer
               (cli.minimize_mod parse compress compress_alone log10 log2)
               inpout compress_ p) !! out = cli.disk p !! out)
      /\ (cli.read_text content <> "" ->
          exists text,
            cli.disk
              (cli.minimizer
                 (cli.minimize_mod parse compress compress_alone log10 log2)
                 inpout compress_ p) !! out = Some text
            /\ (String.length text
                <= String.length (cli.read_text content))%nat).
Proof.
  set (mod_ := cli.minimize_mod parse compress compress_alone log10 log2).
  revert p. induction inpout as [|[i o] rest IH];
    intros p Hnd Hdisj Hp Hrun inp out Hin; [destruct Hin|].
  cbn [map fst snd] in Hnd, Hdisj. apply NoDup_cons in Hnd as [Ho Hnd].
  assert (Ho' : ~ In o (map snd rest))
    by (intros H; apply Ho; now apply list_elem_of_In).
  assert (Hdisj' : forall i' o', In i' (map fst rest) -> In o' (map snd rest) ->
                                 i' <> o')
    by (intros i' o' Hi' Ho''; apply Hdisj; now right).
  cbn [cli.minimizer] in *. cbv zeta in *.
  destruct (cli.disk p !! i) as [content|] eqn:Hcontent; [|discriminate].
  destruct (cli.read_text content) as [|c raw] eqn:Hraw.
  - destruct Hin as [[= <- <-]|Hin].
    + exists content. split; [exact Hcontent|]. split.
      * intros _. now rewrite minimizer_frame by exact Ho'.
      * intros H. now destruct H.
    + match type of Hrun with
      | context [cli.minimizer _ _ _ ?q] =>
          destruct (IH q Hnd Hdisj' Hp Hrun inp out Hin) as (cy & Hy & He & Hn)
      end.
      exists cy. auto.
  - destruct (mod_ (String c raw) compress_ (cli.mod_state p))
      as [[text|] s] eqn:Hmod; [|discriminate].
    destruct Hin as [[= <- <-]|Hin].
    + exists content. split; [exact Hcontent|]. split.
      * intros H. rewrite Hraw in H. discriminate.
      * intros _. exists text. split.
        -- rewrite minimizer_frame by exact Ho'. cbn [cli.disk].
           apply lookup_insert_eq.
        -- rewrite Hraw. unfold mod_, cli.minimize_mod in Hmod.
           eapply minimize_length_le. exact Hmod.
    + assert (Hio : inp <> o).
      { apply Hdisj; [right | left; reflexivity].
        apply in_map_iff. now exists (inp, out). }
      assert (Hoo : out <> o).
      { intros ->. apply Ho'. apply in_map_iff. now exists (inp, o). }
      match type of Hrun with
      | context [cli.minimizer _ _ _ ?q] =>
          destruct (IH q Hnd Hdisj' Hp Hrun inp out Hin) as (cy & Hy & He & Hn)
      end.
      cbn [cli.disk] in Hy, He.
      rewrite !lookup_insert_ne in Hy by congruence.
      exists cy. split; [exact Hy|]. split; [|exact Hn].
      intros H. rewrite (He H). now rewrite !lookup_insert_ne by congruence.
Qed.

Lemma minimizer_writes_only_outputs_witness :
  cli.disk
    (cli.minimizer
       (cli.minimize_mod Sample.parse Sample.compress Sample.compress_alone
          (math.log_ref 10) (math.log_ref 2))
       [("a.py", "a.min.py")] true
       (cli.mk_process {[ "a.py" := "x = 1"; "b.py" := "keep" ]} [] [] None))
    !! "b.py" = Some "keep".
Proof.
  rewrite minimizer_writes_only_outputs; [reflexivity|].
  cbn. intros [H|[]]. discriminate.
Defined.

Lemma minimizer_failure_leaves_empty_output_witness :
  exists done inp out rest q content,
    [("a.py", "a.min.py"); ("b.py", "b.min.py"); ("c.py", "c.min.py")]
    = done ++ (inp, out) :: rest
    /\ q = cli.minimizer
           (cli.minimize_mod Sample.parse Sample.compress Sample.compress_alone
              (math.log_ref 10) (math.log_ref 2))
           done true
           (cli.mk_process
              {[ "a.py" := "x = 1"; "b.py" := "def"; "c.py" := "x = 1" ]}
              [] [] None)
    /\ cli.raised_exception q = None
    /\ cli.disk q !! inp = Some content
    /\ cli.read_text content <> ""
    /\ fst (cli.minimize_mod Sample.parse Sample.compress
              Sample.compress_alone (math.log_ref 10) (math.log_ref 2)
              (cli.read_text content) true (cli.mod_state q)) = None
    /\ cli.disk
         (cli.minimizer
            (cli.minimize_mod Sample.parse Sample.compress Sample.compress_alone
              (math.log_ref 10) (math.log_ref 2))
            [("a.py", "a.min.py"); ("b.py", "b.min.py"); ("c.py", "c.min.py")]
            true
            (cli.mk_process
              {[ "a.py" := "x = 1"; "b.py" := "def"; "c.py" := "x = 1" ]}
              [] [] None))
       = <[out := ""]> (cli.disk q)
    /\ cli.disk
         (cli.minimizer
            (cli.minimize_mod Sample.parse Sample.compress Sample.compress_alone
              (math.log_ref 10) (math.log_ref 2))
            [("a.py", "a.min.py"); ("b.py", "b.min.py"); ("c.py", "c.min.py")]
            true
            (cli.mk_process
              {[ "a.py" := "x = 1"; "b.py" := "def"; "c.py" := "x = 1" ]}
              [] [] None))
         !! out = Some "".
Proof.
  apply minimizer_failure_leaves_empty_output; vm_compute; reflexivity.
Defined.

Lemma in_place_failure_empties_the_file_witness :
  exists path content,
    In path ["a.py"]
    /\ cli.disk (cli.mk_process {[ "a.py" := "def" ]} ([] : list (option ast.alias)) [] None)
         !! path = Some content
    /\ cli.read_text content <> ""
    /\ cli.disk
         (cli.minimizer
            (cli.minimize_mod Sample.parse Sample.compress
               Sample.compress_alone (math.log_ref 10) (math.log_ref 2))
            (map (fun x => (x, x)) ["a.py"]) true
            (cli.mk_process {[ "a.py" := "def" ]} [] [] None))
         !! path = Some "".
Proof.
  apply in_place_failure_empties_the_file.
  - apply NoDup_singleton.
  - reflexivity.
  - vm_compute. reflexivity.
Defined.

Lemma command_line_output_never_longer_witness :
  exists content,
    cli.disk (cli.mk_process {[ "a.py" := Sample.if_assign_source ]}
                ([] : list (option ast.alias)) [] None) !! "a.py"
    = Some content
    /\ (cli.read_text content <> "" ->
        exists text,
          cli.disk
            (cli.minimizer
               (cli.minimize_mod Sample.parse Sample.compress
                  Sample.compress_alone (math.log_ref 10) (math.log_ref 2))
               [("a.py", "a.min.py")] true
               (cli.mk_process {[ "a.py" := Sample.if_assign_source ]} [] [] None))
            !! "a.min.py" = Some text
          /\ (String.length text <= String.length (cli.read_text content))%nat).
Proof.
  destruct (command_line_output_never_longer Sample.parse Sample.compress
              Sample.compress_alone (math.log_ref 10) (math.log_ref 2)
              [("a.py", "a.min.py")] true
              (cli.mk_process {[ "a.py" := Sample.if_assign_source ]} [] [] None))
    with (inp := "a.py") (out := "a.min.py") as (content & Hc & _ & Hn).
  - apply NoDup_singleton.
  - cbn. intros i o [<-|[]] [<-|[]]. discriminate.
  - reflexivity.
  - vm_compute. reflexivity.
  - now left.
  - exists content. split; assumption.
Defined.

(** ** [fill], [_get_indent] and [visit_Return] *)

Lemma lstrip_by_head (p : ascii -> bool) (s : string) (c : ascii) (r : string) :
  Py.lstrip_by p s = String c r -> p c = false.
Proof.
  induction s as [|x s IH]; cbn [Py.lstrip_by]; [discriminate|].
  destruct (p x) eqn:Hx; [exact IH|]. intros [= <- _]. exact Hx.
Qed.

Lemma rstrip_by_head (p : ascii -> bool) (c : ascii) (r : string) :
  p c = false -> exists r', Py.rstrip_by p (String c r) = String c r'.
Proof.
  intros Hc. cbn [Py.rstrip_by]. rewrite Hc.
  destruct (Py.rstrip_by p r); eauto.
Qed.

(** [text.strip().split()] is empty exactly when [text.strip()] is. *)
Lemma first_word_strip_None (text : string) :
  Py.first_word (Py.strip_ws text) = None <-> Py.strip_ws text = "".
Proof.
  unfold Py.first_word, Py.strip_ws, Py.strip_by.
  destruct (Py.lstrip_by Py.isspace text) as [|c r] eqn:Hl; [split; reflexivity|].
  pose proof (lstrip_by_head _ _ _ _ Hl) as Hc.
  destruct (rstrip_by_head Py.isspace c r Hc) as [r' ->].
  cbn [Py.lstrip_by Py.take_word]. rewrite Hc. cbn [Py.take_word].
  rewrite Hc. split; discriminate.
Qed.

(** X17.  [Minimize.fill] raises, with the [IndexError] of
    [text.strip().split()[0]], exactly when its text is not empty and
    holds nothing but blanks; every other text is written. *)
Theorem fill_raises_on_blank_text (text : string) (u : unparser) :
  raised u = false ->
  raised (fill Minimize text u) = true
  <-> text <> "" /\ Py.strip_ws text = "".
Proof.
  intros Hu. unfold fill.
  destruct text as [|c r].
  - split; [|now intros [H _]].
    destruct (false || negb (_indent u =? _indent_mem u)%nat
              || source_ends_with_colon u);
      destruct u as [[|x src] ind mem names rs]; cbn in *; congruence.
  - destruct (Py.first_word (Py.strip_ws (String c r))) as [w|] eqn:Hw.
    + split.
      * destruct (existsb (String.eqb w) blocks
                  || negb (_indent u =? _indent_mem u)%nat
                  || source_ends_with_colon u);
          destruct u as [[|x src] ind mem names rs]; cbn in *; congruence.
      * intros [_ H]. apply first_word_strip_None in H. congruence.
    + split; [|reflexivity]. intros _. split; [discriminate|].
      now apply first_word_strip_None.
Qed.

Lemma fill_raises_on_blank_text_witness :
  raised (fill Minimize "  " (mk_unparser [] 0 0 [] false)) = true
  /\ raised (fill Minimize "pass" (mk_unparser [] 0 0 [] false)) <> true.
Proof.
  split.
  - apply (fill_raises_on_blank_text "  " (mk_unparser [] 0 0 [] false));
      [reflexivity|]. split; [discriminate | reflexivity].
  - intros H.
    apply (fill_raises_on_blank_text "pass" (mk_unparser [] 0 0 [] false)) in H;
      [|reflexivity].
    destruct H as [_ H]. vm_compute in H. discriminate.
Defined.

(** [dedent] on a text with no newline in it: the spaces and tabs it
    begins with are removed. *)
Lemma lines_no_newline (text : string) :
  textwrap.no_newline text = true -> textwrap.lines text = [text].
Proof.
  unfold textwrap.no_newline.
  induction text as [|c r IH]; [reflexivity|].
  cbn [list_ascii_of_string forallb textwrap.lines]. intros H.
  apply andb_prop in H as [Hc Hr].
  apply negb_true_iff in Hc. rewrite Hc, (IH Hr). reflexivity.
Qed.

Lemma lstrip_all_blank (text : string) :
  forallb textwrap.is_blank (list_ascii_of_string text) = true ->
  Py.lstrip_by textwrap.is_blank text = "".
Proof.
  induction text as [|c r IH]; [reflexivity|].
  cbn [list_ascii_of_string forallb Py.lstrip_by]. intros H.
  apply andb_prop in H as [-> Hr]. now apply IH.
Qed.

Lemma lstrip_some_not_blank (text : string) :
  forallb textwrap.is_blank (list_ascii_of_string text) = false ->
  Py.lstrip_by textwrap.is_blank text <> "".
Proof.
  induction text as [|c r IH]; [discriminate|].
  cbn [list_ascii_of_string forallb Py.lstrip_by].
  destruct (textwrap.is_blank c); [exact IH | discriminate].
Qed.

Lemma prefix_leading (text : string) :
  String.prefix (textwrap.leading text) text = true.
Proof.
  induction text as [|c r IH]; [reflexivity|].
  cbn [textwrap.leading]. destruct (textwrap.is_blank c); [|reflexivity].
  cbn [String.prefix]. destruct (ascii_dec c c); [exact IH | congruence].
Qed.

Lemma drop_leading (text : string) :
  textwrap.drop_chars (String.length (textwrap.leading text)) text
  = Py.lstrip_by textwrap.is_blank text.
Proof.
  induction text as [|c r IH]; [reflexivity|].
  cbn [textwrap.leading Py.lstrip_by].
  destruct (textwrap.is_blank c); [exact IH | reflexivity].
Qed.

Lemma dedent_no_newline (text : string) :
  textwrap.no_newline text = true ->
  textwrap.dedent text = Py.lstrip_by textwrap.is_blank text.
Proof.
  intros Hline. unfold textwrap.dedent. rewrite (lines_no_newline text Hline).
  cbn [map]. destruct (textwrap.whitespace_only text) eqn:Hws.
  - destruct text as [|c r]; [discriminate|].
    symmetry. apply lstrip_all_blank. exact Hws.
  - cbn [omap list_omap]. unfold textwrap.indent_of.
    destruct (Py.lstrip_by textwrap.is_blank text) as [|d rest] eqn:Hstrip.
    + cbn [fold_left Py.join].
      destruct text as [|c r]; [reflexivity|].
      now apply lstrip_some_not_blank in Hws.
    + cbn [fold_left textwrap.narrow].
      destruct (textwrap.leading text) as [|m margin] eqn:Hlead.
      * cbn [Py.join].
        rewrite <- Hstrip, <- drop_leading, Hlead. reflexivity.
      * cbn [map Py.join].
        rewrite <- Hlead, prefix_leading, drop_leading. exact Hstrip.
Qed.

(** With a newline in it, the text loses the margin common to its
    lines: none when a later line begins at the first column. *)
Example dedent_of_two_lines :
  textwrap.dedent ("  x" +:+ Py.NL +:+ "y") = "  x" +:+ Py.NL +:+ "y"
  /\ _get_indent ("  x" +:+ Py.NL +:+ "y") = 0%nat
  /\ textwrap.dedent ("  x" +:+ Py.NL +:+ "    y") = "x" +:+ Py.NL +:+ "  y".
Proof. repeat split; vm_compute; reflexivity. Qed.

(** X18.  On a text with no newline in it, as the lines of
    [post_process] are, [_get_indent] counts the spaces and tabs the
    text begins with: for a run of them followed by nothing or by
    another character, it is the length of the run. *)
Theorem get_indent_counts_margin (margin rest : string) :
  forallb textwrap.is_blank (list_ascii_of_string margin) = true ->
  match rest with
  | String c _ => textwrap.is_blank c = false
  | EmptyString => True
  end ->
  textwrap.no_newline rest = true ->
  _get_indent (margin +:+ rest) = String.length margin.
Proof.
  intros Hmargin Hrest Hline. unfold _get_indent.
  assert (Hwhole : textwrap.no_newline (margin +:+ rest) = true).
  { clear Hrest. induction margin as [|c margin IH]; [exact Hline|].
    cbn [list_ascii_of_string forallb] in Hmargin.
    apply andb_prop in Hmargin as [Hc Hmargin].
    change (String c margin +:+ rest) with (String c (margin +:+ rest)).
    unfold textwrap.no_newline in *.
    cbn [list_ascii_of_string forallb]. rewrite (IH Hmargin), andb_true_r.
    apply negb_true_iff, Ascii.eqb_neq. intros ->. discriminate. }
  rewrite (dedent_no_newline _ Hwhole).
  assert (H : Py.lstrip_by textwrap.is_blank (margin +:+ rest) = rest).
  { clear Hwhole Hline. induction margin as [|c margin IH].
    - destruct rest as [|c r]; [reflexivity|].
      change ("" +:+ String c r) with (String c r).
      cbn [Py.lstrip_by]. now rewrite Hrest.
    - cbn [list_ascii_of_string forallb] in Hmargin.
      apply andb_prop in Hmargin as [Hc Hmargin].
      change (String c margin +:+ rest) with (String c (margin +:+ rest)).
      cbn [Py.lstrip_by]. rewrite Hc. now apply IH. }
  rewrite H, length_append. lia.
Qed.

Lemma get_indent_counts_margin_witness :
  _get_indent ("  " +:+ "x = 1") = 2%nat.
Proof.
  apply (get_indent_counts_margin "  " "x = 1"); reflexivity.
Defined.

(** X19.  [Minimize.visit_Return] leaves out the space after [return]
    only when the value starts with [...] or with one of the operators
    [~], [+], [-]: the keyword is never written against a name or a
    number. *)
Theorem return_without_space
    (log10 log2 : spec_float -> spec_float) (v : ast.expr) (u : unparser) :
  return_space v = false ->
  plain_constants log10 log2 v = true ->
  no_pending u ->
  exists first rest,
    In first ["..."; "~"; "+"; "-"]
    /\ visit_Return Minimize log10 log2 (Some v) u
       = appended (first :: rest) (fill Minimize "return" u).
Proof.
  intros Hspace Hplain Hu.
  assert (Hfill : no_pending (fill Minimize "return" u))
    by (unfold no_pending; now rewrite fill_import_names).
  unfold visit_Return. rewrite Hspace.
  rewrite traverse_expr_emitted by assumption.
  destruct v as [id|[n|b| | |r]|l op r|op x|l ops cs]; try discriminate Hspace.
  - exists "...", []. split; [now left | reflexivity].
  - destruct op; try discriminate Hspace.
    + exists "~", (wrap FACTOR x (expr_body log10 log2 x)).
      split; [right; now left | reflexivity].
    + exists "+", (wrap FACTOR x (expr_body log10 log2 x)).
      split; [do 2 right; now left | reflexivity].
    + exists "-", (wrap FACTOR x (expr_body log10 log2 x)).
      split; [do 3 right; now left | reflexivity].
Qed.

Lemma return_without_space_witness :
  exists first rest,
    In first ["..."; "~"; "+"; "-"]
    /\ visit_Return Minimize (math.log_ref 10) (math.log_ref 2)
         (Some (ast.UnaryOp ast.USub (ast.Name "x")))
         (mk_unparser [] 0 0 [] false)
       = appended (first :: rest)
           (fill Minimize "return" (mk_unparser [] 0 0 [] false)).
Proof.
  apply (return_without_space (math.log_ref 10) (math.log_ref 2)
           (ast.UnaryOp ast.USub (ast.Name "x"))
           (mk_unparser [] 0 0 [] false));
    [reflexivity | reflexivity | exact I].
Defined.

(** ** Simple statements on one line *)

Lemma fill_no_block (text w : string) (u : unparser) :
  text <> "" ->
  Py.first_word (Py.strip_ws text) = Some w ->
  existsb (String.eqb w) blocks = false ->
  fill Minimize text u
  = write text (if starts_line u then line_start u else u).
Proof.
  intros Hne Hw Hb. unfold fill, starts_line, line_start.
  destruct text as [|c r]; [congruence|].
  rewrite Hw, Hb. cbn [orb].
  now destruct (negb (_indent u =? _indent_mem u)%nat
                || source_ends_with_colon u).
Qed.

Lemma fill_empty (u : unparser) :
  fill Minimize "" u = write "" (if starts_line u then line_start u else u).
Proof.
  unfold fill, starts_line, line_start. cbn [orb].
  now destruct (negb (_indent u =? _indent_mem u)%nat
                || source_ends_with_colon u).
Qed.

Lemma no_pending_line (u : unparser) :
  no_pending u -> no_pending (if starts_line u then line_start u else u).
Proof.
  intros Hu. destruct (starts_line u); [|exact Hu].
  unfold line_start, maybe_newline.
  destruct u as [[|x src] ind mem names r]; exact Hu.
Qed.

Lemma spaced_same (t : string) (o : bool) :
  Py.rstrip " " t = t -> spaced t o = t.
Proof. intros H. unfold spaced. now destruct o. Qed.

(** The targets of an assignment, each followed by [=], and its value. *)
Lemma assign_line (log10 log2 : spec_float -> spec_float)
    (value : ast.expr) (u : unparser) :
  no_pending u ->
  plain_constants log10 log2 value = true ->
  forall (targets : list ast.expr) (g : list string) (t : string),
    forallb (plain_constants log10 log2) targets = true ->
    Py.rstrip " " t = t ->
    traverse_expr Minimize log10 log2 TEST value
      (fold_left
         (fun u target =>
            write "=" (traverse_expr Minimize log10 log2 TUPLE target u))
         targets (appended (g ++ [t]) u))
    = appended
        (g ++ [t]
         ++ flat_map (fun x => expr_fragments log10 log2 TUPLE x ++ ["="])
              targets
         ++ expr_fragments log10 log2 TEST value) u.
Proof.
  intros Hu Hvalue.
  induction targets as [|x rest IH]; intros g t Hplain Ht;
    cbn [fold_left flat_map app].
  - rewrite traverse_expr_emitted by (assumption || exact Hu).
    now rewrite emitted_appended, spaced_same by exact Ht.
  - cbn [forallb] in Hplain. apply andb_prop in Hplain as [Hx Hrest].
    rewrite (traverse_expr_emitted log10 log2 x TUPLE (appended (g ++ [t]) u))
      by (assumption || exact Hu).
    rewrite emitted_appended, spaced_same by exact Ht.
    rewrite write_appended, appended_appended.
    replace ((g ++ [t] ++ expr_fragments log10 log2 TUPLE x) ++ ["="])
      with ((g ++ [t] ++ expr_fragments log10 log2 TUPLE x) ++ ["="])
      by reflexivity.
    rewrite (IH _ "=" Hrest eq_refl).
    f_equal. rewrite <- !app_assoc. reflexivity.
Qed.

(** A simple statement: its fragments and [;], after the start of a
    line when [fill] starts one. *)
Lemma traverse_simple_stmt (log10 log2 : spec_float -> spec_float)
    (s : ast.stmt) (u : unparser) :
  simple s = true ->
  stmt_plain log10 log2 s = true ->
  no_pending u ->
  traverse_stmt Minimize (loaded_add_semicolon_after "Minimize") log10 log2 s u
  = appended (simple_stmt_fragments log10 log2 s ++ [";"])
      (if starts_line u then line_start u else u).
Proof.
  intros Hsimple Hplain Hu.
  pose proof (no_pending_line u Hu) as Hw.
  destruct s as [names|targets value|value|[value|]| |test body orelse
                |test body orelse]; try discriminate Hsimple;
    cbn [traverse_stmt]; rewrite traverse_enter_no_pending by exact Hu;
    unfold and_add, ast.class_name; eval_membership;
    cbn [simple_stmt_fragments stmt_plain] in *.
  - unfold visit_Assign. rewrite fill_empty.
    apply andb_prop in Hplain as [Htargets Hvalue].
    change (write "" ?w) with (appended ([] ++ [""]) w).
    rewrite (assign_line log10 log2 value _ Hw Hvalue targets [] "" Htargets
               eq_refl).
    rewrite write_appended, appended_appended. reflexivity.
  - unfold visit_Expr. rewrite fill_empty.
    change (write "" ?w) with (appended [""] w).
    rewrite traverse_expr_emitted by (assumption || exact Hw).
    rewrite emitted_appended1, spaced_same by reflexivity.
    rewrite write_appended, appended_appended. reflexivity.
  - unfold visit_Return.
    rewrite (fill_no_block "return" "return") by (vm_compute; congruence).
    destruct (return_space value).
    + rewrite !write_appended, !appended_appended.
      rewrite traverse_expr_emitted by (assumption || exact Hw).
      rewrite (emitted_appended _ _ ["return"]), appended_appended.
      reflexivity.
    + rewrite !write_appended.
      rewrite traverse_expr_emitted by (assumption || exact Hw).
      rewrite emitted_appended1, spaced_same by reflexivity.
      rewrite appended_appended. reflexivity.
  - unfold visit_Return.
    rewrite (fill_no_block "return" "return") by (vm_compute; congruence).
    now rewrite !write_appended, appended_appended.
  - rewrite (fill_no_block "pass" "pass") by (vm_compute; congruence).
    now rewrite !write_appended, appended_appended.
Qed.

Lemma starts_line_after_semicolon (g : list string) (u : unparser) :
  _indent u = _indent_mem u ->
  starts_line (appended (g ++ [";"]) u) = false.
Proof.
  intros H. unfold starts_line, source_ends_with_colon, appended, set_source.
  cbn [_indent _indent_mem _source]. rewrite H, Nat.eqb_refl.
  now rewrite app_assoc, last_snoc.
Qed.

Lemma line_settled (u : unparser) :
  let w := if starts_line u then line_start u else u in
  _indent w = _indent_mem w.
Proof.
  cbv zeta. destruct (starts_line u) eqn:Hs.
  - unfold line_start, maybe_newline.
    destruct u as [[|x src] ind mem names r]; reflexivity.
  - unfold starts_line in Hs. apply orb_false_elim in Hs as [Hs _].
    apply negb_false_iff, Nat.eqb_eq in Hs. exact Hs.
Qed.

Lemma traverse_simple_body (log10 log2 : spec_float -> spec_float)
    (body : list ast.stmt) :
  forallb (fun s => simple s && stmt_plain log10 log2 s) body = true ->
  forall (g : list string) (u : unparser),
    no_pending u ->
    _indent u = _indent_mem u ->
    traverse_body Minimize (loaded_add_semicolon_after "Minimize") log10 log2
      body (appended (g ++ [";"]) u)
    = appended
        ((g ++ [";"])
         ++ flat_map (fun s => simple_stmt_fragments log10 log2 s ++ [";"])
              body) u.
Proof.
  unfold traverse_body.
  induction body as [|s rest IH]; intros Hbody g u Hu Hind;
    cbn [fold_left flat_map].
  - now rewrite app_nil_r.
  - cbn [forallb] in Hbody. apply andb_prop in Hbody as [Hs Hrest].
    apply andb_prop in Hs as [Hsimple Hplain].
    rewrite traverse_simple_stmt by assumption.
    rewrite starts_line_after_semicolon by exact Hind.
    rewrite appended_appended, app_assoc.
    rewrite (IH Hrest _ u Hu Hind).
    f_equal. now rewrite <- !app_assoc.
Qed.

(** A run of simple statements from any state: a line is started
    before the first of them only. *)
Lemma traverse_simple_run
    (log10 log2 : spec_float -> spec_float)
    (s : ast.stmt) (rest : list ast.stmt) (u : unparser) :
  forallb (fun s => simple s && stmt_plain log10 log2 s) (s :: rest) = true ->
  no_pending u ->
  traverse_body Minimize (loaded_add_semicolon_after "Minimize") log10 log2
    (s :: rest) u
  = appended
      (flat_map (fun s => simple_stmt_fragments log10 log2 s ++ [";"])
         (s :: rest))
      (if starts_line u then line_start u else u).
Proof.
  intros Hbody Hu.
  cbn [forallb] in Hbody. apply andb_prop in Hbody as [Hs Hrest].
  apply andb_prop in Hs as [Hsimple Hplain].
  change (traverse_body Minimize (loaded_add_semicolon_after "Minimize")
            log10 log2 (s :: rest) u)
    with (traverse_body Minimize (loaded_add_semicolon_after "Minimize")
            log10 log2 rest
            (traverse_stmt Minimize (loaded_add_semicolon_after "Minimize")
               log10 log2 s u)).
  rewrite traverse_simple_stmt by assumption.
  rewrite traverse_simple_body.
  - reflexivity.
  - exact Hrest.
  - now apply no_pending_line.
  - apply line_settled.
Qed.

(** X20.  A run of simple statements (assignments, expression
    statements, [return], [pass]) is written on one line: [Minimize]
    starts a line before the first of them only, and only when the depth
    has changed or a colon was just written; each statement is followed by
    [;] and the next one is written right after it. *)
Theorem simple_statements_share_a_line
    (log10 log2 : spec_float -> spec_float)
    (s : ast.stmt) (rest : list ast.stmt) (u : unparser) :
  forallb (fun s => simple s && stmt_plain log10 log2 s) (s :: rest) = true ->
  no_pending u ->
  traverse_body Minimize (loaded_add_semicolon_after "Minimize") log10 log2
    (s :: rest) u
  = appended
      (flat_map (fun s => simple_stmt_fragments log10 log2 s ++ [";"])
         (s :: rest))
      (if starts_line u then line_start u else u).
Proof.
  intros Hbody Hu.
  cbn [forallb] in Hbody. apply andb_prop in Hbody as [Hs Hrest].
  apply andb_prop in Hs as [Hsimple Hplain].
  unfold traverse_body at 1. cbn [fold_left].
  fold (traverse_body Minimize (loaded_add_semicolon_after "Minimize")
          log10 log2 rest
          (traverse_stmt Minimize (loaded_add_semicolon_after "Minimize")
             log10 log2 s u)).
  rewrite traverse_simple_stmt by assumption.
  rewrite traverse_simple_body;
    [reflexivity | exact Hrest | now apply no_pending_line | apply line_settled].
Qed.

Lemma simple_statements_share_a_line_witness :
  traverse_body Minimize (loaded_add_semicolon_after "Minimize")
    (math.log_ref 10) (math.log_ref 2)
    [ast.Assign [ast.Name "x"] (ast.Constant (ast.Int 1));
     ast.Return (Some (ast.Name "x"))]
    (mk_unparser ["if "; "a"; ":"] 1 0 [] false)
  = mk_unparser
      ["if "; "a"; ":"; Py.NL; " "; ""; "x"; "="; "1"; ";";
       "return"; " "; "x"; ";"] 1 1 [] false.
Proof.
  rewrite (simple_statements_share_a_line (math.log_ref 10) (math.log_ref 2));
    [reflexivity | reflexivity | exact I].
Defined.

(** ** A conditional with a simple body, end to end *)

Lemma traverse_list_body (cls : klass) (set : gset string)
    (log10 log2 : spec_float -> spec_float) (l : list ast.stmt) (u : unparser) :
  (fix traverse_list (l : list ast.stmt) (u : unparser) {struct l} : unparser :=
     match l with
     | [] => u
     | item :: rest =>
         traverse_list rest (traverse_stmt cls set log10 log2 item u)
     end) l u
  = traverse_body cls set log10 log2 l u.
Proof.
  unfold traverse_body. revert u.
  induction l as [|item rest IH]; intros u; [reflexivity|].
  cbn [fold_left]. apply IH.
Qed.

(** An [if] without [else], at a place where [If] is not followed by
    [;]. *)
Lemma traverse_stmt_If (cls : klass) (set : gset string)
    (log10 log2 : spec_float -> spec_float)
    (test : ast.expr) (body : list ast.stmt) (u : unparser) :
  "If" ∉ set ->
  traverse_stmt cls set log10 log2 (ast.If test body []) u
  = set_indent Nat.pred
      (traverse_body cls set log10 log2 body
         (set_indent S
            (write ":"
               (traverse_expr cls log10 log2 TEST test
                  (fill cls "if " (traverse_enter cls false u)))))).
Proof.
  intros Hset. cbn [traverse_stmt]. unfold and_add, ast.class_name, block.
  rewrite bool_decide_eq_false_2 by exact Hset.
  now rewrite traverse_list_body.
Qed.

Lemma string_of_list_ascii_rev_app (a : string) (cur : list ascii) :
  string_of_list_ascii (rev (rev (list_ascii_of_string a) ++ cur))
  = string_of_list_ascii (rev cur) +:+ a.
Proof.
  rewrite rev_app_distr, rev_involutive.
  generalize (rev cur). intros l.
  induction l as [|c l IH]; cbn [app string_of_list_ascii].
  - apply string_of_list_ascii_of_string.
  - rewrite IH. reflexivity.
Qed.

Lemma splitlines_go_one_line (a rest : string) (cur : list ascii) :
  one_line a = true ->
  Py.splitlines_go cur (a +:+ rest)
  = Py.splitlines_go (rev (list_ascii_of_string a) ++ cur) rest.
Proof.
  unfold one_line. revert cur.
  induction a as [|c a IH]; intros cur Ha; [reflexivity|].
  cbn [list_ascii_of_string forallb] in Ha.
  apply andb_prop in Ha as [Hc Ha]. apply negb_true_iff in Hc.
  change (String c a +:+ rest) with (String c (a +:+ rest)).
  cbn [Py.splitlines_go]. rewrite Hc, (IH _ Ha).
  cbn [list_ascii_of_string rev]. now rewrite <- app_assoc.
Qed.

(** Two texts without line boundaries, joined by a newline, are the two
    lines of the whole. *)
Lemma splitlines_two (a b : string) :
  one_line a = true -> one_line b = true -> b <> "" ->
  Py.splitlines (a +:+ Py.NL +:+ b) = [a; b].
Proof.
  intros Ha Hb Hne. unfold Py.splitlines.
  rewrite (splitlines_go_one_line a _ [] Ha).
  change (Py.NL +:+ b) with (String (Py.chr 10) b).
  cbn [Py.splitlines_go].
  replace (Py.is_linebreak (Py.chr 10)) with true by reflexivity.
  replace (match b with
           | "" => b
           | String d r2 =>
               if ((Py.ord (Py.chr 10) =? 13)%nat && (Py.ord d =? 10)%nat)
               then r2 else b
           end) with b by (now destruct b).
  rewrite string_of_list_ascii_rev_app. cbn [rev string_of_list_ascii].
  change ("" +:+ a) with a. f_equal.
  rewrite <- (string_append_nil_r b) at 1.
  rewrite (splitlines_go_one_line b "" [] Hb).
  destruct (rev (list_ascii_of_string b) ++ []) as [|c l] eqn:Hl.
  - exfalso. rewrite app_nil_r in Hl.
    apply (f_equal (@rev ascii)) in Hl. rewrite rev_involutive in Hl.
    cbn in Hl. destruct b; [congruence | discriminate].
  - cbn [Py.splitlines_go]. rewrite <- Hl.
    rewrite string_of_list_ascii_rev_app. reflexivity.
Qed.

Lemma rstrip_by_snoc (p : ascii -> bool) (a : string) (c : ascii) :
  p c = false -> Py.rstrip_by p (a +:+ String c "") = a +:+ String c "".
Proof. intros Hc. now rewrite rstrip_by_app. Qed.

Lemma endswith_char_snoc (a : string) (c : ascii) :
  Py.endswith_char c (a +:+ String c "") = true.
Proof.
  induction a as [|x a IH].
  - cbn. apply Ascii.eqb_refl.
  - change (String x a +:+ String c "") with (String x (a +:+ String c "")).
    cbn [Py.endswith_char]. rewrite IH.
    destruct (a +:+ String c "") eqn:E; [|reflexivity].
    destruct a; discriminate.
Qed.

(** A header and one line after it: the line is spliced onto the
    header. *)
Lemma post_process_two_lines (header body : string) :
  one_line (header +:+ ":") = true ->
  one_line body = true ->
  body <> "" ->
  Py.endswith_char ":" (Py.rstrip (Py.whitespace +:+ ";") body) = false ->
  PostProcess.post_process ((header +:+ ":") +:+ Py.NL +:+ body)
  = Some (header +:+ ":"
          +:+ Py.strip_ws (Py.rstrip (Py.whitespace +:+ ";") body)).
Proof.
  intros Hh Hb Hne Hcolon.
  assert (Hlines : PostProcess.rstrip_lines ((header +:+ ":") +:+ Py.NL +:+ body)
                   = [header +:+ ":"; Py.rstrip (Py.whitespace +:+ ";") body]).
  { unfold PostProcess.rstrip_lines. rewrite splitlines_two by assumption.
    cbn [map]. f_equal. unfold Py.rstrip. now rewrite rstrip_by_snoc. }
  rewrite post_process_compacted; rewrite Hlines.
  - unfold compacted. cbn [length seq flat_map app].
    unfold spliced_onto, compacted_line, spliced_onto, merges.
    cbn [lookup list_lookup default length Nat.eqb orb].
    unfold id. rewrite endswith_char_snoc. cbn [andb].
    cbn [Py.join]. now rewrite string_append_assoc.
  - unfold headers_followed. cbn [last default]. exact Hcolon.
Qed.

(** X21.  End to end, a module that is one [if] without [else] whose
    body is a run of simple statements is rendered on a single line: the
    header, the colon, then the statements separated by [;].  The texts
    of the header and of the body must hold no line boundary, and the
    body must not end in a colon once stripped. *)
Theorem if_block_on_one_line
    (log10 log2 : spec_float -> spec_float)
    (test : ast.expr) (s : ast.stmt) (rest : list ast.stmt) :
  let header :=
    Py.concat (spaced "if " (opens TEST test)
               :: expr_fragments log10 log2 TEST test) in
  let body :=
    Py.rstrip (Py.whitespace +:+ ";")
      (" " +:+ Py.concat
                 (flat_map
                    (fun s => simple_stmt_fragments log10 log2 s ++ [";"])
                    (s :: rest))) in
  plain_constants log10 log2 test = true ->
  forallb (fun s => simple s && stmt_plain log10 log2 s) (s :: rest) = true ->
  one_line header = true ->
  one_line (Py.concat
              (flat_map (fun s => simple_stmt_fragments log10 log2 s ++ [";"])
                 (s :: rest))) = true ->
  Py.endswith_char ":" body = false ->
  visit Minimize (loaded_add_semicolon_after "Minimize") log10 log2
    (ast.Module_ [ast.If test (s :: rest) []]) []
  = (Some (header +:+ ":" +:+ Py.strip_ws body), []).
Proof.
  intros header body Htest Hbody Hheader Hone Hcolon.
  set (frags := flat_map
                  (fun s => simple_stmt_fragments log10 log2 s ++ [";"])
                  (s :: rest)) in *.
  set (hfrags := spaced "if " (opens TEST test)
                 :: expr_fragments log10 log2 TEST test) in *.
  unfold visit, traverse_Module, traverse_body. cbn [fold_left].
  set (u0 := mk_unparser [] 0 0 [] false).
  replace (traverse_enter Minimize false u0) with u0 by reflexivity.
  rewrite traverse_stmt_If
    by (apply (bool_decide_unpack
                 ("If" ∉ loaded_add_semicolon_after "Minimize"));
        vm_compute; exact I).
  replace (traverse_enter Minimize false u0) with u0 by reflexivity.
  replace (fill Minimize "if " u0) with (appended ([""] ++ ["if "]) u0)
    by (vm_compute; reflexivity).
  rewrite traverse_expr_emitted by (exact I || exact Htest).
  rewrite (emitted_appended _ _ [""]), write_appended, appended_appended.
  rewrite traverse_simple_run by (exact Hbody || exact I).
  fold frags.
  replace (set_indent S
             (appended
                (([""] ++ [spaced "if " (opens TEST test)]
                  ++ expr_fragments log10 log2 TEST test) ++ [":"]) u0))
    with (mk_unparser ("" :: hfrags ++ [":"]) 1 0 [] false) by reflexivity.
  replace (starts_line (mk_unparser ("" :: hfrags ++ [":"]) 1 0 [] false))
    with true by reflexivity.
  replace (line_start (mk_unparser ("" :: hfrags ++ [":"]) 1 0 [] false))
    with (mk_unparser ((("" :: hfrags ++ [":"]) ++ [Py.NL]) ++ [" "]) 1 1 []
            false) by reflexivity.
  unfold appended, set_source, set_indent.
  cbn [_source _indent _indent_mem import_names raised].
  f_equal.
  assert (Hsrc : Py.concat (((("" :: hfrags ++ [":"]) ++ [Py.NL]) ++ [" "])
                            ++ frags)
                 = (header +:+ ":") +:+ Py.NL +:+ (" " +:+ Py.concat frags)).
  { rewrite !concat_app.
    change (Py.concat ("" :: hfrags ++ [":"])) with (Py.concat (hfrags ++ [":"])).
    rewrite concat_app. fold header.
    change (Py.concat [":"]) with ":". change (Py.concat [Py.NL]) with Py.NL.
    change (Py.concat [" "]) with " ".
    now rewrite !string_append_assoc. }
  rewrite Hsrc. clear Hsrc.
  assert (Hh1 : one_line (header +:+ ":") = true).
  { unfold one_line in *. rewrite list_ascii_app, forallb_app, Hheader.
    reflexivity. }
  assert (Hb1 : one_line (" " +:+ Py.concat frags) = true).
  { unfold one_line in *.
    change (" " +:+ Py.concat frags) with (String " " (Py.concat frags)).
    cbn [list_ascii_of_string forallb]. rewrite Hone. reflexivity. }
  apply post_process_two_lines; [exact Hh1 | exact Hb1 | discriminate |].
  exact Hcolon.
Qed.

Lemma if_block_on_one_line_witness :
  visit Minimize (loaded_add_semicolon_after "Minimize")
    (math.log_ref 10) (math.log_ref 2)
    (ast.Module_
       [ast.If (ast.Compare (ast.Name "a") [ast.Lt] [ast.Name "b"])
          [ast.Assign [ast.Name "x"] (ast.Constant (ast.Int 1));
           ast.Return (Some (ast.Name "x"))] []]) []
  = (Some "if a<b:x=1;return x", []).
Proof.
  rewrite (if_block_on_one_line (math.log_ref 10) (math.log_ref 2));
    reflexivity.
Defined.

(** ** The nesting depth across a traversal *)

Lemma stmt_nested_ind (P : ast.stmt -> Prop) :
  (forall names, P (ast.Import names)) ->
  (forall targets value, P (ast.Assign targets value)) ->
  (forall value, P (ast.Expr value)) ->
  (forall value, P (ast.Return value)) ->
  P ast.Pass ->
  (forall test body orelse,
      Forall P body -> Forall P orelse -> P (ast.If test body orelse)) ->
  (forall test body orelse,
      Forall P body -> Forall P orelse -> P (ast.While test body orelse)) ->
  forall s, P s.
Proof.
  intros HImport HAssign HExpr HReturn HPass HIf HWhile.
  fix IH 1. intros [names|targets value|value|value| |test body orelse
                   |test body orelse].
  - apply HImport.
  - apply HAssign.
  - apply HExpr.
  - apply HReturn.
  - apply HPass.
  - apply HIf.
    + induction body as [|c cs IHcs]; constructor; [apply IH | exact IHcs].
    + induction orelse as [|c cs IHcs]; constructor; [apply IH | exact IHcs].
  - apply HWhile.
    + induction body as [|c cs IHcs]; constructor; [apply IH | exact IHcs].
    + induction orelse as [|c cs IHcs]; constructor; [apply IH | exact IHcs].
Qed.

Lemma keeps_write (t : string) : keeps_indent (write t).
Proof. intros u. reflexivity. Qed.

Lemma keeps_compose (f g : unparser -> unparser) :
  keeps_indent f -> keeps_indent g -> keeps_indent (fun u => g (f u)).
Proof. intros Hf Hg u. now rewrite Hg, Hf. Qed.

Lemma keeps_fill (cls : klass) (text : string) : keeps_indent (fill cls text).
Proof.
  intros u. unfold fill. destruct cls.
  - unfold maybe_newline. now destruct (_source u).
  - destruct (match text with
              | EmptyString => Some false
              | String _ _ =>
                  match Py.first_word (Py.strip_ws text) with
                  | Some w => Some (existsb (String.eqb w) blocks)
                  | None => None
                  end
              end) as [b|]; [|reflexivity].
    destruct (b || negb (_indent u =? _indent_mem u)%nat
              || source_ends_with_colon u); [|reflexivity].
    unfold maybe_newline. now destruct (_source u).
Qed.

Lemma keeps_visit_alias (a : ast.alias) : keeps_indent (visit_alias a).
Proof.
  intros u. unfold visit_alias. now destruct (ast.asname a) as [[|c r]|].
Qed.

Lemma keeps_interleave {A : Type} (inter : unparser -> unparser)
    (f : A -> unparser -> unparser) (l : list A) :
  keeps_indent inter -> (forall x, In x l -> keeps_indent (f x)) ->
  keeps_indent (interleave inter f l).
Proof.
  intros Hinter Hf u. destruct l as [|x rest]; [reflexivity|].
  cbn [interleave].
  rewrite <- (Hf x (or_introl eq_refl) u).
  assert (Hrest : forall y, In y rest -> keeps_indent (f y))
    by (intros y Hy; apply Hf; now right).
  generalize (f x u). clear Hf.
  induction rest as [|y rest IH]; intros w; [reflexivity|].
  cbn [fold_left]. rewrite IH by (intros z Hz; apply Hrest; now right).
  rewrite (Hrest y (or_introl eq_refl)). apply Hinter.
Qed.

Lemma keeps_traverse_enter (cls : klass) (is_Import : bool) :
  keeps_indent (traverse_enter cls is_Import).
Proof.
  intros u. unfold traverse_enter. destruct cls; [reflexivity|].
  destruct (last (import_names u)) as [[a|]|]; try reflexivity.
  destruct is_Import; [reflexivity|].
  cbv zeta. cbn [_indent set_import_names write set_source].
  rewrite (keeps_interleave (write ",") visit_alias).
  - now rewrite keeps_fill.
  - apply keeps_write.
  - intros x _. apply keeps_visit_alias.
Qed.

Lemma keeps_delimit (cls : klass) (start end_ : string)
    (body : unparser -> unparser) :
  keeps_indent body -> keeps_indent (delimit cls start end_ body).
Proof.
  intros Hbody u. unfold delimit. cbn [write set_source _indent].
  rewrite Hbody. cbn [_indent].
  destruct cls; [reflexivity|].
  destruct (_source u); [reflexivity|].
  now destruct (Py.strip_ws start =? "(")%string.
Qed.

Lemma keeps_require_parens (cls : klass) (p q : _Precedence)
    (body : unparser -> unparser) :
  keeps_indent body -> keeps_indent (require_parens cls p q body).
Proof.
  intros Hbody. unfold require_parens, delimit_if.
  destruct (Precedence.gt q p); [now apply keeps_delimit | exact Hbody].
Qed.

Lemma keeps_Constant_int (log10 log2 : spec_float -> spec_float)
    (depth : nat) :
  forall value, keeps_indent (Constant_int Minimize log10 log2 depth value).
Proof.
  induction depth as [|d IH]; intros value u; cbn [Constant_int];
    destruct (whole_log log10 (10 ^ 5) value) as [[k|]|];
    try reflexivity;
    try (destruct (whole_log log2 (2 ^ 17) value) as [[k2|]|]; try reflexivity);
    (rewrite keeps_require_parens; [apply keeps_traverse_enter|]; intros w;
     repeat first [ rewrite IH
                  | rewrite keeps_traverse_enter
                  | progress cbn [write set_source _indent] ];
     reflexivity).
Qed.

Lemma keeps_visit_Constant (cls : klass)
    (log10 log2 : spec_float -> spec_float) (value : ast.constant) :
  keeps_indent (visit_Constant cls log10 log2 value).
Proof.
  intros u. unfold visit_Constant, _write_constant.
  destruct cls, value as [n|b| | |r]; try reflexivity.
  - apply keeps_Constant_int.
  - now destruct (decimal.of_str r).
Qed.

Lemma keeps_traverse_expr (cls : klass)
    (log10 log2 : spec_float -> spec_float) (e : ast.expr) :
  forall p, keeps_indent (traverse_expr cls log10 log2 p e).
Proof.
  induction e as [id|value|l op r IHl IHr|op x IHx|l ops cs IHl IHcs]
    using expr_nested_ind; intros p u; cbn [traverse_expr].
  - cbn [write set_source _indent]. apply keeps_traverse_enter.
  - rewrite keeps_visit_Constant. apply keeps_traverse_enter.
  - rewrite keeps_require_parens; [apply keeps_traverse_enter|]. intros w.
    destruct (binop_rassoc (binop op)); rewrite IHr;
      cbn [write set_source _indent]; apply IHl.
  - rewrite keeps_require_parens; [apply keeps_traverse_enter|]. intros w.
    rewrite IHx. now destruct (unop_precedence op).
  - rewrite keeps_require_parens; [apply keeps_traverse_enter|]. intros w.
    rewrite <- (IHl (Precedence.next CMP) w).
    generalize (traverse_expr cls log10 log2 (Precedence.next CMP) l w).
    clear IHl. revert ops.
    induction IHcs as [|c cs IHc _ IH]; intros ops v.
    + now destruct ops.
    + destruct ops as [|o ops]; [reflexivity|].
      rewrite IH, IHc. reflexivity.
Qed.
Lemma keeps_block (body : unparser -> unparser) :
  keeps_indent body -> keeps_indent (block body).
Proof.
  intros Hbody u. unfold block. cbn [set_indent _indent].
  rewrite Hbody. reflexivity.
Qed.

Lemma keeps_traverse_body (cls : klass) (set : gset string)
    (log10 log2 : spec_float -> spec_float) (l : list ast.stmt) :
  Forall (fun s => keeps_indent (traverse_stmt cls set log10 log2 s)) l ->
  keeps_indent (traverse_body cls set log10 log2 l).
Proof.
  unfold traverse_body. induction 1 as [|s rest Hs _ IH]; intros u;
    [reflexivity|].
  cbn [fold_left]. rewrite IH. apply Hs.
Qed.

Lemma keeps_and_add (set : gset string) (name : string)
    (func : unparser -> unparser) :
  keeps_indent func -> keeps_indent (and_add set name func).
Proof.
  intros Hfunc u. unfold and_add.
  destruct (bool_decide (name ∈ set)); [|apply Hfunc].
  cbn [write set_source _indent]. apply Hfunc.
Qed.

(** The body of [visit_If] after its keyword, and of [visit_While]. *)
Lemma keeps_compound (cls : klass) (set : gset string)
    (log10 log2 : spec_float -> spec_float)
    (keyword : string) (test : ast.expr) (body orelse : list ast.stmt)
    (tail : unparser -> unparser) :
  Forall (fun s => keeps_indent (traverse_stmt cls set log10 log2 s)) body ->
  keeps_indent tail ->
  keeps_indent
    (fun u =>
       tail (block (traverse_body cls set log10 log2 body)
               (traverse_expr cls log10 log2 TEST test (fill cls keyword u)))).
Proof.
  intros Hbody Htail u.
  rewrite Htail, keeps_block by (now apply keeps_traverse_body).
  now rewrite keeps_traverse_expr, keeps_fill.
Qed.

Lemma keeps_else (cls : klass) (set : gset string)
    (log10 log2 : spec_float -> spec_float) (orelse : list ast.stmt) :
  Forall (fun s => keeps_indent (traverse_stmt cls set log10 log2 s)) orelse ->
  keeps_indent
    (fun u => block (traverse_body cls set log10 log2 orelse)
                (fill cls "else" u)).
Proof.
  intros Horelse u.
  rewrite keeps_block by (now apply keeps_traverse_body).
  apply keeps_fill.
Qed.

Lemma traverse_stmt_If_eq (cls : klass) (set : gset string)
    (log10 log2 : spec_float -> spec_float)
    (test : ast.expr) (body orelse : list ast.stmt) (u : unparser) :
  traverse_stmt cls set log10 log2 (ast.If test body orelse) u
  = and_add set "If"
      (fun u =>
         let u2 := block (traverse_body cls set log10 log2 body)
                     (traverse_expr cls log10 log2 TEST test
                        (fill cls "if " u)) in
         match orelse with
         | [] => u2
         | [ast.If _ _ _ as nested] => visit_If_tail cls set log10 log2 nested u2
         | _ => block (traverse_body cls set log10 log2 orelse)
                  (fill cls "else" u2)
         end)
      (traverse_enter cls false u).
Proof. reflexivity. Qed.

Lemma visit_If_tail_eq (cls : klass) (set : gset string)
    (log10 log2 : spec_float -> spec_float)
    (test : ast.expr) (body orelse : list ast.stmt) (u : unparser) :
  visit_If_tail cls set log10 log2 (ast.If test body orelse) u
  = let u2 := block (traverse_body cls set log10 log2 body)
                (traverse_expr cls log10 log2 TEST test (fill cls "elif " u)) in
    match orelse with
    | [] => u2
    | [ast.If _ _ _ as nested] => visit_If_tail cls set log10 log2 nested u2
    | _ => block (traverse_body cls set log10 log2 orelse) (fill cls "else" u2)
    end.
Proof. reflexivity. Qed.

Lemma traverse_stmt_While_eq (cls : klass) (set : gset string)
    (log10 log2 : spec_float -> spec_float)
    (test : ast.expr) (body orelse : list ast.stmt) (u : unparser) :
  traverse_stmt cls set log10 log2 (ast.While test body orelse) u
  = and_add set "While"
      (fun u =>
         let u2 := block (traverse_body cls set log10 log2 body)
                     (traverse_expr cls log10 log2 TEST test
                        (fill cls "while " u)) in
         match orelse with
         | [] => u2
         | _ => block (traverse_body cls set log10 log2 orelse)
                  (fill cls "else" u2)
         end)
      (traverse_enter cls false u).
Proof. reflexivity. Qed.

(** What follows the body of an [if] or [elif]: nothing, the [elif]
    chain, or an [else] block. *)
Lemma keeps_orelse (cls : klass) (set : gset string)
    (log10 log2 : spec_float -> spec_float) (orelse : list ast.stmt) :
  Forall (fun node =>
            keeps_indent (traverse_stmt cls set log10 log2 node)
            /\ keeps_indent (visit_If_tail cls set log10 log2 node)) orelse ->
  keeps_indent
    (fun u2 =>
       match orelse with
       | [] => u2
       | [ast.If _ _ _ as nested] => visit_If_tail cls set log10 log2 nested u2
       | _ => block (traverse_body cls set log10 log2 orelse)
                (fill cls "else" u2)
       end).
Proof.
  intros Ho.
  assert (Helse : keeps_indent
                    (fun u => block (traverse_body cls set log10 log2 orelse)
                                (fill cls "else" u))).
  { apply keeps_else. eapply Forall_impl; [exact Ho|]. now intros s [H _]. }
  destruct orelse as [|o [|o2 rest]]; [intros u; reflexivity| |].
  - apply Forall_inv in Ho as [_ Htail].
    destruct o; try exact Helse. exact Htail.
  - destruct o; exact Helse.
Qed.

Lemma keeps_traverse_stmt (cls : klass) (set : gset string)
    (log10 log2 : spec_float -> spec_float) (node : ast.stmt) :
  keeps_indent (traverse_stmt cls set log10 log2 node)
  /\ keeps_indent (visit_If_tail cls set log10 log2 node).
Proof.
  induction node as [names|targets value|value|value| |test body orelse Hb Ho
                    |test body orelse Hb Ho] using stmt_nested_ind;
    (split; [|try (intros u; reflexivity)]).
  - intros u. cbn [traverse_stmt].
    rewrite keeps_and_add; [apply keeps_traverse_enter|].
    intros w. unfold visit_Import. destruct cls.
    + rewrite keeps_interleave; [apply keeps_fill | apply keeps_write|].
      intros x _ v. unfold traverse_alias.
      now rewrite keeps_visit_alias, keeps_traverse_enter.
    + reflexivity.
  - intros u. cbn [traverse_stmt].
    rewrite keeps_and_add; [apply keeps_traverse_enter|].
    intros w. unfold visit_Assign. rewrite keeps_traverse_expr.
    rewrite <- (keeps_fill cls "" w). generalize (fill cls "" w).
    induction targets as [|t rest IH]; intros v; [reflexivity|].
    cbn [fold_left]. rewrite IH. cbn [write set_source _indent].
    apply keeps_traverse_expr.
  - intros u. cbn [traverse_stmt].
    rewrite keeps_and_add; [apply keeps_traverse_enter|].
    intros w. unfold visit_Expr.
    now rewrite keeps_traverse_expr, keeps_fill.
  - intros u. cbn [traverse_stmt].
    rewrite keeps_and_add; [apply keeps_traverse_enter|].
    intros w. unfold visit_Return. destruct value as [v|]; [|apply keeps_fill].
    rewrite keeps_traverse_expr.
    destruct cls; [|destruct (return_space v)];
      cbn [write set_source _indent]; apply keeps_fill.
  - intros u. cbn [traverse_stmt].
    rewrite keeps_and_add; [apply keeps_traverse_enter|].
    intros w. apply keeps_fill.
  - intros u. rewrite traverse_stmt_If_eq.
    rewrite keeps_and_add; [apply keeps_traverse_enter|].
    intros w. cbv zeta.
    etransitivity; [exact (keeps_orelse cls set log10 log2 orelse Ho _)|].
    apply (keeps_compound cls set log10 log2 "if " test body orelse (fun u => u));
      [|intros v; reflexivity].
    eapply Forall_impl; [exact Hb|]. now intros s [H _].
  - intros w. rewrite visit_If_tail_eq. cbv zeta.
    etransitivity; [exact (keeps_orelse cls set log10 log2 orelse Ho _)|].
    apply (keeps_compound cls set log10 log2 "elif " test body orelse
             (fun u => u)); [|intros v; reflexivity].
    eapply Forall_impl; [exact Hb|]. now intros s [H _].
  - intros u. rewrite traverse_stmt_While_eq.
    rewrite keeps_and_add; [apply keeps_traverse_enter|].
    intros w. cbv zeta.
    assert (Hbody : _indent
                      (block (traverse_body cls set log10 log2 body)
                         (traverse_expr cls log10 log2 TEST test
                            (fill cls "while " w))) = _indent w).
    { apply (keeps_compound cls set log10 log2 "while " test body orelse
               (fun u => u)); [|intros v; reflexivity].
      eapply Forall_impl; [exact Hb|]. now intros s [H _]. }
    destruct orelse as [|o rest]; [exact Hbody|].
    rewrite <- Hbody.
    apply (keeps_else cls set log10 log2 (o :: rest)).
    eapply Forall_impl; [exact Ho|]. now intros s [H _].
Qed.

(** X22.  Whatever the class and the set of wrapped visitors, a
    traversal of a statement, of a list of statements or of an
    expression that raises nothing leaves the nesting depth [_indent] as
    it found it: every [block] that was entered has been left.  (A
    traversal that raises is outside the statement: [block] has no
    [finally], and the depth stays where the exception found it.) *)
Theorem traversal_restores_depth (cls : klass) (set : gset string)
    (log10 log2 : spec_float -> spec_float) :
  (forall node u,
      raised (traverse_stmt cls set log10 log2 node u) = false ->
      _indent (traverse_stmt cls set log10 log2 node u) = _indent u)
  /\ (forall body u,
         raised (traverse_body cls set log10 log2 body u) = false ->
         _indent (traverse_body cls set log10 log2 body u) = _indent u)
  /\ (forall e p u,
         raised (traverse_expr cls log10 log2 p e u) = false ->
         _indent (traverse_expr cls log10 log2 p e u) = _indent u).
Proof.
  split; [|split].
  - intros node u _. apply keeps_traverse_stmt.
  - intros body u _. revert u. apply keeps_traverse_body.
    apply Forall_forall. intros s _. apply keeps_traverse_stmt.
  - intros e p u _. apply keeps_traverse_expr.
Qed.

Lemma traversal_restores_depth_witness :
  _indent
    (traverse_stmt Minimize (loaded_add_semicolon_after "Minimize")
       (math.log_ref 10) (math.log_ref 2)
       (ast.While (ast.Name "a")
          [ast.If (ast.Name "b")
             [ast.Assign [ast.Name "x"] (ast.Constant (ast.Int 1))]
             [ast.Pass]]
          [])
       (mk_unparser [] 0 0 [] false))
  = 0%nat.
Proof.
  refine (proj1 (traversal_restores_depth Minimize
                   (loaded_add_semicolon_after "Minimize")
                   (math.log_ref 10) (math.log_ref 2)) _
            (mk_unparser [] 0 0 [] false) _).
  vm_compute. reflexivity.
Defined.
(** ** [and_add] only adds *)

Lemma additive_id : additive (fun u => u) (fun u => u).
Proof. intros u1 u2 H. now split. Qed.

Lemma additive_compose (f g f' g' : unparser -> unparser) :
  additive f g -> additive f' g' ->
  additive (fun u => f' (f u)) (fun u => g' (g u)).
Proof.
  intros H H' u1 u2 Hu.
  destruct (H u1 u2 Hu) as [Hr Hn]. destruct (H' _ _ Hr) as [Hr' Hn'].
  split; [exact Hr' | auto].
Qed.

Lemma writer_additive (f g : unparser -> unparser) :
  additive_writer f g -> additive f g.
Proof. intros H u1 u2 Hu. destruct (H u1 u2 Hu). now split. Qed.

Lemma writer_compose (f g f' g' : unparser -> unparser) :
  additive_writer f g -> additive f' g' ->
  additive_writer (fun u => f' (f u)) (fun u => g' (g u)).
Proof.
  intros H H' u1 u2 Hu.
  destruct (H u1 u2 Hu) as [Hr Hn]. destruct (H' _ _ Hr) as [Hr' Hn'].
  split; [exact Hr' | auto].
Qed.

Lemma same_write (t1 t2 : string) (u1 u2 : unparser) :
  t1 = t2 -> same_but_semicolons u1 u2 ->
  same_but_semicolons (write t1 u1) (write t2 u2)
  /\ _source (write t1 u1) <> [].
Proof.
  intros <- (Hsrc & Hnil & Hind). unfold same_but_semicolons, write, set_source.
  cbn [_source _indent]. split; [split; [|split]|].
  - unfold without_semicolons in *. now rewrite !List.filter_app, Hsrc.
  - split; intros H; now apply app_eq_nil in H as [_ H].
  - exact Hind.
  - intros H. now apply app_eq_nil in H as [_ H].
Qed.

Lemma writer_write (t : string) : additive_writer (write t) (write t).
Proof. intros u1 u2 H. now apply same_write. Qed.

(** The fragment [;] after a step that has written something. *)
Lemma same_semicolon (u1 u2 : unparser) :
  same_but_semicolons u1 u2 -> _source u1 <> [] ->
  same_but_semicolons (write ";" u1) u2.
Proof.
  intros (Hsrc & Hnil & Hind) Hne. unfold same_but_semicolons, write, set_source.
  cbn [_source _indent]. split; [|split].
  - unfold without_semicolons in *. rewrite List.filter_app, Hsrc.
    cbn. now rewrite app_nil_r.
  - split; intros H.
    + now apply app_eq_nil in H as [_ H].
    + apply Hnil in H. contradiction.
  - exact Hind.
Qed.

Lemma writer_fill (text : string) :
  additive_writer (fill AddSemicolon text) (fill AddSemicolon text).
Proof.
  intros u1 u2 Hu. unfold fill.
  assert (Hind : _indent u1 = _indent u2) by apply Hu.
  apply same_write; [now rewrite Hind|].
  unfold maybe_newline.
  destruct Hu as (Hsrc & Hnil & _).
  destruct (_source u1) as [|x1 s1] eqn:E1, (_source u2) as [|x2 s2] eqn:E2.
  - unfold same_but_semicolons. now rewrite E1, E2.
  - exfalso. destruct Hnil as [Hnil _]. specialize (Hnil eq_refl). discriminate.
  - exfalso. destruct Hnil as [_ Hnil]. specialize (Hnil eq_refl). discriminate.
  - apply same_write; [reflexivity|].
    unfold same_but_semicolons. now rewrite E1, E2.
Qed.

Lemma additive_set_indent (f : nat -> nat) :
  additive (set_indent f) (set_indent f).
Proof.
  intros u1 u2 (Hsrc & Hnil & Hind). unfold same_but_semicolons, set_indent.
  cbn [_source _indent].
  split; [split; [exact Hsrc | split; [exact Hnil | now rewrite Hind]] | auto].
Qed.

Lemma additive_block (b1 b2 : unparser -> unparser) :
  additive b1 b2 -> additive (block b1) (block b2).
Proof.
  intros Hb. unfold block.
  apply (additive_compose (fun u => b1 (set_indent S (write ":" u)))
           (fun u => b2 (set_indent S (write ":" u)))
           (set_indent Nat.pred) (set_indent Nat.pred));
    [|apply additive_set_indent].
  apply (additive_compose (fun u => set_indent S (write ":" u))
           (fun u => set_indent S (write ":" u)) b1 b2); [|exact Hb].
  apply (additive_compose (write ":") (write ":") (set_indent S) (set_indent S));
    [apply writer_additive, writer_write | apply additive_set_indent].
Qed.

Lemma additive_delimit (start end_ : string) (b1 b2 : unparser -> unparser) :
  additive b1 b2 ->
  additive (delimit AddSemicolon start end_ b1)
           (delimit AddSemicolon start end_ b2).
Proof.
  intros Hb. unfold delimit.
  apply (additive_compose (fun u => b1 (write start u))
           (fun u => b2 (write start u)) (write end_) (write end_));
    [|apply writer_additive, writer_write].
  apply (additive_compose (write start) (write start) b1 b2);
    [apply writer_additive, writer_write | exact Hb].
Qed.

Lemma additive_require_parens (p q : _Precedence)
    (b1 b2 : unparser -> unparser) :
  additive b1 b2 ->
  additive (require_parens AddSemicolon p q b1)
           (require_parens AddSemicolon p q b2).
Proof.
  intros Hb. unfold require_parens, delimit_if.
  destruct (Precedence.gt q p); [now apply additive_delimit | exact Hb].
Qed.

Lemma additive_visit_Constant (log10 log2 : spec_float -> spec_float)
    (value : ast.constant) :
  additive (visit_Constant AddSemicolon log10 log2 value)
           (visit_Constant AddSemicolon log10 log2 value).
Proof.
  unfold visit_Constant, _write_constant.
  destruct value; apply writer_additive, writer_write.
Qed.

Lemma additive_traverse_expr (log10 log2 : spec_float -> spec_float)
    (e : ast.expr) :
  forall p,
    additive (traverse_expr AddSemicolon log10 log2 p e)
             (traverse_expr AddSemicolon log10 log2 p e).
Proof.
  induction e as [id|value|l op r IHl IHr|op x IHx|l ops cs IHl IHcs]
    using expr_nested_ind; intros p; cbn [traverse_expr traverse_enter].
  - apply writer_additive, writer_write.
  - apply additive_visit_Constant.
  - apply additive_require_parens.
    destruct (binop_rassoc (binop op)).
    + apply (additive_compose
               (fun u => write _ (traverse_expr AddSemicolon log10 log2 _ l u))
               (fun u => write _ (traverse_expr AddSemicolon log10 log2 _ l u)));
        [|apply IHr].
      apply (additive_compose (traverse_expr AddSemicolon log10 log2 _ l)
               (traverse_expr AddSemicolon log10 log2 _ l));
        [apply IHl | apply writer_additive, writer_write].
    + apply (additive_compose
               (fun u => write _ (traverse_expr AddSemicolon log10 log2 _ l u))
               (fun u => write _ (traverse_expr AddSemicolon log10 log2 _ l u)));
        [|apply IHr].
      apply (additive_compose (traverse_expr AddSemicolon log10 log2 _ l)
               (traverse_expr AddSemicolon log10 log2 _ l));
        [apply IHl | apply writer_additive, writer_write].
  - apply additive_require_parens.
    apply (additive_compose
             (fun u => match unop_precedence op with
                       | FACTOR => write (unop op) u
                       | _ => write " " (write (unop op) u)
                       end)
             (fun u => match unop_precedence op with
                       | FACTOR => write (unop op) u
                       | _ => write " " (write (unop op) u)
                       end)); [|apply IHx].
    destruct (unop_precedence op);
      try (apply (additive_compose (write (unop op)) (write (unop op))
                    (write " ") (write " "));
           apply writer_additive, writer_write);
      apply writer_additive, writer_write.
  - apply additive_require_parens.
    intros u1 u2 Hu.
    destruct (IHl (Precedence.next CMP) u1 u2 Hu) as [Hr Hn].
    revert Hr.
    assert (Hne : _source u1 <> [] ->
                  _source (traverse_expr AddSemicolon log10 log2
                             (Precedence.next CMP) l u1) <> []) by exact Hn.
    revert Hne.
    generalize (traverse_expr AddSemicolon log10 log2 (Precedence.next CMP) l u1).
    generalize (traverse_expr AddSemicolon log10 log2 (Precedence.next CMP) l u2).
    clear IHl Hn. revert ops.
    induction IHcs as [|c cs IHc _ IH]; intros ops v2 v1 Hne Hv.
    + now destruct ops.
    + destruct ops as [|o ops]; [now split|].
      destruct (writer_write (" " +:+ cmpops_base o +:+ " ") v1 v2 Hv)
        as [Hw Hwn].
      destruct (IHc (Precedence.next CMP) _ _ Hw) as [Hc Hcn].
      apply IH; [|exact Hc].
      intros _. apply Hcn, Hwn.
Qed.
Lemma writer_and_add (set : gset string) (name : string)
    (f1 f2 : unparser -> unparser) :
  additive_writer f1 f2 ->
  additive_writer (and_add set name f1) (and_add ∅ name f2).
Proof.
  intros Hf u1 u2 Hu. unfold and_add.
  rewrite (bool_decide_eq_false_2 (name ∈ (∅ : gset string)))
    by apply not_elem_of_empty.
  destruct (Hf u1 u2 Hu) as [Hr Hn].
  destruct (bool_decide (name ∈ set)); [|now split].
  split; [now apply same_semicolon|].
  unfold write, set_source. cbn [_source].
  intros H. now apply app_eq_nil in H as [_ H].
Qed.

Lemma additive_visit_alias (a : ast.alias) :
  additive (visit_alias a) (visit_alias a).
Proof.
  unfold visit_alias. destruct (ast.asname a) as [[|c r]|];
    try apply writer_additive, writer_write.
  apply (additive_compose (write (ast.name a)) (write (ast.name a))
           (write _) (write _)); apply writer_additive, writer_write.
Qed.

Lemma additive_interleave {A : Type} (inter : unparser -> unparser)
    (f : A -> unparser -> unparser) (l : list A) :
  additive inter inter -> (forall x, additive (f x) (f x)) ->
  additive (interleave inter f l) (interleave inter f l).
Proof.
  intros Hinter Hf. destruct l as [|x rest]; [apply additive_id|].
  unfold interleave. intros u1 u2 Hu.
  destruct (Hf x u1 u2 Hu) as [Hr Hn].
  revert Hr.
  assert (Hne : _source u1 <> [] -> _source (f x u1) <> []) by exact Hn.
  revert Hne. generalize (f x u1) (f x u2). clear Hn.
  induction rest as [|y rest IH]; intros v1 v2 Hne Hv; cbn [fold_left];
    [now split|].
  destruct (Hinter v1 v2 Hv) as [Hi Hin].
  destruct (Hf y _ _ Hi) as [Hy Hyn].
  apply IH; [|exact Hy]. intros H. apply Hyn, Hin, Hne, H.
Qed.

Lemma additive_traverse_body (set : gset string)
    (log10 log2 : spec_float -> spec_float) (l : list ast.stmt) :
  Forall (fun s => additive (traverse_stmt AddSemicolon set log10 log2 s)
                     (traverse_stmt AddSemicolon ∅ log10 log2 s)) l ->
  additive (traverse_body AddSemicolon set log10 log2 l)
           (traverse_body AddSemicolon ∅ log10 log2 l).
Proof.
  unfold traverse_body. induction 1 as [|s rest Hs _ IH]; [apply additive_id|].
  cbn [fold_left]. intros u1 u2 Hu.
  destruct (Hs u1 u2 Hu) as [Hr Hn]. destruct (IH _ _ Hr) as [Hr' Hn'].
  split; [exact Hr' | auto].
Qed.

Lemma writer_compound (set : gset string)
    (log10 log2 : spec_float -> spec_float)
    (keyword : string) (test : ast.expr) (body : list ast.stmt)
    (tail1 tail2 : unparser -> unparser) :
  additive (traverse_body AddSemicolon set log10 log2 body)
           (traverse_body AddSemicolon ∅ log10 log2 body) ->
  additive tail1 tail2 ->
  additive_writer
    (fun u =>
       tail1 (block (traverse_body AddSemicolon set log10 log2 body)
                (traverse_expr AddSemicolon log10 log2 TEST test
                   (fill AddSemicolon keyword u))))
    (fun u =>
       tail2 (block (traverse_body AddSemicolon ∅ log10 log2 body)
                (traverse_expr AddSemicolon log10 log2 TEST test
                   (fill AddSemicolon keyword u)))).
Proof.
  intros Hbody Htail.
  apply (writer_compose (fill AddSemicolon keyword) (fill AddSemicolon keyword)
           (fun u => tail1 (block (traverse_body AddSemicolon set log10 log2 body)
                              (traverse_expr AddSemicolon log10 log2 TEST test u)))
           (fun u => tail2 (block (traverse_body AddSemicolon ∅ log10 log2 body)
                              (traverse_expr AddSemicolon log10 log2 TEST test u))));
    [apply writer_fill|].
  apply (additive_compose
           (fun u => block (traverse_body AddSemicolon set log10 log2 body)
                       (traverse_expr AddSemicolon log10 log2 TEST test u))
           (fun u => block (traverse_body AddSemicolon ∅ log10 log2 body)
                       (traverse_expr AddSemicolon log10 log2 TEST test u))
           tail1 tail2); [|exact Htail].
  apply (additive_compose (traverse_expr AddSemicolon log10 log2 TEST test)
           (traverse_expr AddSemicolon log10 log2 TEST test)
           (block (traverse_body AddSemicolon set log10 log2 body))
           (block (traverse_body AddSemicolon ∅ log10 log2 body)));
    [apply additive_traverse_expr | now apply additive_block].
Qed.

Lemma additive_else (set : gset string)
    (log10 log2 : spec_float -> spec_float) (orelse : list ast.stmt) :
  additive (traverse_body AddSemicolon set log10 log2 orelse)
           (traverse_body AddSemicolon ∅ log10 log2 orelse) ->
  additive
    (fun u => block (traverse_body AddSemicolon set log10 log2 orelse)
                (fill AddSemicolon "else" u))
    (fun u => block (traverse_body AddSemicolon ∅ log10 log2 orelse)
                (fill AddSemicolon "else" u)).
Proof.
  intros Horelse.
  apply (additive_compose (fill AddSemicolon "else") (fill AddSemicolon "else")
           (block (traverse_body AddSemicolon set log10 log2 orelse))
           (block (traverse_body AddSemicolon ∅ log10 log2 orelse)));
    [apply writer_additive, writer_fill | now apply additive_block].
Qed.

Lemma additive_orelse (set : gset string)
    (log10 log2 : spec_float -> spec_float) (orelse : list ast.stmt) :
  Forall (fun node =>
            additive_writer (traverse_stmt AddSemicolon set log10 log2 node)
              (traverse_stmt AddSemicolon ∅ log10 log2 node)
            /\ additive (visit_If_tail AddSemicolon set log10 log2 node)
                 (visit_If_tail AddSemicolon ∅ log10 log2 node)) orelse ->
  additive
    (fun u2 =>
       match orelse with
       | [] => u2
       | [ast.If _ _ _ as nested] =>
           visit_If_tail AddSemicolon set log10 log2 nested u2
       | _ => block (traverse_body AddSemicolon set log10 log2 orelse)
                (fill AddSemicolon "else" u2)
       end)
    (fun u2 =>
       match orelse with
       | [] => u2
       | [ast.If _ _ _ as nested] =>
           visit_If_tail AddSemicolon ∅ log10 log2 nested u2
       | _ => block (traverse_body AddSemicolon ∅ log10 log2 orelse)
                (fill AddSemicolon "else" u2)
       end).
Proof.
  intros Ho.
  assert (Helse : additive
            (fun u => block (traverse_body AddSemicolon set log10 log2 orelse)
                        (fill AddSemicolon "else" u))
            (fun u => block (traverse_body AddSemicolon ∅ log10 log2 orelse)
                        (fill AddSemicolon "else" u))).
  { apply additive_else, additive_traverse_body.
    eapply Forall_impl; [exact Ho|]. intros s [H _]. now apply writer_additive. }
  destruct orelse as [|o [|o2 rest]]; [apply additive_id| |].
  - apply Forall_inv in Ho as [_ Htail].
    destruct o; try exact Helse. exact Htail.
  - destruct o; exact Helse.
Qed.

Lemma additive_traverse_stmt (set : gset string)
    (log10 log2 : spec_float -> spec_float) (node : ast.stmt) :
  additive_writer (traverse_stmt AddSemicolon set log10 log2 node)
    (traverse_stmt AddSemicolon ∅ log10 log2 node)
  /\ additive (visit_If_tail AddSemicolon set log10 log2 node)
       (visit_If_tail AddSemicolon ∅ log10 log2 node).
Proof.
  induction node as [names|targets value|value|value| |test body orelse Hb Ho
                    |test body orelse Hb Ho] using stmt_nested_ind;
    (split; [|try apply additive_id]).
  - cbn [traverse_stmt traverse_enter]. apply writer_and_add.
    unfold visit_Import.
    apply (writer_compose (fill AddSemicolon "import ")
             (fill AddSemicolon "import ")); [apply writer_fill|].
    apply additive_interleave; [apply writer_additive, writer_write|].
    intros x. apply additive_visit_alias.
  - cbn [traverse_stmt traverse_enter]. apply writer_and_add.
    unfold visit_Assign.
    set (F := fun u target =>
                write " = "
                  (traverse_expr AddSemicolon log10 log2 TUPLE target u)).
    apply (writer_compose (fill AddSemicolon "") (fill AddSemicolon "")
             (fun u => traverse_expr AddSemicolon log10 log2 TEST value
                         (fold_left F targets u))
             (fun u => traverse_expr AddSemicolon log10 log2 TEST value
                         (fold_left F targets u)));
      [apply writer_fill|].
    unfold F. clear F.
    apply (additive_compose
             (fun u => fold_left
                         (fun u target =>
                            write " = "
                              (traverse_expr AddSemicolon log10 log2 TUPLE
                                 target u)) targets u)
             (fun u => fold_left
                         (fun u target =>
                            write " = "
                              (traverse_expr AddSemicolon log10 log2 TUPLE
                                 target u)) targets u)
             (traverse_expr AddSemicolon log10 log2 TEST value)
             (traverse_expr AddSemicolon log10 log2 TEST value));
      [|apply additive_traverse_expr].
    induction targets as [|t rest IH]; [apply additive_id|].
    cbn [fold_left].
    apply (additive_compose
             (fun u => write " = "
                         (traverse_expr AddSemicolon log10 log2 TUPLE t u))
             (fun u => write " = "
                         (traverse_expr AddSemicolon log10 log2 TUPLE t u))
             (fun u => fold_left
                         (fun u target =>
                            write " = "
                              (traverse_expr AddSemicolon log10 log2 TUPLE
                                 target u)) rest u)
             (fun u => fold_left
                         (fun u target =>
                            write " = "
                              (traverse_expr AddSemicolon log10 log2 TUPLE
                                 target u)) rest u));
      [|exact IH].
    apply (additive_compose (traverse_expr AddSemicolon log10 log2 TUPLE t)
             (traverse_expr AddSemicolon log10 log2 TUPLE t)
             (write " = ") (write " = "));
      [apply additive_traverse_expr | apply writer_additive, writer_write].
  - cbn [traverse_stmt traverse_enter]. apply writer_and_add.
    unfold visit_Expr.
    apply (writer_compose (fill AddSemicolon "") (fill AddSemicolon ""));
      [apply writer_fill | apply additive_traverse_expr].
  - cbn [traverse_stmt traverse_enter]. apply writer_and_add.
    unfold visit_Return. destruct value as [v|]; [|apply writer_fill].
    apply (writer_compose (fill AddSemicolon "return")
             (fill AddSemicolon "return")
             (fun u => traverse_expr AddSemicolon log10 log2 TEST v
                         (write " " u))
             (fun u => traverse_expr AddSemicolon log10 log2 TEST v
                         (write " " u))); [apply writer_fill|].
    apply (additive_compose (write " ") (write " ")
             (traverse_expr AddSemicolon log10 log2 TEST v)
             (traverse_expr AddSemicolon log10 log2 TEST v));
      [apply writer_additive, writer_write | apply additive_traverse_expr].
  - cbn [traverse_stmt traverse_enter]. apply writer_and_add.
    apply writer_fill.
  - intros u1 u2 Hu. rewrite !traverse_stmt_If_eq. revert u1 u2 Hu.
    cbn [traverse_enter]. apply writer_and_add. cbv zeta.
    apply (writer_compound set log10 log2 "if " test body
             (fun u2 =>
                match orelse with
                | [] => u2
                | [ast.If _ _ _ as nested] =>
                    visit_If_tail AddSemicolon set log10 log2 nested u2
                | _ => block (traverse_body AddSemicolon set log10 log2 orelse)
                         (fill AddSemicolon "else" u2)
                end)
             (fun u2 =>
                match orelse with
                | [] => u2
                | [ast.If _ _ _ as nested] =>
                    visit_If_tail AddSemicolon ∅ log10 log2 nested u2
                | _ => block (traverse_body AddSemicolon ∅ log10 log2 orelse)
                         (fill AddSemicolon "else" u2)
                end)).
    + apply additive_traverse_body.
      eapply Forall_impl; [exact Hb|]. intros s [H _].
      now apply writer_additive.
    + now apply additive_orelse.
  - intros u1 u2 Hu. rewrite !visit_If_tail_eq. revert u1 u2 Hu. cbv zeta.
    apply writer_additive.
    apply (writer_compound set log10 log2 "elif " test body
             (fun u2 =>
                match orelse with
                | [] => u2
                | [ast.If _ _ _ as nested] =>
                    visit_If_tail AddSemicolon set log10 log2 nested u2
                | _ => block (traverse_body AddSemicolon set log10 log2 orelse)
                         (fill AddSemicolon "else" u2)
                end)
             (fun u2 =>
                match orelse with
                | [] => u2
                | [ast.If _ _ _ as nested] =>
                    visit_If_tail AddSemicolon ∅ log10 log2 nested u2
                | _ => block (traverse_body AddSemicolon ∅ log10 log2 orelse)
                         (fill AddSemicolon "else" u2)
                end)).
    + apply additive_traverse_body.
      eapply Forall_impl; [exact Hb|]. intros s [H _].
      now apply writer_additive.
    + now apply additive_orelse.
  - intros u1 u2 Hu. rewrite !traverse_stmt_While_eq. revert u1 u2 Hu.
    cbn [traverse_enter]. apply writer_and_add. cbv zeta.
    assert (Hbody : additive (traverse_body AddSemicolon set log10 log2 body)
                      (traverse_body AddSemicolon ∅ log10 log2 body)).
    { apply additive_traverse_body.
      eapply Forall_impl; [exact Hb|]. intros s [H _].
      now apply writer_additive. }
    destruct orelse as [|o rest].
    + apply (writer_compound set log10 log2 "while " test body
               (fun u => u) (fun u => u) Hbody additive_id).
    + apply (writer_compound set log10 log2 "while " test body
               (fun u2 => block (traverse_body AddSemicolon set log10 log2
                                   (o :: rest))
                            (fill AddSemicolon "else" u2))
               (fun u2 => block (traverse_body AddSemicolon ∅ log10 log2
                                   (o :: rest))
                            (fill AddSemicolon "else" u2)) Hbody).
      apply additive_else, additive_traverse_body.
      eapply Forall_impl; [exact Ho|]. intros s [H _].
      now apply writer_additive.
Qed.

(** X23.  Whatever set of visitors an [AddSemicolon] instance wraps, the
    fragments it writes for a module are, the [;] fragments aside, the
    fragments it writes when it wraps none, which are those of
    [_Unparser]: the wrapper of [and_add] changes nothing of what a
    visitor writes and only adds [;]. *)
Theorem and_add_only_adds (set : gset string)
    (log10 log2 : spec_float -> spec_float)
    (tree : ast.module) (u : unparser) :
  without_semicolons
    (_source (traverse_Module AddSemicolon set log10 log2 tree u))
  = without_semicolons
      (_source (traverse_Module AddSemicolon ∅ log10 log2 tree u)).
Proof.
  destruct tree as [body]. unfold traverse_Module. cbn [traverse_enter].
  assert (Hu : same_but_semicolons u u) by (repeat split; auto).
  destruct (additive_traverse_body set log10 log2 body) with (u1 := u) (u2 := u)
    as [[H _] _]; [|exact Hu|exact H].
  apply Forall_forall. intros s _.
  apply writer_additive, additive_traverse_stmt.
Qed.
